(** * discord-git-bot: a shallow embedding of [bot.js] and its properties

    The bot polls the public GitHub event feed of one account and reposts
    new events as embeds into a Discord channel.  This development embeds
    the polling cycle ([pollGitHub]), the rate-limited fetcher
    ([fetchGitHub], [fetchEvents], [fetchCommits]), the renderer
    ([postEvent]) and the string helpers ([truncate], [capitalize]) and
    proves the properties of the specification against them.

    Conventions of the embedding:
    - a JavaScript string is a [string]; one character stands for one
      UTF-16 code unit, so [String.length] is [str.length];
    - a JavaScript number that the code computes with is a [Z]; the value
      [NaN], which [parseInt] can produce, is explicit in [jsnum], and what
      [parseInt] and a product return is rounded to a double;
    - an absent property ([undefined] or [null]) is [None];
    - module-level variables ([lastEventId], [rateLimitReset]) and the state
      file are fields of [state]; the network, the clock, the Discord
      channel, the file system and the setters of the embed library are
      an [env] of oracles;
    - everything a cycle does to the outside (requests, messages, sleeps,
      log lines, file writes) is emitted, in order, as a list of [action]. *)

From Stdlib Require Import ZArith List String Ascii Bool Lia DecimalString.
Import ListNotations.
Local Open Scope string_scope.
Local Open Scope Z_scope.

Set Implicit Arguments.

(* ================================================================== *)
(** ** JavaScript primitives used by the bot *)

Module JS.

(** [s.length] *)
Definition length (s : string) : Z := Z.of_nat (String.length s).

(** The first [n] code units of [s] (all of [s] when it is shorter). *)
Fixpoint take (n : nat) (s : string) : string :=
  match n, s with
  | O, _ => EmptyString
  | S _, EmptyString => EmptyString
  | S n', String c s' => String c (take n' s')
  end.

(** [s] without its first [n] code units. *)
Fixpoint drop (n : nat) (s : string) : string :=
  match n, s with
  | O, _ => s
  | S _, EmptyString => EmptyString
  | S n', String _ s' => drop n' s'
  end.

(** [s.substring(a, b)]: both indices are clamped to [0 .. s.length] and
    swapped when [a > b]. *)
Definition substring (s : string) (a b : Z) : string :=
  let clamp i := Z.max 0 (Z.min i (length s)) in
  let lo := Z.min (clamp a) (clamp b) in
  let hi := Z.max (clamp a) (clamp b) in
  take (Z.to_nat (hi - lo)) (drop (Z.to_nat lo) s).

(** [s.slice(1)] *)
Definition slice1 (s : string) : string := drop 1 s.

(** [s.split(sep)] for a one-character separator. *)
Fixpoint split (sep : ascii) (s : string) : list string :=
  match s with
  | EmptyString => [EmptyString]
  | String c s' =>
      if Ascii.eqb c sep then EmptyString :: split sep s'
      else match split sep s' with
           | [] => [String c EmptyString]
           | w :: ws => String c w :: ws
           end
  end.

(** [xs.join(sep)] *)
Definition join (sep : string) (xs : list string) : string :=
  String.concat sep xs.

(** [s.replace(pat, '')] with a string pattern: the first occurrence of
    [pat] is removed, wherever it is. *)
Fixpoint remove_first (pat s : string) : string :=
  if String.prefix pat s then drop (String.length pat) s
  else match s with
       | EmptyString => EmptyString
       | String c s' => String c (remove_first pat s')
       end.

(** A value interpolated into a template literal: an absent one prints
    as [undefined]. *)
Definition show (o : option string) : string :=
  match o with Some s => s | None => "undefined" end.

(** A (safe) integer interpolated into a template literal. *)
Definition show_int (n : Z) : string := NilZero.string_of_int (Z.to_int n).

(** Truthiness of a possibly absent string: absent and [''] are falsy. *)
Definition truthy (o : option string) : bool :=
  match o with
  | Some s => negb (String.eqb s "")
  | None => false
  end.

(** Numbers that may be [NaN]. *)
Inductive jsnum : Type :=
| Num (z : Z)
| NaN.

(** The integer nearest to [z] among the doubles (ties to the even
    significand): [z] itself up to 2^53 in absolute value, and a multiple
    of a power of two beyond.  [Infinity], which lies beyond
    [Number.MAX_VALUE] (about 1.8e308), is not modelled. *)
Definition to_double (z : Z) : Z :=
  let a := Z.abs z in
  let e := Z.log2 a - 52 in
  if e <=? 0 then z
  else
    let q := Z.shiftr a e in
    let r := a - Z.shiftl q e in
    let half := Z.shiftl 1 (e - 1) in
    let q' := if (half <? r) || ((r =? half) && Z.odd q) then q + 1 else q in
    Z.sgn z * Z.shiftl q' e.

(** [a < b] on numbers: every comparison with [NaN] is false. *)
Definition lt (a : Z) (b : jsnum) : bool :=
  match b with
  | Num z => a <? z
  | NaN => false
  end.

(** [x * k] *)
Definition times (x : jsnum) (k : Z) : jsnum :=
  match x with
  | Num z => Num (to_double (z * k))
  | NaN => NaN
  end.

(** [x || d] on numbers: [0] and [NaN] are falsy. *)
Definition or_else (x : jsnum) (d : Z) : Z :=
  match x with
  | Num z => if z =? 0 then d else z
  | NaN => d
  end.

(** Code units that [parseInt] skips at the front (white space and line
    terminators below 256). *)
Definition is_space (c : ascii) : bool :=
  let n := N_of_ascii c in
  (((9 <=? n) && (n <=? 13)) || (n =? 32) || (n =? 160))%N.

Fixpoint skip_spaces (s : string) : string :=
  match s with
  | String c s' => if is_space c then skip_spaces s' else s
  | EmptyString => s
  end.

(** The value of a digit in a radix, if it is one. *)
Definition digit_of (radix : Z) (c : ascii) : option Z :=
  let n := Z.of_N (N_of_ascii c) in
  let v := if (48 <=? n) && (n <=? 57) then Some (n - 48)
           else if (97 <=? n) && (n <=? 122) then Some (n - 87)
           else if (65 <=? n) && (n <=? 90) then Some (n - 55)
           else None in
  match v with
  | Some d => if d <? radix then Some d else None
  | None => None
  end.

(** Reads the longest prefix of digits; [acc] is [None] until a digit was
    read. *)
Fixpoint digits (radix : Z) (acc : option Z) (s : string) : option Z :=
  match s with
  | EmptyString => acc
  | String c s' =>
      match digit_of radix c with
      | Some d =>
          digits radix
            (Some (match acc with Some a => a * radix + d | None => d end)) s'
      | None => acc
      end
  end.

(** [parseInt(s)] without a radix: leading white space, an optional sign,
    an optional [0x] prefix, then the longest run of digits; [NaN] when
    there is none; the integer read is rounded to a double.  (The language
    lets an implementation replace the digits after the 20th of a decimal
    numeral by zeros before it rounds; the model reads every digit.) *)
Definition parseInt_string (s : string) : jsnum :=
  let s1 := skip_spaces s in
  let '(sign, s2) :=
    match s1 with
    | String "-" r => (-1, r)
    | String "+" r => (1, r)
    | _ => (1, s1)
    end in
  let '(radix, s3) :=
    match s2 with
    | String "0" (String "x" r) => (16, r)
    | String "0" (String "X" r) => (16, r)
    | _ => (10, s2)
    end in
  match digits radix None s3 with
  | Some v => Num (to_double (sign * v))
  | None => NaN
  end.

(** [parseInt(x)] where [x] may be [undefined]: the argument is first
    converted to a string, and no such string starts with a digit. *)
Definition parseInt (o : option string) : jsnum :=
  match o with
  | Some s => parseInt_string s
  | None => NaN
  end.

(** [c.toUpperCase()] on one code unit; only the letters a-z are mapped,
    which is what [toUpperCase] does below 128.  Above, it maps further
    letters, some of them to code units beyond 255 or to two code units,
    which a [string] of this development cannot hold. *)
Definition upper (c : ascii) : ascii :=
  let n := N_of_ascii c in
  if ((97 <=? n) && (n <=? 122))%N then ascii_of_N (n - 32) else c.

(** The largest time value of a [Date]; [toISOString] raises a
    [RangeError] outside +-8.64e15 and on [NaN]. *)
Definition max_time : Z := 8640000000000000.

Definition valid_time (t : jsnum) : option Z :=
  match t with
  | Num z => if (- max_time <=? z) && (z <=? max_time) then Some z else None
  | NaN => None
  end.

(** [new Date(s)]: the time that the string denotes, which may be an
    invalid one.  How a string is read is left to the host. *)
Inductive Date : Type :=
| new_Date (s : string).

(** The names that every object literal inherits from [Object.prototype];
    [o[k]] is a function (for [__proto__], an object) for each of them. *)
Definition Object_prototype : list string :=
  [ "constructor"; "hasOwnProperty"; "isPrototypeOf"; "propertyIsEnumerable";
    "toLocaleString"; "toString"; "valueOf"; "__proto__";
    "__defineGetter__"; "__defineSetter__"; "__lookupGetter__";
    "__lookupSetter__" ].

End JS.

(* ================================================================== *)
(** ** String helpers of the renderer *)

(** [function capitalize(str)]: first code unit in upper case, rest as is. *)
Definition capitalize (str : string) : string :=
  match str with
  | EmptyString => EmptyString
  | String c _ => String (JS.upper c) (JS.slice1 str)
  end.

(** [function truncate(str, len)]: [!str] holds of an absent and of an
    empty string. *)
Definition truncate (str : option string) (len : Z) : string :=
  if negb (JS.truthy str) then ""
  else match str with
       | None => ""
       | Some s =>
           if JS.length s <=? len then s
           else JS.substring s 0 (len - 3) ++ "..."
       end.


(* ================================================================== *)
(** ** Data model: configuration, feed items, embeds *)

(** The [CONFIG] object, as far as the cycle reads it. *)
Record config : Type := mkConfig {
  CHANNEL_ID : option string;
  GITHUB_USERNAME : option string;
  GITHUB_TOKEN : option string;
  POLL_INTERVAL : Z;
  STATE_FILE : string;
  EVENT_TYPES : list string;
  DEBUG : bool
}.

(** The literal default of [CONFIG.EVENT_TYPES]. *)
Definition default_EVENT_TYPES : string :=
  "PushEvent,CreateEvent,ForkEvent,ReleaseEvent,IssuesEvent,IssueCommentEvent,PullRequestEvent".

(** [x || d] on possibly absent strings. *)
Definition str_or (o : option string) (d : string) : string :=
  match o with
  | Some s => if String.eqb s "" then d else s
  | None => d
  end.

(** [const CONFIG = { ... }], read from [process.env]. *)
Definition CONFIG_of (getenv : string -> option string) : config :=
  {| CHANNEL_ID := getenv "CHANNEL_ID";
     GITHUB_USERNAME := getenv "GITHUB_USERNAME";
     GITHUB_TOKEN := getenv "GITHUB_TOKEN";
     POLL_INTERVAL := JS.or_else (JS.parseInt (getenv "POLL_INTERVAL")) 60000;
     STATE_FILE := str_or (getenv "STATE_FILE") "./data/last_event.json";
     EVENT_TYPES := JS.split "," (str_or (getenv "EVENT_TYPES") default_EVENT_TYPES);
     DEBUG := match getenv "DEBUG" with
              | Some s => String.eqb s "true"
              | None => false
              end |}.

(** [xs.includes(x)] on an array of strings. *)
Definition includes (xs : list string) (x : string) : bool :=
  existsb (String.eqb x) xs.

(** A commit as the renderer reads it: [{ sha, message }]. *)
Record commit : Type := mkCommit {
  sha : string;
  message : string
}.

Record forkee : Type := mkForkee {
  fk_full_name : string;
  fk_html_url : string;
  fk_description : option string
}.

Record release : Type := mkRelease {
  tag_name : string;
  rel_name : option string;
  rel_html_url : string;
  rel_body : option string
}.

Record issue : Type := mkIssue {
  iss_number : Z;
  iss_html_url : string;
  iss_title : option string
}.

Record comment : Type := mkComment {
  cm_html_url : string;
  cm_body : option string
}.

Record pull_request : Type := mkPullRequest {
  pr_number : Z;
  pr_html_url : string;
  pr_title : option string;
  pr_merged : bool
}.

(** [event.payload]: an object whose properties depend on the kind of the
    event; a property that is not there is [None]. *)
Record payload : Type := mkPayload {
  p_ref : option string;
  p_commits : option (list commit);
  p_before : option string;
  p_head : option string;
  p_size : option Z;
  p_ref_type : option string;
  p_description : option string;
  p_forkee : option forkee;
  p_release : option release;
  p_action : option string;
  p_issue : option issue;
  p_comment : option comment;
  p_pull_request : option pull_request
}.

(** One item of the feed: [{ id, type, repo, actor, payload, created_at }]. *)
Record event : Type := mkEvent {
  id : string;
  type : string;
  repo_name : string;
  actor_login : string;
  actor_avatar_url : string;
  created_at : string;
  ev_payload : payload
}.

(** What [EVENT_COLORS[type] || 0x768390] can be: a number, or, when
    [type] is the name of a member that the object literal inherits, that
    member. *)
Inductive color_value : Type :=
| Hex (c : Z)
| Member (name : string).

(** The argument of [setAuthor]. *)
Record author_data : Type := mkAuthor {
  au_name : string;
  au_iconURL : string;
  au_url : string
}.

(** The contents of an [EmbedBuilder]: for each setter that [postEvent]
    uses, the argument of its last call, if any. *)
Record embed : Type := mkEmbed {
  color : option color_value;
  author : option author_data;
  timestamp : option JS.Date;
  footer : option string;
  title : option string;
  url : option string;
  description : option string
}.

(** [new EmbedBuilder()] *)
Definition new_EmbedBuilder : embed :=
  {| color := None; author := None; timestamp := None; footer := None;
     title := None; url := None; description := None |}.

(** A call of a setter of [EmbedBuilder], with its argument. *)
Inductive call : Type :=
| SetColor (c : color_value)
| SetAuthor (a : author_data)
| SetTimestamp (d : JS.Date)
| SetFooter (text : string)
| SetTitle (t : string)
| SetURL (u : string)
| SetDescription (d : string).

(** What a call that the library accepts leaves in the builder. *)
Definition record (c : call) (e : embed) : embed :=
  match c with
  | SetColor v =>
      {| color := Some v; author := author e; timestamp := timestamp e;
         footer := footer e; title := title e; url := url e;
         description := description e |}
  | SetAuthor a =>
      {| color := color e; author := Some a; timestamp := timestamp e;
         footer := footer e; title := title e; url := url e;
         description := description e |}
  | SetTimestamp d =>
      {| color := color e; author := author e; timestamp := Some d;
         footer := footer e; title := title e; url := url e;
         description := description e |}
  | SetFooter t =>
      {| color := color e; author := author e; timestamp := timestamp e;
         footer := Some t; title := title e; url := url e;
         description := description e |}
  | SetTitle t =>
      {| color := color e; author := author e; timestamp := timestamp e;
         footer := footer e; title := Some t; url := url e;
         description := description e |}
  | SetURL u =>
      {| color := color e; author := author e; timestamp := timestamp e;
         footer := footer e; title := title e; url := Some u;
         description := description e |}
  | SetDescription d =>
      {| color := color e; author := author e; timestamp := timestamp e;
         footer := footer e; title := title e; url := url e;
         description := Some d |}
  end.

(** [const EVENT_COLORS = { ... }] as an association list. *)
Definition EVENT_COLORS : list (string * Z) :=
  [ ("PushEvent", 0x238636); ("CreateEvent", 0x8957e5);
    ("ForkEvent", 0x58a6ff); ("WatchEvent", 0xf0b72f);
    ("ReleaseEvent", 0x1f6feb); ("IssuesEvent", 0x238636);
    ("IssueCommentEvent", 0x768390); ("PullRequestEvent", 0x8957e5) ].

Fixpoint lookup (k : string) (m : list (string * Z)) : option Z :=
  match m with
  | [] => None
  | (k', v) :: m' => if String.eqb k k' then Some v else lookup k m'
  end.

(** [EVENT_COLORS[type] || 0x768390]: the own entry of the literal, else
    the member it inherits under that name (every one is truthy), else the
    default. *)
Definition color_of (type : string) : color_value :=
  match lookup type EVENT_COLORS with
  | Some c => Hex (if c =? 0 then 0x768390 else c)
  | None =>
      if existsb (String.eqb type) JS.Object_prototype then Member type
      else Hex 0x768390
  end.

(* ================================================================== *)
(** ** Effects: errors, log lines, actions, state and environment *)

(** The exceptions that can travel through a cycle. *)
Inductive error : Type :=
| GitHubAPIError (status : Z)   (* new Error(`GitHub API error: ${status}`) *)
| NetworkError (msg : string)   (* fetch(...) rejected *)
| SyntaxError                   (* response.json() on a malformed body *)
| TypeError (prop : string)     (* a property read on an absent value *)
| RangeError                    (* toISOString() on an invalid date *)
| DiscordError (msg : string)   (* channel.send(...) rejected *)
| FsError (msg : string)        (* a file system call failed *)
| ValidationError (msg : string). (* a setter of the embed library refused
                                     its argument *)

(** The lines written by [log] and [debug], by their template. *)
Inductive log_line : Type :=
| LRateWait (wait : JS.jsnum)        (* Rate limited, waiting ${wait}s *)
| LRateRemaining (r : string)        (* Rate limit remaining: ${remaining} *)
| LRateLimitedUntil (t : Z)          (* Rate limited until ${ISO date} *)
| LFetched (n : Z)                   (* Fetched ${events.length} events *)
| LChannelNotFound (c : option string) (* Channel not found: ${CHANNEL_ID} *)
| LFirstRun                          (* First run - posting latest event only *)
| LPostingNew (n : Z)                (* Posting ${newEvents.length} new events *)
| LPollError (e : error)             (* Poll error: ${err.message} *)
| LPosted (type repo : string)       (* Posted ${type} for ${repo.name} *)
| LErrorPosting (type : string) (e : error) (* Error posting ${type}: ... *)
| LFailedLoad (e : error)            (* Failed to load state: ... *)
| LFailedSave (e : error)            (* Failed to save state: ... *)
| LLoggedIn (tag : string)           (* Logged in as ${client.user.tag} *)
| LPolling (user : option string) (interval : Z)
                                     (* Polling ${GITHUB_USERNAME} every
                                        ${POLL_INTERVAL / 1000}s *)
| LEventTypes (types : list string). (* Event types: ${EVENT_TYPES.join(', ')} *)

(** What a cycle does to the outside world, in order. *)
Inductive action : Type :=
| AFetch (url : string) (bearer : option string) (* fetch(url, { headers }) *)
| ASend (m : embed)                    (* channel.send resolved *)
| ASendFailed (m : embed) (e : error)  (* channel.send rejected *)
| ASleep (ms : Z)                      (* sleep(ms) *)
| ALog (l : log_line)                  (* log(...) *)
| ADebug (l : log_line)                (* debug(...) with CONFIG.DEBUG set *)
| AWrite (path : string) (id : string). (* writeFileSync(path, {lastEventId}) *)

(** The state file: not there, there but unreadable (the read or
    [JSON.parse] throws, or the text parses to [null]), or holding the id
    that [saveLastEventId] wrote.  A file that parses to something else,
    so that [lastEventId] would start as a value that is neither [null]
    nor a string, is not in the model. *)
Inductive file : Type :=
| Absent
| Corrupt (e : error)
| Saved (id : string).

(** The module-level variables, the state file, and how many clock reads,
    requests and channel sends have happened so far (the positions in the
    oracles of the environment). *)
Record state : Type := mkState {
  lastEventId : option string;
  rateLimitReset : JS.jsnum;
  state_file : file;
  ticks : nat;
  requests : nat;
  posts : nat
}.

(** A response of the GitHub API with the parts the fetcher reads. *)
Record response (A : Type) : Type := mkResponse {
  status : Z;
  x_ratelimit_remaining : option string;
  x_ratelimit_reset : option string;
  json : option A            (* [None]: the body does not parse *)
}.

Inductive transport (A : Type) : Type :=
| Rejected (e : error)
| Response (r : response A).

(** [response.ok] *)
Definition ok {A} (r : response A) : bool :=
  (200 <=? status r) && (status r <=? 299).

(** An entry of the [commits] array of the compare API. *)
Record compare_commit : Type := mkCompareCommit {
  cc_sha : string;
  cc_commit_message : string
}.

(** The body of the compare API: [{ commits? }]. *)
Record compare : Type := mkCompare {
  commits : option (list compare_commit)
}.

(** The world around one cycle. *)
Record env : Type := mkEnv {
  now : nat -> Z;                               (* the n-th [Date.now()] *)
  http_events : nat -> transport (list event);  (* the n-th request, if it
                                                   asks for the feed *)
  http_compare : nat -> transport compare;      (* ... for a comparison *)
  channel : bool;                (* the channel is in the client's cache *)
  send_result : nat -> option error;  (* the n-th [channel.send] *)
  write_result : option error;        (* writing the state file *)
  setter_throws : call -> option error;
                      (* calling a setter of [EmbedBuilder]: [setTimestamp]
                         throws on an invalid date, and each setter on an
                         argument that the library does not accept *)
  client_user_tag : string            (* [client.user.tag] *)
}.

Inductive outcome (A : Type) : Type :=
| Ret (a : A)
| Throw (e : error).
Arguments Throw {A} e.

(** Computations: read the environment, update the state, return or throw,
    and emit actions. *)
Definition M (A : Type) : Type := env -> state -> outcome A * state * list action.

Definition ret {A} (a : A) : M A := fun _ s => (Ret a, s, []).

Definition throw {A} (e : error) : M A := fun _ s => (Throw e, s, []).

Definition bind {A B} (m : M A) (f : A -> M B) : M B :=
  fun w s =>
    match m w s with
    | (Ret a, s1, t1) =>
        match f a w s1 with
        | (o, s2, t2) => (o, s2, (t1 ++ t2)%list)
        end
    | (Throw e, s1, t1) => (Throw e, s1, t1)
    end.

(** [try { m } catch (err) { h err }] *)
Definition try_catch {A} (m : M A) (h : error -> M A) : M A :=
  fun w s =>
    match m w s with
    | (Ret a, s1, t1) => (Ret a, s1, t1)
    | (Throw e, s1, t1) =>
        match h e w s1 with
        | (o, s2, t2) => (o, s2, (t1 ++ t2)%list)
        end
    end.

Definition emit (a : action) : M unit := fun _ s => (Ret tt, s, [a]).
Definition asks {A} (f : env -> A) : M A := fun w s => (Ret (f w), s, []).
Definition gets {A} (f : state -> A) : M A := fun _ s => (Ret (f s), s, []).
Definition modify (f : state -> state) : M unit := fun _ s => (Ret tt, f s, []).

Declare Scope js_scope.
Delimit Scope js_scope with js.
Notation "x <- m ;; k" := (bind m (fun x => k))
  (at level 100, m at next level, right associativity) : js_scope.
Notation "m ;; k" := (bind m (fun _ => k))
  (at level 100, right associativity) : js_scope.
Local Open Scope js_scope.

(** The three results of a run. *)
Definition result {A} (r : outcome A * state * list action) : outcome A := fst (fst r).
Definition final {A} (r : outcome A * state * list action) : state := snd (fst r).
Definition acts {A} (r : outcome A * state * list action) : list action := snd r.

Definition set_lastEventId (v : option string) (s : state) : state :=
  {| lastEventId := v; rateLimitReset := rateLimitReset s;
     state_file := state_file s; ticks := ticks s;
     requests := requests s; posts := posts s |}.

Definition set_rateLimitReset (v : JS.jsnum) (s : state) : state :=
  {| lastEventId := lastEventId s; rateLimitReset := v;
     state_file := state_file s; ticks := ticks s;
     requests := requests s; posts := posts s |}.

Definition set_state_file (v : file) (s : state) : state :=
  {| lastEventId := lastEventId s; rateLimitReset := rateLimitReset s;
     state_file := v; ticks := ticks s;
     requests := requests s; posts := posts s |}.

Definition tick (s : state) : state :=
  {| lastEventId := lastEventId s; rateLimitReset := rateLimitReset s;
     state_file := state_file s; ticks := S (ticks s);
     requests := requests s; posts := posts s |}.

Definition count_request (s : state) : state :=
  {| lastEventId := lastEventId s; rateLimitReset := rateLimitReset s;
     state_file := state_file s; ticks := ticks s;
     requests := S (requests s); posts := posts s |}.

Definition count_post (s : state) : state :=
  {| lastEventId := lastEventId s; rateLimitReset := rateLimitReset s;
     state_file := state_file s; ticks := ticks s;
     requests := requests s; posts := S (posts s) |}.

(** [Date.now()] *)
Definition Date_now : M Z :=
  fun w s => (Ret (now w (ticks s)), tick s, []).

(** [function sleep(ms)] *)
Definition sleep (ms : Z) : M unit := emit (ASleep ms).

(** A call of a setter on a builder: the library throws, or the builder
    holds the argument. *)
Definition setter (c : call) (em : embed) : M embed :=
  fun w s =>
    match setter_throws w c with
    | None => (Ret (record c em), s, [])
    | Some err => (Throw err, s, [])
    end.

Definition setColor (c : color_value) : embed -> M embed := setter (SetColor c).
Definition setAuthor (a : author_data) : embed -> M embed := setter (SetAuthor a).
Definition setTimestamp (d : JS.Date) : embed -> M embed := setter (SetTimestamp d).
Definition setFooter (t : string) : embed -> M embed := setter (SetFooter t).
Definition setTitle (t : string) : embed -> M embed := setter (SetTitle t).
Definition setURL (u : string) : embed -> M embed := setter (SetURL u).
Definition setDescription (d : string) : embed -> M embed :=
  setter (SetDescription d).

(* ================================================================== *)
(** ** The bot *)

Section Bot.

Variable CONFIG : config.

(** [function log(msg)] *)
Definition log (l : log_line) : M unit := emit (ALog l).

(** [function debug(msg)] *)
Definition debug (l : log_line) : M unit :=
  if DEBUG CONFIG then emit (ADebug l) else ret tt.

(** [function loadLastEventId()] *)
Definition loadLastEventId : M (option string) :=
  f <- gets state_file ;;
  match f with
  | Absent => ret None
  | Corrupt e => log (LFailedLoad e) ;; ret None
  | Saved i => ret (Some i)
  end.

(** [function saveLastEventId(id)] *)
Definition saveLastEventId (i : string) : M unit :=
  r <- asks write_result ;;
  match r with
  | None =>
      emit (AWrite (STATE_FILE CONFIG) i) ;;
      modify (set_state_file (Saved i))
  | Some e => log (LFailedSave e)
  end.

(** [await fetch(url, { headers })] against one of the two endpoints. *)
Definition fetch {A} (net : env -> nat -> transport A) (url : string)
  : M (response A) :=
  fun w s =>
    let bearer := if JS.truthy (GITHUB_TOKEN CONFIG)
                  then GITHUB_TOKEN CONFIG else None in
    match net w (requests s) with
    | Rejected _ e => (Throw e, count_request s, [AFetch url bearer])
    | Response r => (Ret r, count_request s, [AFetch url bearer])
    end.

(** [Math.ceil((rateLimitReset - now) / 1000)] *)
Definition wait_seconds (reset : JS.jsnum) (t : Z) : JS.jsnum :=
  match reset with
  | JS.Num r => JS.Num (- ((t - r) / 1000))
  | JS.NaN => JS.NaN
  end.

(** [async function fetchGitHub(url)]; [None] is the [null] result. *)
Definition fetchGitHub {A} (net : env -> nat -> transport A) (url : string)
  : M (option A) :=
  t <- Date_now ;;
  reset <- gets rateLimitReset ;;
  if JS.lt t reset then
    t' <- Date_now ;;
    debug (LRateWait (wait_seconds reset t')) ;;
    ret None
  else
    response <- fetch net url ;;
    (if JS.truthy (x_ratelimit_remaining response)
     then debug (LRateRemaining (JS.show (x_ratelimit_remaining response)))
     else ret tt) ;;
    if (status response =? 403) || (status response =? 429) then
      let reset := x_ratelimit_reset response in
      v <- (if JS.truthy reset
            then ret (JS.times (JS.parseInt reset) 1000)
            else t' <- Date_now ;; ret (JS.Num (t' + 60000))) ;;
      modify (set_rateLimitReset v) ;;
      match JS.valid_time v with
      | Some ms => log (LRateLimitedUntil ms) ;; ret None
      | None => throw RangeError
      end
    else if negb (ok response) then
      throw (GitHubAPIError (status response))
    else
      match json response with
      | Some body => ret (Some body)
      | None => throw SyntaxError
      end.

(** [async function fetchEvents()] *)
Definition fetchEvents : M (option (list event)) :=
  fetchGitHub http_events
    ("https://api.github.com/users/" ++ JS.show (GITHUB_USERNAME CONFIG)
       ++ "/events/public").

(** [async function fetchCommits(repoName, before, head)] *)
Definition fetchCommits (repoName before head : string) : M (list commit) :=
  data <- fetchGitHub http_compare
            ("https://api.github.com/repos/" ++ repoName ++ "/compare/"
               ++ before ++ "..." ++ head) ;;
  match data with
  | None => ret []
  | Some data =>
      ret (map (fun c => {| sha := cc_sha c; message := cc_commit_message c |})
             (match commits data with Some cs => cs | None => [] end))
  end.

(** Reading a property of [o]: a [TypeError] when [o] is absent. *)
Definition prop {A} (o : option A) (name : string) : M A :=
  match o with
  | Some a => ret a
  | None => throw (TypeError name)
  end.

Definition LF : ascii := ascii_of_nat 10.

(** One line of the commit list of a push. *)
Definition commit_line (repo : string) (c : commit) : string :=
  let sha7 := JS.substring (sha c) 0 7 in
  let msg := truncate (Some (hd "" (JS.split LF (message c)))) 50 in
  "[`" ++ sha7 ++ "`](https://github.com/" ++ repo ++ "/commit/" ++ sha c
    ++ ") " ++ msg.

(** [payload.size || commits.length || 1] *)
Definition commit_count (size : option Z) (cs : list commit) : Z :=
  match size with
  | Some n => if n =? 0 then JS.or_else (JS.Num (Z.of_nat (List.length cs))) 1 else n
  | None => JS.or_else (JS.Num (Z.of_nat (List.length cs))) 1
  end.

(** The [PushEvent] case once the branch and the commits are known:
    the description, then the title and the link. *)
Definition push_embed (e : event) (repoName : option string)
    (branch : string) (cs : list commit) (em : embed) : M embed :=
  let p := ev_payload e in
  let commitCount := commit_count (p_size p) cs in
  let n := Z.of_nat (List.length cs) in
  em1 <- (if 0 <? n then
            let commitList :=
              JS.join (String LF "")
                (map (commit_line (repo_name e)) (firstn 5 cs)) in
            setDescription
              (commitList ++
                 (if 5 <? n
                  then String LF "" ++ "... and " ++ JS.show_int (n - 5)
                         ++ " more"
                  else ""))
              em
          else
            let shortHead :=
              if JS.truthy (p_head p)
              then JS.substring (JS.show (p_head p)) 0 7 else "" in
            setDescription
              ("[`" ++ shortHead ++ "`](https://github.com/" ++ repo_name e
                 ++ "/commit/" ++ JS.show (p_head p) ++ ")")
              em) ;;
  em2 <- setTitle ("Pushed " ++ JS.show_int commitCount ++ " commit"
                     ++ (if 1 <? commitCount then "s" else "")
                     ++ " to " ++ JS.show repoName ++ "/" ++ branch)
           em1 ;;
  setURL ("https://github.com/" ++ repo_name e ++ "/tree/" ++ branch) em2.

(** The [switch (type)] of [postEvent], with the reads of the payload and
    the calls of the setters in the order of the source: the finished
    embed, or [None] when the [default] case returns without sending. *)
Definition render (e : event) (repoName : option string) (repoUrl : string)
    (em : embed) : M (option embed) :=
  let p := ev_payload e in
  if String.eqb (type e) "PushEvent" then
    ref <- prop (p_ref p) "replace" ;;
    let branch := JS.remove_first "refs/heads/" ref in
    let inline := match p_commits p with Some cs => cs | None => [] end in
    cs <- (if (Z.of_nat (List.length inline) =? 0)
              && JS.truthy (p_before p) && JS.truthy (p_head p)
           then fetchCommits (repo_name e) (JS.show (p_before p))
                  (JS.show (p_head p))
           else ret inline) ;;
    em' <- push_embed e repoName branch cs em ;;
    ret (Some em')
  else if String.eqb (type e) "CreateEvent" then
    let target := if JS.truthy (p_ref p)
                  then "`" ++ JS.show (p_ref p) ++ "`"
                  else JS.show repoName in
    em1 <- setTitle ("Created " ++ JS.show (p_ref_type p) ++ " " ++ target) em ;;
    em2 <- setURL (if JS.truthy (p_ref p)
                   then "https://github.com/" ++ repo_name e ++ "/tree/"
                          ++ JS.show (p_ref p)
                   else repoUrl) em1 ;;
    em3 <- (if JS.truthy (p_description p)
            then setDescription (JS.show (p_description p)) em2
            else ret em2) ;;
    ret (Some em3)
  else if String.eqb (type e) "ForkEvent" then
    fk <- prop (p_forkee p) "full_name" ;;
    em1 <- setTitle ("Forked to " ++ fk_full_name fk) em ;;
    em2 <- setURL (fk_html_url fk) em1 ;;
    em3 <- (if JS.truthy (fk_description fk)
            then setDescription (JS.show (fk_description fk)) em2
            else ret em2) ;;
    ret (Some em3)
  else if String.eqb (type e) "WatchEvent" then
    em1 <- setTitle ("Starred " ++ repo_name e) em ;;
    em2 <- setURL repoUrl em1 ;;
    ret (Some em2)
  else if String.eqb (type e) "ReleaseEvent" then
    rel <- prop (p_release p) "tag_name" ;;
    let suffix :=
      if JS.truthy (rel_name rel)
         && negb (String.eqb (JS.show (rel_name rel)) (tag_name rel))
      then ": " ++ JS.show (rel_name rel) else "" in
    em1 <- setTitle ("Released " ++ tag_name rel ++ suffix) em ;;
    em2 <- setURL (rel_html_url rel) em1 ;;
    em3 <- (if JS.truthy (rel_body rel)
            then setDescription (truncate (rel_body rel) 200) em2
            else ret em2) ;;
    ret (Some em3)
  else if String.eqb (type e) "IssuesEvent" then
    action <- prop (p_action p) "charAt" ;;
    iss <- prop (p_issue p) "number" ;;
    em1 <- setTitle (capitalize action ++ " issue #"
                       ++ JS.show_int (iss_number iss)) em ;;
    em2 <- setURL (iss_html_url iss) em1 ;;
    em3 <- setDescription (truncate (iss_title iss) 100) em2 ;;
    ret (Some em3)
  else if String.eqb (type e) "IssueCommentEvent" then
    iss <- prop (p_issue p) "number" ;;
    em1 <- setTitle ("Commented on #" ++ JS.show_int (iss_number iss)) em ;;
    cm <- prop (p_comment p) "html_url" ;;
    em2 <- setURL (cm_html_url cm) em1 ;;
    em3 <- setDescription (truncate (cm_body cm) 150) em2 ;;
    ret (Some em3)
  else if String.eqb (type e) "PullRequestEvent" then
    pr <- prop (p_pull_request p) "merged" ;;
    let merged := if pr_merged pr then " (merged)" else "" in
    action <- prop (p_action p) "charAt" ;;
    em1 <- setTitle (capitalize action ++ " PR #"
                       ++ JS.show_int (pr_number pr) ++ merged) em ;;
    em2 <- setURL (pr_html_url pr) em1 ;;
    em3 <- setDescription (truncate (pr_title pr) 100) em2 ;;
    ret (Some em3)
  else ret None.

(** [await channel.send({ embeds: [embed] })] *)
Definition channel_send (m : embed) : M unit :=
  fun w s =>
    match send_result w (posts s) with
    | None => (Ret tt, count_post s, [ASend m])
    | Some err => (Throw err, count_post s, [ASendFailed m err])
    end.

(** The embed that [postEvent] starts with: the four setters called on a
    new builder, before the [try]. *)
Definition new_embed (e : event) : M embed :=
  em1 <- setColor (color_of (type e)) new_EmbedBuilder ;;
  em2 <- setAuthor {| au_name := actor_login e;
                      au_iconURL := actor_avatar_url e;
                      au_url := "https://github.com/" ++ actor_login e |}
           em1 ;;
  em3 <- setTimestamp (JS.new_Date (created_at e)) em2 ;;
  setFooter (repo_name e) em3.

(** [async function postEvent(channel, event)]: what the builder throws
    before the [try] rejects the call; what is thrown inside is logged. *)
Definition postEvent (e : event) : M unit :=
  let repoName := nth_error (JS.split "/" (repo_name e)) 1 in
  let repoUrl := "https://github.com/" ++ repo_name e in
  em <- new_embed e ;;
  try_catch
    (r <- render e repoName repoUrl em ;;
     match r with
     | None => ret tt
     | Some m =>
         channel_send m ;;
         log (LPosted (type e) (repo_name e))
     end)
    (fun err => log (LErrorPosting (type e) err)).

(** [event.id === lastEventId] *)
Definition is_last (last : option string) (e : event) : bool :=
  match last with
  | Some l => String.eqb (id e) l
  | None => false
  end.

(** The first loop of [pollGitHub]: walk the feed until the last seen id,
    keeping the events whose type is allowed. *)
Fixpoint collect (last : option string) (events : list event) : list event :=
  match events with
  | [] => []
  | e :: rest =>
      if is_last last e then []
      else if includes (EVENT_TYPES CONFIG) (type e)
           then e :: collect last rest
           else collect last rest
  end.

(** [for (const x of xs) { body x }] *)
Fixpoint for_of {A} (xs : list A) (body : A -> M unit) : M unit :=
  match xs with
  | [] => ret tt
  | x :: xs' => body x ;; for_of xs' body
  end.

(** [async function pollGitHub()] *)
Definition pollGitHub : M unit :=
  try_catch
    (events <- fetchEvents ;;
     match events with
     | None => ret tt
     | Some events =>
         debug (LFetched (Z.of_nat (List.length events))) ;;
         found <- asks channel ;;
         if negb found then log (LChannelNotFound (CHANNEL_ID CONFIG))
         else
           last <- gets lastEventId ;;
           let newEvents := collect last events in
           (if 0 <? Z.of_nat (List.length newEvents) then
              match last with
              | None =>
                  debug LFirstRun ;;
                  match newEvents with
                  | first :: _ => postEvent first
                  | [] => ret tt
                  end
              | Some _ =>
                  debug (LPostingNew (Z.of_nat (List.length newEvents))) ;;
                  for_of (rev newEvents)
                    (fun event => postEvent event ;; sleep 500)
              end
            else ret tt) ;;
           match events with
           | newest :: _ =>
               modify (set_lastEventId (Some (id newest))) ;;
               saveLastEventId (id newest)
           | [] => ret tt
           end
     end)
    (fun err => log (LPollError err)).

(** The [try] statement of [postEvent], named for the proofs
    ([postEvent_body] shows that [postEvent] is the four setters and
    then this). *)
Definition try_post (e : event) (em : embed) : M unit :=
  try_catch
    (r <- render e (nth_error (JS.split "/" (repo_name e)) 1)
            ("https://github.com/" ++ repo_name e) em ;;
     match r with
     | None => ret tt
     | Some m =>
         channel_send m ;;
         log (LPosted (type e) (repo_name e))
     end)
    (fun err => log (LErrorPosting (type e) err)).

(** The two halves of the body of [pollGitHub] after the channel test,
    named for the proofs ([pollGitHub_body] shows that the cycle is their
    sequence): the [if (newEvents.length > 0)] block ... *)
Definition dispatch (last : option string) (newEvents : list event) : M unit :=
  if 0 <? Z.of_nat (List.length newEvents) then
    match last with
    | None =>
        debug LFirstRun ;;
        match newEvents with
        | first :: _ => postEvent first
        | [] => ret tt
        end
    | Some _ =>
        debug (LPostingNew (Z.of_nat (List.length newEvents))) ;;
        for_of (rev newEvents)
          (fun event => postEvent event ;; sleep 500)
    end
  else ret tt.

(** ... and the [if (events.length > 0)] block. *)
Definition persist (events : list event) : M unit :=
  match events with
  | newest :: _ =>
      modify (set_lastEventId (Some (id newest))) ;;
      saveLastEventId (id newest)
  | [] => ret tt
  end.

(** What [debug] emits. *)
Definition debug_line (l : log_line) : list action :=
  if DEBUG CONFIG then [ADebug l] else [].

(** The request that [fetch] emits, and the line that [fetchGitHub] writes
    about the remaining quota. *)
Definition request_line (url : string) : action :=
  AFetch url (if JS.truthy (GITHUB_TOKEN CONFIG) then GITHUB_TOKEN CONFIG else None).

Definition remaining_line {A} (r : response A) : list action :=
  if JS.truthy (x_ratelimit_remaining r)
  then debug_line (LRateRemaining (JS.show (x_ratelimit_remaining r)))
  else [].

(** The urls of the two endpoints. *)
Definition events_url : string :=
  "https://api.github.com/users/" ++ JS.show (GITHUB_USERNAME CONFIG)
    ++ "/events/public".

Definition compare_url (repoName before head : string) : string :=
  "https://api.github.com/repos/" ++ repoName ++ "/compare/"
    ++ before ++ "..." ++ head.

(** The test that sends a push to the compare API:
    [commits.length === 0 && payload.before && payload.head]. *)
Definition needs_backfill (e : event) : bool :=
  let p := ev_payload e in
  (Z.of_nat (List.length (match p_commits p with Some cs => cs | None => [] end)) =? 0)
  && JS.truthy (p_before p) && JS.truthy (p_head p).

(** The events of a feed that come before the id [l], newest first. *)
Fixpoint newer (l : string) (events : list event) : list event :=
  match events with
  | [] => []
  | e :: rest => if String.eqb (id e) l then [] else e :: newer l rest
  end.

(** The [clientReady] handler: three log lines, the last seen id loaded,
    and the first cycle.  The timer that starts the later cycles is not
    part of it: [cycles] runs them. *)
Definition clientReady : M unit :=
  tag <- asks client_user_tag ;;
  log (LLoggedIn tag) ;;
  log (LPolling (GITHUB_USERNAME CONFIG) (POLL_INTERVAL CONFIG)) ;;
  log (LEventTypes (EVENT_TYPES CONFIG)) ;;
  i <- loadLastEventId ;;
  modify (set_lastEventId i) ;;
  pollGitHub.

End Bot.

Local Open Scope list_scope.

(** A sequence of cycles, each in its own surroundings. *)
Fixpoint cycles (CONFIG : config) (ws : list env) (s : state) : state :=
  match ws with
  | [] => s
  | w :: ws' => cycles CONFIG ws' (final (pollGitHub CONFIG w s))
  end.

(* ================================================================== *)
(** ** Observations on a run *)

(** The actions that reach the channel or pace it: sends and sleeps. *)
Definition is_outbound (a : action) : bool :=
  match a with
  | ASend _ | ASendFailed _ _ | ASleep _ => true
  | _ => false
  end.

Definition outbound (t : list action) : list action := filter is_outbound t.

(** The calls of the setters before the [try] of [postEvent], in order. *)
Definition prelude_calls (e : event) : list call :=
  [ SetColor (color_of (type e));
    SetAuthor {| au_name := actor_login e;
                 au_iconURL := actor_avatar_url e;
                 au_url := ("https://github.com/" ++ actor_login e)%string |};
    SetTimestamp (JS.new_Date (created_at e));
    SetFooter (repo_name e) ].

(** The first error that the library throws on a list of calls, if any. *)
Fixpoint first_refusal (w : env) (cs : list call) : option error :=
  match cs with
  | [] => None
  | c :: cs' =>
      match setter_throws w c with
      | Some err => Some err
      | None => first_refusal w cs'
      end
  end.

(** What rejects [postEvent] for an event before its [try], if anything. *)
Definition refused (w : env) (e : event) : option error :=
  first_refusal w (prelude_calls e).

Definition accepted (w : env) (e : event) : bool :=
  match refused w e with
  | None => true
  | Some _ => false
  end.


(** The builder that [postEvent] enters its [try] with. *)
Definition base_embed (e : event) : embed :=
  {| color := Some (color_of (type e));
     author := Some {| au_name := actor_login e;
                       au_iconURL := actor_avatar_url e;
                       au_url := ("https://github.com/" ++ actor_login e)%string |};
     timestamp := Some (JS.new_Date (created_at e));
     footer := Some (repo_name e);
     title := None; url := None; description := None |}.

(** The second component of [repo.name.split('/')], if any. *)
Definition short_name (e : event) : option string :=
  nth_error (JS.split "/" (repo_name e)) 1.

(** [https://github.com/${repo.name}] *)
Definition repo_url (e : event) : string :=
  ("https://github.com/" ++ repo_name e)%string.

(** The events that a cycle hands to [postEvent], in order: the newest
    collected one on a cold start, all of them oldest first otherwise. *)
Definition to_post (last : option string) (newEvents : list event) : list event :=
  match last with
  | None => firstn 1 newEvents
  | Some _ => rev newEvents
  end.

(** The error that ends a batch: the refusal of the first event that is
    refused, if any. *)
Fixpoint breaker (w : env) (es : list event) : option error :=
  match es with
  | [] => None
  | e :: es' =>
      match refused w e with
      | Some err => Some err
      | None => breaker w es'
      end
  end.

(** The events of a batch up to the first that is refused. *)
Fixpoint admitted (w : env) (es : list event) : list event :=
  match es with
  | [] => []
  | e :: es' => if accepted w e then e :: admitted w es' else []
  end.

(** What the paced loop of a replay shows to the channel: for each event
    in turn, the sends of its post and a sleep of 500 ms. *)
Fixpoint paced (CONFIG : config) (es : list event) (w : env) (s : state)
  : list action :=
  match es with
  | [] => []
  | e :: es' =>
      let p := postEvent CONFIG e w s in
      outbound (acts p) ++ ASleep 500 :: paced CONFIG es' w (final p)
  end.

(** The embeds that arrived in the channel. *)
Fixpoint delivered (t : list action) : list embed :=
  match t with
  | [] => []
  | ASend m :: t' => m :: delivered t'
  | _ :: t' => delivered t'
  end.

(** The attempts to send, arrived or not. *)
Fixpoint attempted (t : list action) : list embed :=
  match t with
  | [] => []
  | ASend m :: t' => m :: attempted t'
  | ASendFailed m _ :: t' => m :: attempted t'
  | _ :: t' => attempted t'
  end.

(** The writes of the state file. *)
Fixpoint written (t : list action) : list string :=
  match t with
  | [] => []
  | AWrite _ i :: t' => i :: written t'
  | _ :: t' => written t'
  end.

(** The errors that [pollGitHub] caught and logged at its boundary. *)
Fixpoint poll_errors (t : list action) : list error :=
  match t with
  | [] => []
  | ALog (LPollError e) :: t' => e :: poll_errors t'
  | _ :: t' => poll_errors t'
  end.

(** A throttling status: 403 or 429. *)
Definition throttling (st : Z) : bool := (st =? 403) || (st =? 429).

(** The gate suppresses a call made in state [s]: the clock read of the
    call is before [rateLimitReset]. *)
Definition suppressed (w : env) (s : state) : bool :=
  JS.lt (now w (ticks s)) (rateLimitReset s).

(** A time that [Date] can print. *)
Definition printable (ms : Z) : Prop := - JS.max_time <= ms <= JS.max_time.




(** The position of an id in a feed (newest first), if it occurs. *)
Fixpoint position (i : string) (events : list event) : option nat :=
  match events with
  | [] => None
  | e :: rest =>
      if String.eqb (id e) i then Some O
      else option_map S (position i rest)
  end.

(** A computation respects a relation between the state before, the state
    after and the actions emitted. *)
Definition respects (R : state -> state -> list action -> Prop) {A} (m : M A)
  : Prop :=
  forall w s, R s (final (m w s)) (acts (m w s)).

(** The relations that compose along a computation: they hold of doing
    nothing and are closed under sequencing. *)
Class Frame (R : state -> state -> list action -> Prop) : Prop := {
  frame_refl : forall s, R s s [];
  frame_trans :
    forall s1 s2 s3 t1 t2, R s1 s2 t1 -> R s2 s3 t2 -> R s1 s3 (t1 ++ t2)
}.

(** Nothing leaves for the channel, no file is written, and the last seen
    id and the state file stay as they are. *)
Definition quiet (s s' : state) (t : list action) : Prop :=
  lastEventId s' = lastEventId s /\ state_file s' = state_file s /\
  outbound t = [] /\ written t = [] /\ poll_errors t = [].

(** The same without the condition on the channel. *)
Definition keeps_id (s s' : state) (t : list action) : Prop :=
  lastEventId s' = lastEventId s /\ state_file s' = state_file s /\
  written t = [] /\ poll_errors t = [].


(* ================================================================== *)
(** ** Sample surroundings, used to run the cycle on concrete feeds *)

Definition no_payload : payload :=
  {| p_ref := None; p_commits := None; p_before := None; p_head := None;
     p_size := None; p_ref_type := None; p_description := None;
     p_forkee := None; p_release := None; p_action := None;
     p_issue := None; p_comment := None; p_pull_request := None |}.

Definition sample_event (i type : string) (p : payload) : event :=
  {| id := i; type := type; repo_name := "octocat/hello";
     actor_login := "octocat";
     actor_avatar_url := "https://avatars.githubusercontent.com/u/583231";
     created_at := "2024-05-01T12:00:00Z"; ev_payload := p |}.

(** A star. *)
Definition star (i : string) : event := sample_event i "WatchEvent" no_payload.

(** A fork. *)
Definition fork (i : string) : event :=
  sample_event i "ForkEvent"
    {| p_ref := None; p_commits := None; p_before := None; p_head := None;
       p_size := None; p_ref_type := None; p_description := None;
       p_forkee := Some {| fk_full_name := "hubot/hello-" ++ i;
                           fk_html_url := "https://github.com/hubot/hello";
                           fk_description := None |};
       p_release := None; p_action := None;
       p_issue := None; p_comment := None; p_pull_request := None |}.

(** A push whose commits are not inline, so that they are fetched. *)
Definition bare_push (i : string) : event :=
  sample_event i "PushEvent"
    {| p_ref := Some "refs/heads/main"; p_commits := None;
       p_before := Some "1111111aaaa"; p_head := Some "2222222bbbb";
       p_size := None; p_ref_type := None; p_description := None;
       p_forkee := None; p_release := None; p_action := None;
       p_issue := None; p_comment := None; p_pull_request := None |}.

(** A push with two inline commits, the second with a long subject. *)
Definition inline_push (i : string) : event :=
  sample_event i "PushEvent"
    {| p_ref := Some "refs/heads/main";
       p_commits :=
         Some [ {| sha := "0123456789abcdef";
                   message := "Fix the gate" ++ String LF "body" |};
                {| sha := "fedcba9876543210";
                   message := "A very long subject line that goes well beyond the fifty characters allowed" |} ];
       p_before := Some "1111111aaaa"; p_head := Some "2222222bbbb";
       p_size := Some 2; p_ref_type := None; p_description := None;
       p_forkee := None; p_release := None; p_action := None;
       p_issue := None; p_comment := None; p_pull_request := None |}.

(** The configuration with only the required variables set. *)
Definition sample_getenv (k : string) : option string :=
  if String.eqb k "DISCORD_TOKEN" then Some "token"
  else if String.eqb k "CHANNEL_ID" then Some "42"
  else if String.eqb k "GITHUB_USERNAME" then Some "octocat"
  else None.

Definition sample_CONFIG : config := CONFIG_of sample_getenv.

(** The same with stars allowed explicitly. *)
Definition starry_CONFIG : config :=
  CONFIG_of (fun k =>
    if String.eqb k "EVENT_TYPES" then Some "PushEvent,WatchEvent,ForkEvent"
    else sample_getenv k).

Definition answer {A} (st : Z) (reset : option string) (body : A) : transport A :=
  Response {| status := st; x_ratelimit_remaining := None;
              x_ratelimit_reset := reset; json := Some body |}.

(** A world in which the feed request is answered with status [st] and the
    feed [evs], every comparison with status [cst] and no commits, the
    channel is in the cache or not, and sends and writes succeed. *)
Definition world (st : Z) (evs : list event) (cst : Z) (found : bool) : env :=
  {| now := fun n => 1714564800000 + Z.of_nat n;
     http_events := fun _ => answer st None evs;
     http_compare := fun _ => answer cst None {| commits := None |};
     channel := found;
     send_result := fun _ => None;
     write_result := None;
     setter_throws := fun _ => None;
     client_user_tag := "gitbot#0001" |}.

(** The state of a process that starts with the given last seen id. *)
Definition started (last : option string) : state :=
  {| lastEventId := last; rateLimitReset := JS.Num 0;
     state_file := match last with Some i => Saved i | None => Absent end;
     ticks := 0; requests := 0; posts := 0 |}.

(** A world in which both endpoints answer 429 with the given reset hint. *)
Definition throttled_world (hint : option string) : env :=
  {| now := fun n => 1714564800000 + Z.of_nat n;
     http_events := fun _ => answer 429 hint [];
     http_compare := fun _ => answer 429 hint {| commits := None |};
     channel := true;
     send_result := fun _ => None;
     write_result := None;
     setter_throws := fun _ => None;
     client_user_tag := "gitbot#0001" |}.

(** The embeds expected for the sample fork and star, written out from the
    templates of the renderer. *)
Definition octocat : author_data :=
  {| au_name := "octocat";
     au_iconURL := "https://avatars.githubusercontent.com/u/583231";
     au_url := "https://github.com/octocat" |}.

Definition fork_embed (i : string) : embed :=
  {| color := Some (Hex 0x58a6ff);
     author := Some octocat;
     timestamp := Some (JS.new_Date "2024-05-01T12:00:00Z");
     footer := Some "octocat/hello";
     title := Some ("Forked to hubot/hello-" ++ i)%string;
     url := Some "https://github.com/hubot/hello";
     description := None |}.

Definition star_embed : embed :=
  {| color := Some (Hex 0xf0b72f);
     author := Some octocat;
     timestamp := Some (JS.new_Date "2024-05-01T12:00:00Z");
     footer := Some "octocat/hello";
     title := Some "Starred octocat/hello";
     url := Some "https://github.com/octocat/hello";
     description := None |}.

(** The feed of the examples of the specification, newest first. *)
Definition feed543 : list event := [fork "5"; fork "4"; fork "3"].

(** The deletion of a branch, a kind that the default list does not name
    and the renderer has no case for. *)
Definition removal (i : string) : event :=
  sample_event i "DeleteEvent" no_payload.

(** An edit of the wiki, and a configuration that allows that kind: the
    renderer has no case for it either. *)
Definition wiki (i : string) : event := sample_event i "GollumEvent" no_payload.

Definition wiki_CONFIG : config :=
  CONFIG_of (fun k =>
    if String.eqb k "EVENT_TYPES" then Some "GollumEvent,ForkEvent"
    else sample_getenv k).

(** A fork whose [created_at] is not a date. *)
Definition undated_fork (i : string) : event :=
  {| id := i; type := "ForkEvent"; repo_name := "octocat/hello";
     actor_login := "octocat";
     actor_avatar_url := "https://avatars.githubusercontent.com/u/583231";
     created_at := "yesterday"; ev_payload := ev_payload (fork i) |}.

(** A library that throws where [setTimestamp] does on that fork: the
    date made from its [created_at] is invalid, and printing it raises a
    [RangeError]. *)
Definition dated_only (c : call) : option error :=
  match c with
  | SetTimestamp (JS.new_Date s) =>
      if String.eqb s "yesterday" then Some RangeError else None
  | _ => None
  end.

(** A world like [world] with that library. *)
Definition strict_world (evs : list event) : env :=
  {| now := fun n => 1714564800000 + Z.of_nat n;
     http_events := fun _ => answer 200 None evs;
     http_compare := fun _ => answer 200 None {| commits := None |};
     channel := true;
     send_result := fun _ => None;
     write_result := None;
     setter_throws := dated_only;
     client_user_tag := "gitbot#0001" |}.

(* ================================================================== *)
(** ** Startup, restart and further observations *)

(** [CONFIG[k]] for the keys that [CONFIG] copies from [process.env];
    [CONFIG.DISCORD_TOKEN] is [process.env.DISCORD_TOKEN] itself. *)
Definition CONFIG_key (getenv : string -> option string) (k : string)
  : option string :=
  if String.eqb k "DISCORD_TOKEN" then getenv "DISCORD_TOKEN"%string
  else if String.eqb k "CHANNEL_ID" then CHANNEL_ID (CONFIG_of getenv)
  else if String.eqb k "GITHUB_USERNAME" then GITHUB_USERNAME (CONFIG_of getenv)
  else if String.eqb k "GITHUB_TOKEN" then GITHUB_TOKEN (CONFIG_of getenv)
  else None.

(** What [validateConfig] writes to the console. *)
Inductive console_line : Type :=
| CError (msg : string)    (* console.error(msg) *)
| CWarn (msg : string).    (* console.warn(msg) *)

(** The outcome of [validateConfig]: the console lines and, when it calls
    [process.exit], the exit code. *)
Record validation : Type := mkValidation {
  console : list console_line;
  exit_code : option Z
}.

(** [const required = [...]] *)
Definition required : list string :=
  ["DISCORD_TOKEN"; "CHANNEL_ID"; "GITHUB_USERNAME"]%string.

(** [required.filter(k => !CONFIG[k])] *)
Definition missing (getenv : string -> option string) : list string :=
  filter (fun k => negb (JS.truthy (CONFIG_key getenv k))) required.

(** [function validateConfig()]; [process.exit(1)] ends the process, so
    the warning about the token is only reached when nothing is missing. *)
Definition validateConfig (getenv : string -> option string) : validation :=
  if 0 <? Z.of_nat (List.length (missing getenv)) then
    {| console := [CError ("Missing required config: "
                             ++ JS.join ", " (missing getenv))%string];
       exit_code := Some 1 |}
  else if negb (JS.truthy (GITHUB_TOKEN (CONFIG_of getenv))) then
    {| console := [CWarn "No GITHUB_TOKEN set - rate limited to 60 requests/hour"];
       exit_code := None |}
  else {| console := []; exit_code := None |}.

(** The three lines that [clientReady] logs first. *)
Definition startup_lines (CONFIG : config) (w : env) : list action :=
  [ ALog (LLoggedIn (client_user_tag w));
    ALog (LPolling (GITHUB_USERNAME CONFIG) (POLL_INTERVAL CONFIG));
    ALog (LEventTypes (EVENT_TYPES CONFIG)) ].

(** The state of a new process over what the previous one left: the
    module-level variables are initialised again ([lastEventId = null],
    [rateLimitReset = 0]); the state file stays, and the oracles go on
    from where they are. *)
Definition restart (s : state) : state :=
  {| lastEventId := None; rateLimitReset := JS.Num 0;
     state_file := state_file s; ticks := ticks s;
     requests := requests s; posts := posts s |}.

(** The property whose read fails first in the case of the event's type,
    when the payload lacks a value that is read before the first setter
    is called. *)
Definition missing_property (e : event) : option string :=
  let p := ev_payload e in
  if String.eqb (type e) "PushEvent" then
    match p_ref p with None => Some "replace"%string | Some _ => None end
  else if String.eqb (type e) "ForkEvent" then
    match p_forkee p with None => Some "full_name"%string | Some _ => None end
  else if String.eqb (type e) "ReleaseEvent" then
    match p_release p with None => Some "tag_name"%string | Some _ => None end
  else if String.eqb (type e) "IssuesEvent" then
    match p_action p, p_issue p with
    | None, _ => Some "charAt"%string
    | Some _, None => Some "number"%string
    | Some _, Some _ => None
    end
  else if String.eqb (type e) "IssueCommentEvent" then
    match p_issue p with None => Some "number"%string | Some _ => None end
  else if String.eqb (type e) "PullRequestEvent" then
    match p_pull_request p, p_action p with
    | None, _ => Some "merged"%string
    | Some _, None => Some "charAt"%string
    | Some _, Some _ => None
    end
  else None.

(** A string contains the code unit [c]. *)
Fixpoint has_char (c : ascii) (s : string) : bool :=
  match s with
  | EmptyString => false
  | String c' s' => Ascii.eqb c' c || has_char c s'
  end.

(** The string is empty or starts with an ASCII code unit, where
    [JS.upper] is [toUpperCase] exactly. *)
Definition starts_ascii (s : string) : bool :=
  match s with
  | EmptyString => true
  | String c _ => (N_of_ascii c <? 128)%N
  end.

(** The requests among the actions, with their bearer. *)
Definition fetches (t : list action) : list action :=
  filter (fun a => match a with AFetch _ _ => true | _ => false end) t.

(** The sleeps among the actions. *)
Fixpoint sleeps (t : list action) : list Z :=
  match t with
  | [] => []
  | ASleep ms :: t' => ms :: sleeps t'
  | _ :: t' => sleeps t'
  end.

(** The debug lines among the actions. *)
Definition debugs (t : list action) : list action :=
  filter (fun a => match a with ADebug _ => true | _ => false end) t.

(** The last seen id in memory is the one in the state file. *)
Definition in_sync (s : state) : Prop :=
  match lastEventId s with
  | Some i => state_file s = Saved i
  | None => True
  end.

(** The type of an event is in the allow-list. *)
Definition allowed (CONFIG : config) (e : event) : bool :=
  includes (EVENT_TYPES CONFIG) (type e).

(** A world without network: every request is rejected. *)
Definition offline_world : env :=
  {| now := fun n => 1714564800000 + Z.of_nat n;
     http_events := fun _ => Rejected _ (NetworkError "fetch failed");
     http_compare := fun _ => Rejected _ (NetworkError "fetch failed");
     channel := true;
     send_result := fun _ => None;
     write_result := None;
     setter_throws := fun _ => None;
     client_user_tag := "gitbot#0001" |}.

(** A world whose feed answer is 200 with a body that does not parse. *)
Definition garbled_world : env :=
  {| now := fun n => 1714564800000 + Z.of_nat n;
     http_events := fun _ =>
       Response {| status := 200; x_ratelimit_remaining := None;
                   x_ratelimit_reset := None; json := None |};
     http_compare := fun _ => answer 200 None {| commits := None |};
     channel := true;
     send_result := fun _ => None;
     write_result := None;
     setter_throws := fun _ => None;
     client_user_tag := "gitbot#0001" |}.

(** A world like [world] in which the channel rejects every message and
    the state file cannot be written. *)
Definition hostile_world (evs : list event) : env :=
  {| now := fun n => 1714564800000 + Z.of_nat n;
     http_events := fun _ => answer 200 None evs;
     http_compare := fun _ => answer 200 None {| commits := None |};
     channel := true;
     send_result := fun _ => Some (DiscordError "Missing Permissions");
     write_result := Some (FsError "EACCES");
     setter_throws := fun _ => None;
     client_user_tag := "gitbot#0001" |}.

(** A state whose gate is closed until the given time. *)
Definition cooling (last : option string) (until : Z) : state :=
  {| lastEventId := last; rateLimitReset := JS.Num until;
     state_file := match last with Some i => Saved i | None => Absent end;
     ticks := 0; requests := 0; posts := 0 |}.

(** A fork whose payload lacks the [forkee]. *)
Definition broken_fork (i : string) : event :=
  sample_event i "ForkEvent" no_payload.

(** The time a throttled answer sets the gate to: the reset hint, read as
    epoch seconds, in milliseconds, or the clock plus a minute when the
    hint is absent or empty. *)
Definition hinted_reset (hint : option string) (clock T : Z) : Prop :=
  match hint with
  | None => T = clock + 60000
  | Some h =>
      if String.eqb h "" then T = clock + 60000
      else exists secs, JS.parseInt_string h = JS.Num secs /\ T = secs * 1000
  end.

(** The actions of the fetcher: requests, debug lines and the line about
    the closed gate. *)
Definition is_plumbing (a : action) : bool :=
  match a with
  | AFetch _ _ | ADebug _ | ALog (LRateLimitedUntil _) => true
  | _ => false
  end.

(** Only actions of the fetcher are emitted. *)
Definition plumbing (s s' : state) (t : list action) : Prop :=
  forallb is_plumbing t = true.

(** Every value that a computation returns satisfies [Q]. *)
Definition yields {A} (Q : A -> Prop) (m : M A) : Prop :=
  forall w s, match result (m w s) with
              | Ret a => Q a
              | Throw _ => True
              end.

(** What [postEvent] sets on every embed it sends for an event: the
    colour of the type, the actor as author, the time, the repository as
    footer, and a title and a link. *)
Definition dressed (e : event) (m : embed) : Prop :=
  color m = Some (color_of (type e)) /\
  author m = Some {| au_name := actor_login e;
                     au_iconURL := actor_avatar_url e;
                     au_url := ("https://github.com/" ++ actor_login e)%string |} /\
  timestamp m = Some (JS.new_Date (created_at e)) /\
  footer m = Some (repo_name e) /\
  (exists t, title m = Some t) /\
  (exists u, url m = Some u).

(** No debug line is emitted. *)
Definition hushed (s s' : state) (t : list action) : Prop := debugs t = [].

(* ================================================================== *)
(** ** Reasoning about computations *)

Unset Implicit Arguments.

Lemma outbound_app t1 t2 : outbound (t1 ++ t2) = (outbound t1 ++ outbound t2)%list.
Proof. apply filter_app. Qed.

Lemma delivered_app t1 t2 :
  delivered (t1 ++ t2) = (delivered t1 ++ delivered t2)%list.
Proof.
  induction t1 as [|a t1 IH]; [reflexivity|].
  destruct a; simpl; rewrite IH; reflexivity.
Qed.

Lemma poll_errors_app t1 t2 :
  poll_errors (t1 ++ t2) = (poll_errors t1 ++ poll_errors t2)%list.
Proof.
  induction t1 as [|a t1 IH]; [reflexivity|].
  destruct a as [| | | |l|l|]; simpl; try exact IH.
  destruct l; simpl; rewrite ?IH; reflexivity.
Qed.

Lemma written_app t1 t2 : written (t1 ++ t2) = (written t1 ++ written t2)%list.
Proof.
  induction t1 as [|a t1 IH]; [reflexivity|].
  destruct a; simpl; rewrite IH; reflexivity.
Qed.

Lemma attempted_outbound t : attempted (outbound t) = attempted t.
Proof.
  induction t as [|a t IH]; [reflexivity|].
  destruct a; simpl; rewrite ?IH; reflexivity.
Qed.

Lemma delivered_outbound t : delivered (outbound t) = delivered t.
Proof.
  induction t as [|a t IH]; [reflexivity|].
  destruct a; simpl; rewrite ?IH; reflexivity.
Qed.

Lemma attempted_app t1 t2 :
  attempted (t1 ++ t2) = attempted t1 ++ attempted t2.
Proof.
  induction t1 as [|a t1 IH]; [reflexivity|].
  destruct a; simpl; rewrite IH; reflexivity.
Qed.

Lemma sleeps_app t1 t2 : sleeps (t1 ++ t2) = sleeps t1 ++ sleeps t2.
Proof.
  induction t1 as [|a t1 IH]; [reflexivity|].
  destruct a; simpl; rewrite IH; reflexivity.
Qed.

Lemma sleeps_outbound t : sleeps (outbound t) = sleeps t.
Proof.
  induction t as [|a t IH]; [reflexivity|].
  destruct a; simpl; rewrite ?IH; reflexivity.
Qed.

Lemma fetches_app t1 t2 : fetches (t1 ++ t2) = fetches t1 ++ fetches t2.
Proof. apply filter_app. Qed.

Lemma silent_outbound t :
  outbound t = [] -> attempted t = [] /\ sleeps t = [] /\ delivered t = [].
Proof.
  intros H. rewrite <- attempted_outbound, <- sleeps_outbound,
    <- delivered_outbound, H. repeat split.
Qed.

Lemma run_eta {A} (r : outcome A * state * list action) :
  r = (result r, final r, acts r).
Proof. destruct r as [[o s] t]. reflexivity. Qed.



(** A frame: a relation between the state before, the state after and the
    actions emitted that holds of doing nothing and composes. *)
Section Frames.

Context (R : state -> state -> list action -> Prop) `{FR : !Frame R}.

Lemma respects_ret {A} (a : A) : respects R (ret a).
Proof. intros w s. apply frame_refl. Qed.

Lemma respects_throw {A} e : respects R (@throw A e).
Proof. intros w s. apply frame_refl. Qed.

Lemma respects_asks {A} (f : env -> A) : respects R (asks f).
Proof. intros w s. apply frame_refl. Qed.

Lemma respects_gets {A} (f : state -> A) : respects R (gets f).
Proof. intros w s. apply frame_refl. Qed.

Lemma respects_bind {A B} (m : M A) (f : A -> M B) :
  respects R m -> (forall a, respects R (f a)) -> respects R (bind m f).
Proof.
  intros Hm Hf w s. specialize (Hm w s).
  unfold bind. destruct (m w s) as [[[a|e] s1] t1]; cbn in *.
  - specialize (Hf a w s1). destruct (f a w s1) as [[o s2] t2]; cbn in *.
    eapply frame_trans; eassumption.
  - exact Hm.
Qed.

Lemma respects_try_catch {A} (m : M A) h :
  respects R m -> (forall e, respects R (h e)) -> respects R (try_catch m h).
Proof.
  intros Hm Hh w s. specialize (Hm w s).
  unfold try_catch. destruct (m w s) as [[[a|e] s1] t1]; cbn in *.
  - exact Hm.
  - specialize (Hh e w s1). destruct (h e w s1) as [[o s2] t2]; cbn in *.
    eapply frame_trans; eassumption.
Qed.

Lemma respects_prop {A} (o : option A) name : respects R (prop o name).
Proof. destruct o; [apply respects_ret | apply respects_throw]. Qed.

Lemma respects_setter c em : respects R (setter c em).
Proof.
  intros w s. unfold setter. destruct (setter_throws w c); apply frame_refl.
Qed.

Lemma respects_for_of {A} (xs : list A) body :
  (forall x, respects R (body x)) -> respects R (for_of xs body).
Proof.
  intros Hb. induction xs as [|x xs IH]; simpl.
  - apply respects_ret.
  - apply respects_bind; auto.
Qed.

End Frames.

(** A tactic that walks a computation along its binds and its tests. *)
Ltac respects_step :=
  match goal with
  | |- respects _ (bind _ _) => apply respects_bind; [exact _ | | intros]
  | |- respects _ (try_catch _ _) =>
      apply respects_try_catch; [exact _ | | intros]
  | |- respects _ (ret _) => apply respects_ret; exact _
  | |- respects _ (throw _) => apply respects_throw; exact _
  | |- respects _ (asks _) => apply respects_asks; exact _
  | |- respects _ (gets _) => apply respects_gets; exact _
  | |- respects _ (prop _ _) => apply respects_prop; exact _
  | |- respects _ (setter _ _) => apply respects_setter; exact _
  | |- respects _ (for_of _ _) => apply respects_for_of; [exact _ | intros]
  | |- respects _ (if ?b then _ else _) => destruct b
  | |- respects _ (match ?o with _ => _ end) => destruct o
  end.

(** The setters are calls of [setter]. *)
Ltac unfold_setters :=
  unfold setColor, setAuthor, setTimestamp, setFooter, setTitle, setURL,
    setDescription.

#[export] Instance quiet_frame : Frame quiet.
Proof.
  split.
  - intros s. repeat split.
  - intros s1 s2 s3 t1 t2 (A1 & B1 & C1 & D1 & E1) (A2 & B2 & C2 & D2 & E2).
    unfold quiet.
    rewrite outbound_app, written_app, poll_errors_app, C1, C2, D1, D2, E1, E2.
    repeat split; congruence.
Qed.

#[export] Instance keeps_id_frame : Frame keeps_id.
Proof.
  split.
  - intros s. repeat split.
  - intros s1 s2 s3 t1 t2 (A1 & B1 & D1 & E1) (A2 & B2 & D2 & E2).
    unfold keeps_id. rewrite written_app, poll_errors_app, D1, D2, E1, E2.
    repeat split; congruence.
Qed.

Lemma quiet_keeps_id {A} (m : M A) : respects quiet m -> respects keeps_id m.
Proof.
  intros H w s. destruct (H w s) as (? & ? & ? & ? & ?). repeat split; auto.
Qed.

Section Quiet.

Variable CONFIG : config.

Lemma quiet_log l :
  (forall e, l <> LPollError e) -> respects quiet (log l).
Proof.
  intros H w s. repeat split. destruct l; try reflexivity.
  exfalso. eapply H. reflexivity.
Qed.

Lemma quiet_log_until ms : respects quiet (log (LRateLimitedUntil ms)).
Proof. apply quiet_log. discriminate. Qed.

Lemma quiet_debug l : respects quiet (debug CONFIG l).
Proof. intros w s. unfold debug. destruct (DEBUG CONFIG); repeat split. Qed.

Lemma quiet_Date_now : respects quiet Date_now.
Proof. intros w s. repeat split. Qed.

Lemma quiet_set_rateLimitReset v : respects quiet (modify (set_rateLimitReset v)).
Proof. intros w s. repeat split. Qed.

Lemma quiet_fetch {A} (net : env -> nat -> transport A) u :
  respects quiet (fetch CONFIG net u).
Proof.
  intros w s. unfold fetch. destruct (net w (requests s)); repeat split.
Qed.

Create HintDb quiet.

Hint Resolve quiet_log_until quiet_debug quiet_Date_now quiet_set_rateLimitReset
  quiet_fetch : quiet.

Lemma quiet_fetchGitHub {A} (net : env -> nat -> transport A) u :
  respects quiet (fetchGitHub CONFIG net u).
Proof.
  unfold fetchGitHub.
  repeat first [ solve [auto with quiet] | respects_step ].
Qed.

Lemma quiet_fetchCommits r b h : respects quiet (fetchCommits CONFIG r b h).
Proof.
  unfold fetchCommits.
  repeat first [ apply quiet_fetchGitHub | respects_step ].
Qed.

Lemma quiet_render e rn ru em : respects quiet (render CONFIG e rn ru em).
Proof.
  unfold render, push_embed. unfold_setters.
  repeat first [ apply quiet_fetchCommits | respects_step ].
Qed.

(** The four setters before the [try]: the builder of [base_embed], or
    the first refusal. *)
Lemma new_embed_run e w s :
  new_embed e w s =
    (match refused w e with
     | None => Ret (base_embed e)
     | Some err => Throw err
     end, s, []).
Proof.
  unfold new_embed, refused, prelude_calls, first_refusal, bind.
  unfold_setters. unfold setter.
  repeat match goal with
         | |- context [setter_throws w ?c] => destruct (setter_throws w c)
         end; reflexivity.
Qed.



Lemma postEvent_body e :
  postEvent CONFIG e = (em <- new_embed e ;; try_post CONFIG e em).
Proof. reflexivity. Qed.

(** A refused event rejects [postEvent] and leaves no trace. *)
Lemma postEvent_refused e w s err :
  refused w e = Some err -> postEvent CONFIG e w s = (Throw err, s, []).
Proof.
  intros H. rewrite postEvent_body. unfold bind. rewrite new_embed_run, H.
  reflexivity.
Qed.

(** An accepted one runs the [try] on its builder. *)
Lemma postEvent_accepted e w s :
  refused w e = None ->
  postEvent CONFIG e w s = try_post CONFIG e (base_embed e) w s.
Proof.
  intros H. rewrite postEvent_body. unfold bind. rewrite new_embed_run, H.
  destruct (try_post CONFIG e (base_embed e) w s) as [[o s1] t1]. reflexivity.
Qed.

(** The [try] never fails, leaves the last seen id and the state file
    alone, and tries the channel at most once. *)
Lemma try_post_spec e em w s :
  let r := try_post CONFIG e em w s in
  result r = Ret tt /\
  keeps_id s (final r) (acts r) /\
  (outbound (acts r) = [] \/
   (exists m, outbound (acts r) = [ASend m]) \/
   (exists m err, outbound (acts r) = [ASendFailed m err])).
Proof.
  unfold try_post.
  set (rn := nth_error _ _). set (ru := (_ ++ _)%string).
  pose proof (quiet_render e rn ru em w s) as (Q1 & Q2 & Q3 & Q4 & Q5).
  unfold try_catch, bind.
  destruct (render CONFIG e rn ru em w s) as [[[[m|]|err] s1] t1];
    cbn [final acts result fst snd] in Q1, Q2, Q3, Q4, Q5; unfold keeps_id.
  - unfold channel_send, log, emit.
    destruct (send_result w (posts s1)) as [err|];
      cbn [final acts result fst snd count_post lastEventId state_file];
      rewrite ?outbound_app, ?written_app, ?poll_errors_app, ?Q3, ?Q4, ?Q5,
        ?app_nil_r;
      repeat split; auto; cbn; eauto.
  - cbn [final acts result fst snd ret].
    rewrite ?app_nil_r, Q3, Q4, Q5. repeat split; auto.
  - cbn [final acts result fst snd log emit].
    rewrite ?outbound_app, ?written_app, ?poll_errors_app, ?Q3, ?Q4, ?Q5.
    repeat split; auto.
Qed.

(** Posting one event fails towards the cycle exactly when the event is
    refused; it leaves the last seen id and the state file alone, and
    tries the channel at most once. *)
Lemma postEvent_spec e w s :
  let r := postEvent CONFIG e w s in
  result r = match refused w e with
             | None => Ret tt
             | Some err => Throw err
             end /\
  keeps_id s (final r) (acts r) /\
  (outbound (acts r) = [] \/
   (exists m, outbound (acts r) = [ASend m]) \/
   (exists m err, outbound (acts r) = [ASendFailed m err])).
Proof.
  destruct (refused w e) as [err|] eqn:H.
  - rewrite (postEvent_refused e w s err H). repeat split. left. reflexivity.
  - rewrite (postEvent_accepted e w s H). apply try_post_spec.
Qed.

Lemma postEvent_returns e w s :
  refused w e = None -> result (postEvent CONFIG e w s) = Ret tt.
Proof. intros H. pose proof (postEvent_spec e w s) as [R _]. rewrite H in R. exact R. Qed.

Lemma keeps_id_postEvent e : respects keeps_id (postEvent CONFIG e).
Proof. intros w s. apply postEvent_spec. Qed.

Lemma postEvent_run e w s :
  refused w e = None ->
  postEvent CONFIG e w s =
    (Ret tt, final (postEvent CONFIG e w s), acts (postEvent CONFIG e w s)).
Proof.
  intros H. rewrite (run_eta (postEvent CONFIG e w s)) at 1.
  rewrite (postEvent_returns e w s H). reflexivity.
Qed.

Lemma debug_run l w s : debug CONFIG l w s = (Ret tt, s, debug_line CONFIG l).
Proof. unfold debug, debug_line. destruct (DEBUG CONFIG); reflexivity. Qed.

Lemma outbound_debug_line l : outbound (debug_line CONFIG l) = [].
Proof. unfold debug_line. destruct (DEBUG CONFIG); reflexivity. Qed.

Lemma written_debug_line l : written (debug_line CONFIG l) = [].
Proof. unfold debug_line. destruct (DEBUG CONFIG); reflexivity. Qed.

Lemma breaker_admitted w es : breaker w es = None -> admitted w es = es.
Proof.
  induction es as [|e es IH]; simpl; [reflexivity|].
  unfold accepted. destruct (refused w e); [discriminate|].
  intros H. rewrite (IH H). reflexivity.
Qed.

Lemma breaker_forallb w es :
  breaker w es = None <-> forallb (accepted w) es = true.
Proof.
  induction es as [|e es IH]; simpl; [tauto|].
  unfold accepted at 1. destruct (refused w e); simpl; [split; discriminate|].
  exact IH.
Qed.

(** The paced loop of the replay runs up to the first refused event and
    fails there. *)
Lemma replay_run es w s :
  for_of es (fun event => postEvent CONFIG event ;; sleep 500) w s =
    (match breaker w es with None => Ret tt | Some err => Throw err end,
     final (for_of (admitted w es)
              (fun event => postEvent CONFIG event ;; sleep 500) w s),
     acts (for_of (admitted w es)
             (fun event => postEvent CONFIG event ;; sleep 500) w s)).
Proof.
  set (body := fun event => postEvent CONFIG event ;; sleep 500).
  revert s. induction es as [|e es IH]; intros s; [reflexivity|].
  simpl. unfold accepted. destruct (refused w e) as [err|] eqn:H.
  - assert (B : body e w s = (Throw err, s, [])).
    { unfold body, bind. rewrite (postEvent_refused e w s err H). reflexivity. }
    unfold bind. rewrite B. reflexivity.
  - assert (B : body e w s =
                  (Ret tt, final (postEvent CONFIG e w s),
                   acts (postEvent CONFIG e w s) ++ [ASleep 500])).
    { unfold body, bind. rewrite (postEvent_run e w s H). reflexivity. }
    simpl. unfold bind. rewrite B, IH.
    destruct (for_of (admitted w es) body w _) as [[o s2] t2]. reflexivity.
Qed.

Lemma keeps_id_sleep ms : respects keeps_id (sleep ms).
Proof. intros w s. repeat split. Qed.

Lemma keeps_id_dispatch last es : respects keeps_id (dispatch CONFIG last es).
Proof.
  unfold dispatch.
  repeat first [ apply keeps_id_postEvent | apply keeps_id_sleep
               | apply quiet_keeps_id, quiet_debug | respects_step ].
Qed.

Lemma no_events (es : list event) :
  (0 <? Z.of_nat (List.length es)) = false -> es = [].
Proof.
  destruct es; [reflexivity|]. intros H. apply Z.ltb_ge in H.
  simpl List.length in H. lia.
Qed.

(** Dispatching fails towards the cycle exactly when one of the events it
    posts is refused. *)
Lemma dispatch_result last es w s :
  result (dispatch CONFIG last es w s) =
    match breaker w (to_post last es) with
    | None => Ret tt
    | Some err => Throw err
    end.
Proof.
  unfold dispatch. destruct (0 <? _) eqn:N.
  - destruct last as [l|]; unfold bind at 1; rewrite debug_run.
    + cbn [to_post]. rewrite replay_run.
      destruct (breaker w (rev es)); reflexivity.
    + destruct es as [|e es]; [discriminate N|].
      cbn [to_post firstn breaker].
      pose proof (postEvent_spec e w s) as [R _].
      destruct (postEvent CONFIG e w s) as [[o s2] t2].
      cbn [result fst] in *. rewrite R. destruct (refused w e); reflexivity.
  - rewrite (no_events es N). destruct last; reflexivity.
Qed.

Lemma dispatch_returns last es w s :
  breaker w (to_post last es) = None ->
  result (dispatch CONFIG last es w s) = Ret tt.
Proof. intros H. rewrite dispatch_result, H. reflexivity. Qed.

(** Persisting never fails either. *)
Lemma persist_returns evs w s : result (persist CONFIG evs w s) = Ret tt.
Proof.
  destruct evs as [|e0 evs]; [reflexivity|].
  unfold persist, saveLastEventId, bind, modify, asks, emit, log; cbn.
  destruct (write_result w); reflexivity.
Qed.

Lemma persist_run evs w s :
  persist CONFIG evs w s =
    (Ret tt, final (persist CONFIG evs w s), acts (persist CONFIG evs w s)).
Proof.
  rewrite (run_eta (persist CONFIG evs w s)) at 1.
  rewrite persist_returns. reflexivity.
Qed.

(** The cycle is: fetch, test the channel, dispatch, persist. *)
Lemma pollGitHub_body :
  pollGitHub CONFIG =
    try_catch
      (events <- fetchEvents CONFIG ;;
       match events with
       | None => ret tt
       | Some events =>
           debug CONFIG (LFetched (Z.of_nat (List.length events))) ;;
           found <- asks channel ;;
           if negb found then log (LChannelNotFound (CHANNEL_ID CONFIG))
           else
             last <- gets lastEventId ;;
             dispatch CONFIG last (collect CONFIG last events) ;;
             persist CONFIG events
       end)
      (fun err => log (LPollError err)).
Proof. reflexivity. Qed.

(** The cycle when the fetch is suppressed or throttled. *)
Lemma poll_null w s s1 t1 :
  fetchEvents CONFIG w s = (Ret None, s1, t1) ->
  pollGitHub CONFIG w s = (Ret tt, s1, t1).
Proof.
  intros F. rewrite pollGitHub_body. unfold try_catch, bind. rewrite F.
  cbn. rewrite app_nil_r. reflexivity.
Qed.

(** The cycle when the fetch throws. *)
Lemma poll_throw w s e s1 t1 :
  fetchEvents CONFIG w s = (Throw e, s1, t1) ->
  pollGitHub CONFIG w s = (Ret tt, s1, t1 ++ [ALog (LPollError e)]).
Proof.
  intros F. rewrite pollGitHub_body. unfold try_catch, bind. rewrite F.
  reflexivity.
Qed.

(** The cycle when the channel is not in the cache. *)
Lemma poll_no_channel w s evs s1 t1 :
  fetchEvents CONFIG w s = (Ret (Some evs), s1, t1) ->
  channel w = false ->
  pollGitHub CONFIG w s =
    (Ret tt, s1,
      t1 ++ debug_line CONFIG (LFetched (Z.of_nat (List.length evs)))
         ++ [ALog (LChannelNotFound (CHANNEL_ID CONFIG))]).
Proof.
  intros F C. rewrite pollGitHub_body. unfold try_catch, bind. rewrite F.
  rewrite debug_run. unfold asks. rewrite C. cbn. reflexivity.
Qed.

(** The cycle when the feed arrived and the channel is there: dispatch,
    then persist, unless the dispatch fails, which is logged instead. *)
Lemma poll_found_run w s evs s1 t1 :
  fetchEvents CONFIG w s = (Ret (Some evs), s1, t1) ->
  channel w = true ->
  let d := dispatch CONFIG (lastEventId s1)
             (collect CONFIG (lastEventId s1) evs) w s1 in
  let p := persist CONFIG evs w (final d) in
  pollGitHub CONFIG w s =
    match result d with
    | Ret _ =>
        (Ret tt, final p,
          t1 ++ debug_line CONFIG (LFetched (Z.of_nat (List.length evs)))
             ++ acts d ++ acts p)
    | Throw err =>
        (Ret tt, final d,
          t1 ++ debug_line CONFIG (LFetched (Z.of_nat (List.length evs)))
             ++ acts d ++ [ALog (LPollError err)])
    end.
Proof.
  intros F C d p. rewrite pollGitHub_body. unfold try_catch, bind. rewrite F.
  rewrite debug_run. unfold asks, gets. rewrite C. cbn [negb].
  fold d. rewrite (run_eta d) at 1.
  destruct (result d) as [[]|err].
  - fold p. unfold p at 1. rewrite persist_run. fold p.
    cbn. reflexivity.
  - cbn. rewrite <- !app_assoc. reflexivity.
Qed.

(** ... when no event that the cycle posts is refused ... *)
Lemma poll_found w s evs s1 t1 :
  fetchEvents CONFIG w s = (Ret (Some evs), s1, t1) ->
  channel w = true ->
  breaker w (to_post (lastEventId s1) (collect CONFIG (lastEventId s1) evs))
    = None ->
  let d := dispatch CONFIG (lastEventId s1)
             (collect CONFIG (lastEventId s1) evs) w s1 in
  let p := persist CONFIG evs w (final d) in
  pollGitHub CONFIG w s =
    (Ret tt, final p,
      t1 ++ debug_line CONFIG (LFetched (Z.of_nat (List.length evs)))
         ++ acts d ++ acts p).
Proof.
  intros F C B d p. rewrite (poll_found_run w s evs s1 t1 F C).
  fold d. unfold d at 1. rewrite (dispatch_returns _ _ _ _ B). reflexivity.
Qed.

(** ... and when one is. *)
Lemma poll_refused w s evs s1 t1 err :
  fetchEvents CONFIG w s = (Ret (Some evs), s1, t1) ->
  channel w = true ->
  breaker w (to_post (lastEventId s1) (collect CONFIG (lastEventId s1) evs))
    = Some err ->
  let d := dispatch CONFIG (lastEventId s1)
             (collect CONFIG (lastEventId s1) evs) w s1 in
  pollGitHub CONFIG w s =
    (Ret tt, final d,
      t1 ++ debug_line CONFIG (LFetched (Z.of_nat (List.length evs)))
         ++ acts d ++ [ALog (LPollError err)]).
Proof.
  intros F C B d. rewrite (poll_found_run w s evs s1 t1 F C).
  fold d. unfold d at 1. rewrite dispatch_result, B. reflexivity.
Qed.

End Quiet.

Lemma truthy_nonempty s : s <> ""%string -> JS.truthy (Some s) = true.
Proof. intros H. simpl. destruct (String.eqb_spec s ""); [contradiction|reflexivity]. Qed.

(* ================================================================== *)
(** ** Numbers as doubles *)

(** Up to 2^53 every integer is a double ... *)
Lemma to_double_safe z : Z.abs z < 2 ^ 53 -> JS.to_double z = z.
Proof.
  intros H. unfold JS.to_double.
  destruct (Z.leb_spec (Z.log2 (Z.abs z) - 52) 0) as [_|L]; [reflexivity|].
  exfalso.
  destruct (Z.eq_dec (Z.abs z) 0) as [E|E].
  - rewrite E in L. simpl in L. lia.
  - assert (Z.log2 (Z.abs z) < 53) by (apply Z.log2_lt_pow2; lia). lia.
Qed.


Lemma printable_safe ms : printable ms -> Z.abs ms < 2 ^ 53.
Proof. unfold printable, JS.max_time. lia. Qed.

Lemma times_printable secs :
  printable (secs * 1000) -> JS.times (JS.Num secs) 1000 = JS.Num (secs * 1000).
Proof.
  intros P. unfold JS.times. rewrite (to_double_safe _ (printable_safe _ P)).
  reflexivity.
Qed.

(* ================================================================== *)
(** ** The fetcher, case by case *)

Section Fetcher.

Variable CONFIG : config.
Context {A : Type} (net : env -> nat -> transport A) (u : string).

Lemma valid_time_printable ms :
  printable ms -> JS.valid_time (JS.Num ms) = Some ms.
Proof.
  unfold printable, JS.valid_time. intros [H1 H2].
  destruct (Z.leb_spec (- JS.max_time) ms); [|lia].
  destruct (Z.leb_spec ms JS.max_time); [reflexivity|lia].
Qed.

(** The gate suppresses the call: nothing is requested. *)
Lemma fetchGitHub_suppressed w s :
  suppressed w s = true ->
  fetchGitHub CONFIG net u w s =
    (Ret None, tick (tick s),
      debug_line CONFIG
        (LRateWait (wait_seconds (rateLimitReset s) (now w (S (ticks s)))))).
Proof.
  unfold suppressed. intros H.
  unfold fetchGitHub, bind, Date_now, gets. cbn -[JS.lt debug]. rewrite H.
  rewrite debug_run. cbn. rewrite app_nil_r. reflexivity.
Qed.

(** The request and the quota line, common to all answered calls. *)
Lemma fetchGitHub_answered w s r :
  suppressed w s = false ->
  net w (requests s) = Response r ->
  fetchGitHub CONFIG net u w s =
    bind (fun _ s' => (Ret tt, s', request_line CONFIG u :: remaining_line CONFIG r))
      (fun _ =>
         if (status r =? 403) || (status r =? 429) then
           v <- (if JS.truthy (x_ratelimit_reset r)
                 then ret (JS.times (JS.parseInt (x_ratelimit_reset r)) 1000)
                 else t' <- Date_now ;; ret (JS.Num (t' + 60000))) ;;
           modify (set_rateLimitReset v) ;;
           match JS.valid_time v with
           | Some ms => log (LRateLimitedUntil ms) ;; ret None
           | None => throw RangeError
           end
         else if negb (ok r) then throw (GitHubAPIError (status r))
         else match json r with
              | Some body => ret (Some body)
              | None => throw SyntaxError
              end)
      w (count_request (tick s)).
Proof.
  unfold suppressed. intros H N.
  unfold fetchGitHub, bind, Date_now, gets, fetch, remaining_line, request_line.
  cbn -[JS.lt debug JS.truthy JS.valid_time JS.times JS.parseInt Z.add Z.eqb ok].
  rewrite H.
  cbn -[JS.lt debug JS.truthy JS.valid_time JS.times JS.parseInt Z.add Z.eqb ok].
  rewrite N.
  destruct (JS.truthy (x_ratelimit_remaining r)); rewrite ?debug_run;
    cbn -[JS.lt debug JS.truthy JS.valid_time JS.times JS.parseInt Z.add Z.eqb ok];
    repeat match goal with
           | |- context [if ?b then _ else _] => destruct b
           | |- context [match JS.valid_time ?v with _ => _ end] =>
               destruct (JS.valid_time v)
           | |- context [match json ?v with _ => _ end] => destruct (json v)
           | _ => progress cbn -[JS.lt debug JS.truthy JS.valid_time JS.times
                                   JS.parseInt Z.add Z.eqb ok]
           end; rewrite ?app_nil_r; reflexivity.
Qed.

(** A status that is neither throttling nor a success is thrown. *)
Lemma fetchGitHub_failure w s r :
  suppressed w s = false ->
  net w (requests s) = Response r ->
  throttling (status r) = false ->
  ok r = false ->
  fetchGitHub CONFIG net u w s =
    (Throw (GitHubAPIError (status r)), count_request (tick s),
      request_line CONFIG u :: remaining_line CONFIG r).
Proof.
  intros H N T O. rewrite (fetchGitHub_answered w s r H N).
  unfold throttling in T. unfold bind. rewrite T, O. cbn.
  rewrite app_nil_r. reflexivity.
Qed.

(** A success returns the parsed body. *)
Lemma fetchGitHub_success w s r body :
  suppressed w s = false ->
  net w (requests s) = Response r ->
  ok r = true ->
  json r = Some body ->
  fetchGitHub CONFIG net u w s =
    (Ret (Some body), count_request (tick s),
      request_line CONFIG u :: remaining_line CONFIG r).
Proof.
  intros H N O J. rewrite (fetchGitHub_answered w s r H N).
  assert (T : (status r =? 403) || (status r =? 429) = false).
  { unfold ok in O. apply andb_true_iff in O as [O1 O2].
    apply Z.leb_le in O1, O2. apply orb_false_iff.
    split; apply Z.eqb_neq; lia. }
  unfold bind. rewrite T, O, J. cbn. rewrite app_nil_r. reflexivity.
Qed.

(** Throttled with a hint: the gate is set to the hint in milliseconds. *)
Lemma fetchGitHub_throttled_hint w s r h secs :
  suppressed w s = false ->
  net w (requests s) = Response r ->
  throttling (status r) = true ->
  x_ratelimit_reset r = Some h -> h <> ""%string ->
  JS.parseInt_string h = JS.Num secs -> printable (secs * 1000) ->
  fetchGitHub CONFIG net u w s =
    (Ret None, set_rateLimitReset (JS.Num (secs * 1000)) (count_request (tick s)),
      (request_line CONFIG u :: remaining_line CONFIG r)
        ++ [ALog (LRateLimitedUntil (secs * 1000))]).
Proof.
  intros H N T X Hh P V. rewrite (fetchGitHub_answered w s r H N).
  unfold throttling in T. unfold bind at 1. rewrite T, X.
  rewrite (truthy_nonempty h Hh). cbn [JS.parseInt].
  rewrite P, (times_printable _ V).
  unfold bind, ret, modify. rewrite (valid_time_printable _ V).
  cbn. reflexivity.
Qed.

(** Throttled without a hint: the gate is set a minute ahead. *)
Lemma fetchGitHub_throttled_no_hint w s r :
  suppressed w s = false ->
  net w (requests s) = Response r ->
  throttling (status r) = true ->
  JS.truthy (x_ratelimit_reset r) = false ->
  printable (now w (S (ticks s)) + 60000) ->
  fetchGitHub CONFIG net u w s =
    (Ret None,
      set_rateLimitReset (JS.Num (now w (S (ticks s)) + 60000))
        (tick (count_request (tick s))),
      (request_line CONFIG u :: remaining_line CONFIG r)
        ++ [ALog (LRateLimitedUntil (now w (S (ticks s)) + 60000))]).
Proof.
  intros H N T X V. rewrite (fetchGitHub_answered w s r H N).
  unfold throttling in T. unfold bind at 1. rewrite T, X.
  unfold bind, ret, modify, Date_now. cbn [fst snd ticks count_request tick].
  rewrite (valid_time_printable _ V). cbn. reflexivity.
Qed.




(** A call that returned a body left the gate as it was. *)
Lemma fetchGitHub_body_gate w s body s1 t1 :
  fetchGitHub CONFIG net u w s = (Ret (Some body), s1, t1) ->
  rateLimitReset s1 = rateLimitReset s /\ suppressed w s = false.
Proof.
  intros F. destruct (suppressed w s) eqn:H.
  - rewrite (fetchGitHub_suppressed w s H) in F. discriminate.
  - split; [|reflexivity].
    destruct (net w (requests s)) as [e|r] eqn:N.
    + revert F. unfold suppressed in H.
      unfold fetchGitHub, bind, Date_now, gets, fetch. cbn. rewrite H.
      cbn. rewrite N. discriminate.
    + rewrite (fetchGitHub_answered w s r H N) in F. revert F. unfold bind.
      destruct ((status r =? 403) || (status r =? 429)).
      * destruct (JS.truthy (x_ratelimit_reset r));
          cbn -[JS.valid_time JS.times JS.parseInt Z.add];
          match goal with |- context [JS.valid_time ?v] =>
            destruct (JS.valid_time v) end; cbn; discriminate.
      * destruct (negb (ok r)); cbn; [discriminate|].
        destruct (json r); cbn; [|discriminate].
        intros F. injection F as _ <- _. reflexivity.
Qed.

End Fetcher.

(* ================================================================== *)
(** ** Truncation *)

Lemma length_take n s : String.length (JS.take n s) = Nat.min n (String.length s).
Proof.
  revert s. induction n as [|n IH]; intros [|c s]; simpl; auto.
Qed.

Lemma take_all n s : (String.length s <= n)%nat -> JS.take n s = s.
Proof.
  revert s. induction n as [|n IH]; intros [|c s] H; simpl in *; auto.
  - lia.
  - f_equal. apply IH. lia.
Qed.

Lemma take_append n a b :
  String.length a = n -> JS.take n (a ++ b)%string = a.
Proof.
  revert a. induction n as [|n IH]; intros [|c a] H; simpl in *;
    try discriminate; auto.
  f_equal. apply IH. lia.
Qed.

Lemma drop_append n a b :
  String.length a = n -> JS.drop n (a ++ b)%string = b.
Proof.
  revert a. induction n as [|n IH]; intros [|c a] H; simpl in *;
    try discriminate; auto.
Qed.

Lemma length_append a b :
  String.length (a ++ b)%string = (String.length a + String.length b)%nat.
Proof. induction a as [|c a IH]; simpl; auto. Qed.

(** [s.substring(0, b)] is the first [b] code units, for any [b]. *)
Lemma substring_from_0 s b : JS.substring s 0 b = JS.take (Z.to_nat b) s.
Proof.
  unfold JS.substring, JS.length.
  destruct (Z.le_gt_cases b (Z.of_nat (String.length s))) as [Hle|Hgt].
  - destruct (Z.le_gt_cases b 0) as [Hn|Hp].
    + replace (Z.to_nat b) with O by lia.
      replace (Z.to_nat _) with O by lia. reflexivity.
    + replace (Z.to_nat (_ - _)) with (Z.to_nat b) by lia.
      replace (Z.to_nat (Z.min _ _)) with O by lia. reflexivity.
  - replace (Z.to_nat (_ - _)) with (String.length s) by lia.
    replace (Z.to_nat (Z.min _ _)) with O by lia. simpl.
    rewrite !take_all by lia. reflexivity.
Qed.

Lemma truncate_long s n :
  s <> ""%string -> n < JS.length s ->
  truncate (Some s) n = (JS.take (Z.to_nat (n - 3)) s ++ "...")%string.
Proof.
  intros Hs Hn. unfold truncate. rewrite (truthy_nonempty s Hs). simpl.
  destruct (Z.leb_spec (JS.length s) n); [lia|].
  rewrite substring_from_0. reflexivity.
Qed.

(** C9: truncate(s, n) is empty for an absent or empty s, s itself when
    |s| <= n, and otherwise the first n-3 characters of s followed by the
    marker "..."; a string of 60 characters truncated to 50 has 50
    characters, keeps its first 47 and ends in the marker. *)
Theorem truncate_spec (s : string) (n : Z) :
  truncate None n = ""%string /\
  truncate (Some ""%string) n = ""%string /\
  (JS.length s <= n -> truncate (Some s) n = s) /\
  (s <> ""%string -> n < JS.length s ->
   truncate (Some s) n = (JS.take (Z.to_nat (n - 3)) s ++ "...")%string) /\
  (JS.length s = 60 ->
   JS.length (truncate (Some s) 50) = 50 /\
   JS.take 47 (truncate (Some s) 50) = JS.take 47 s /\
   JS.drop 47 (truncate (Some s) 50) = "..."%string).
Proof.
  split; [reflexivity|]. split; [reflexivity|]. split; [|split].
  - intros H. unfold truncate.
    destruct (JS.truthy (Some s)) eqn:T; simpl.
    + destruct (Z.leb_spec (JS.length s) n); [reflexivity|lia].
    + simpl in T. destruct (String.eqb_spec s ""); [subst; reflexivity|discriminate].
  - apply truncate_long.
  - intros H60.
    assert (Hs : s <> ""%string) by (intros ->; discriminate H60).
    rewrite (truncate_long s 50 Hs) by lia.
    replace (Z.to_nat (50 - 3)) with 47%nat by reflexivity.
    assert (L : String.length (JS.take 47 s) = 47%nat).
    { rewrite length_take. unfold JS.length in H60. lia. }
    split; [|split].
    + unfold JS.length. rewrite length_append, L. reflexivity.
    + apply take_append, L.
    + apply drop_append, L.
Qed.

(** C9 at a string of 60 characters and at a short one. *)
Lemma truncate_spec_witness :
  truncate (Some "abc"%string) 50 = "abc"%string /\
  truncate (Some "123456789012345678901234567890123456789012345678901234567890"%string) 50
    = "12345678901234567890123456789012345678901234567..."%string /\
  JS.length (truncate (Some "123456789012345678901234567890123456789012345678901234567890"%string) 50) = 50.
Proof.
  pose proof (truncate_spec "abc" 50) as (_ & _ & Hshort & _).
  pose proof (truncate_spec
    "123456789012345678901234567890123456789012345678901234567890" 50)
    as (_ & _ & _ & Hlong & H60).
  split; [apply Hshort; vm_compute; discriminate|].
  split.
  - rewrite Hlong; [reflexivity | discriminate | reflexivity].
  - apply H60. reflexivity.
Defined.

(* ================================================================== *)
(** ** The polling cycle *)

Section Cycle.

Variable CONFIG : config.

(** Whatever the activity fetch does, it sends nothing, writes nothing and
    leaves the last seen id and the state file alone. *)
Lemma fetchEvents_frame w s o s1 t1 :
  fetchEvents CONFIG w s = (o, s1, t1) ->
  lastEventId s1 = lastEventId s /\ state_file s1 = state_file s /\
  outbound t1 = [] /\ written t1 = [] /\ poll_errors t1 = [].
Proof.
  intros F. pose proof (quiet_fetchGitHub CONFIG http_events (events_url CONFIG) w s) as Q.
  unfold fetchEvents in F. unfold events_url in Q. rewrite F in Q. exact Q.
Qed.

(** On a first run the walk keeps every event of an allowed type. *)
Lemma collect_cold evs :
  collect CONFIG None evs =
    filter (fun e => includes (EVENT_TYPES CONFIG) (type e)) evs.
Proof.
  induction evs as [|e evs IH]; simpl; [reflexivity|].
  rewrite IH. reflexivity.
Qed.

(** The walk stops at once when the newest event is the last seen one. *)
Lemma collect_seen l e evs :
  id e = l -> collect CONFIG (Some l) (e :: evs) = [].
Proof. intros <-. simpl. rewrite String.eqb_refl. reflexivity. Qed.

(** The walk only keeps events that come before the last seen id. *)
Lemma collect_newer l evs e :
  In e (collect CONFIG (Some l) evs) ->
  exists j, nth_error evs j = Some e /\
            forall k, position l evs = Some k -> (j < k)%nat.
Proof.
  induction evs as [|e0 evs IH]; simpl; [intros []|].
  destruct (String.eqb (id e0) l) eqn:E; [intros []|].
  intros H.
  assert (H' : e = e0 \/ In e (collect CONFIG (Some l) evs)).
  { destruct (includes _ _); [destruct H; auto|auto]. }
  destruct H' as [->|H'].
  - exists O. split; [reflexivity|].
    intros k. destruct (position l evs); simpl; intros [= <-]. lia.
  - destruct (IH H') as (j & Hj & Hk). exists (S j). split; [exact Hj|].
    intros k. destruct (position l evs) as [k'|]; simpl; intros [= <-].
    specialize (Hk k' eq_refl). lia.
Qed.

Lemma persist_outbound evs w s : outbound (acts (persist CONFIG evs w s)) = [].
Proof.
  destruct evs as [|e0 evs]; [reflexivity|].
  unfold persist, saveLastEventId, bind, modify, asks, emit, log; cbn.
  destruct (write_result w); reflexivity.
Qed.

(** Persisting a feed: the newest id is assigned, and written when the
    file system lets it. *)
Lemma persist_spec newest older w s :
  let r := persist CONFIG (newest :: older) w s in
  lastEventId (final r) = Some (id newest) /\
  rateLimitReset (final r) = rateLimitReset s /\
  match write_result w with
  | None =>
      state_file (final r) = Saved (id newest) /\
      acts r = [AWrite (STATE_FILE CONFIG) (id newest)]
  | Some e =>
      state_file (final r) = state_file s /\
      acts r = [ALog (LFailedSave e)]
  end.
Proof.
  unfold persist, saveLastEventId, bind, modify, asks, emit, log; cbn.
  destruct (write_result w); cbn; repeat split.
Qed.

(** In a replay the walk keeps the allowed events that are newer than the
    last seen id. *)
Lemma collect_replay l evs :
  collect CONFIG (Some l) evs =
    filter (fun e => includes (EVENT_TYPES CONFIG) (type e)) (newer l evs).
Proof.
  induction evs as [|e evs IH]; simpl; [reflexivity|].
  destruct (String.eqb (id e) l); [reflexivity|].
  simpl. rewrite IH. reflexivity.
Qed.

Lemma breaker_of_admitted w es : breaker w (admitted w es) = None.
Proof.
  induction es as [|e es IH]; simpl; [reflexivity|].
  unfold accepted. destruct (refused w e) eqn:H; simpl; [reflexivity|].
  rewrite H. exact IH.
Qed.

Lemma poll_errors_debug_line l : poll_errors (debug_line CONFIG l) = [].
Proof. unfold debug_line. destruct (DEBUG CONFIG); reflexivity. Qed.

(** One turn of the paced loop on an accepted event. *)
Lemma paced_step e w s :
  refused w e = None ->
  (postEvent CONFIG e ;; sleep 500) w s =
    (Ret tt, final (postEvent CONFIG e w s),
      acts (postEvent CONFIG e w s) ++ [ASleep 500]).
Proof.
  intros H. unfold bind. rewrite (postEvent_run CONFIG e w s H). reflexivity.
Qed.

(** The paced loop shows the channel the posts in the order of the list,
    each followed by its sleep. *)
Lemma for_of_paced es w s :
  breaker w es = None ->
  outbound (acts (for_of es (fun event => postEvent CONFIG event ;; sleep 500) w s))
    = paced CONFIG es w s.
Proof.
  revert s. induction es as [|e es IH]; intros s B; [reflexivity|].
  simpl in B. destruct (refused w e) eqn:H; [discriminate|].
  pose proof (paced_step e w s H) as P.
  simpl. unfold bind at 1. rewrite P.
  specialize (IH (final (postEvent CONFIG e w s)) B).
  destruct (for_of es _ w _) as [[o s2] t2]. cbn [acts snd] in *.
  rewrite !outbound_app, IH. cbn [outbound filter is_outbound app].
  rewrite <- app_assoc. reflexivity.
Qed.

(** What a dispatch shows to the channel: in a replay, the paced posts of
    the events up to the first refused one; on a cold start, the post of
    the newest collected event. *)
Lemma dispatch_outbound last es w s :
  outbound (acts (dispatch CONFIG last es w s)) =
    match last with
    | Some _ => paced CONFIG (admitted w (rev es)) w s
    | None =>
        match es with
        | first :: _ => outbound (acts (postEvent CONFIG first w s))
        | [] => []
        end
    end.
Proof.
  unfold dispatch. destruct (0 <? _) eqn:N.
  - destruct last as [l|]; unfold bind at 1; rewrite debug_run.
    + rewrite replay_run. cbn [acts snd].
      rewrite outbound_app, outbound_debug_line.
      apply for_of_paced, breaker_of_admitted.
    + destruct es as [|e es]; [discriminate N|].
      destruct (postEvent CONFIG e w s) as [[o s2] t2]. cbn [acts snd].
      rewrite outbound_app, outbound_debug_line. reflexivity.
  - rewrite (no_events es N). destruct last; reflexivity.
Qed.

(** What a cycle that found the feed and the channel shows to the channel
    is what its dispatch shows. *)
Lemma found_outbound w s evs s1 t1 :
  fetchEvents CONFIG w s = (Ret (Some evs), s1, t1) ->
  channel w = true ->
  outbound (acts (pollGitHub CONFIG w s)) =
    outbound (acts (dispatch CONFIG (lastEventId s1)
                      (collect CONFIG (lastEventId s1) evs) w s1)).
Proof.
  intros F C.
  destruct (fetchEvents_frame w s _ s1 t1 F) as (_ & _ & O1 & _).
  rewrite (poll_found_run CONFIG w s evs s1 t1 F C).
  match goal with
  | |- context [match result ?d with _ => _ end] => destruct (result d)
  end; cbn [acts snd];
    rewrite !outbound_app, O1, outbound_debug_line, ?persist_outbound;
    cbn [app outbound filter is_outbound]; apply app_nil_r.
Qed.

(** Every replay cycle shows the channel the allowed events newer than the
    last seen id, oldest first, up to the first refused one, each followed
    by a sleep of 500 ms. *)
Lemma replay_outbound w s s1 t1 evs l :
  fetchEvents CONFIG w s = (Ret (Some evs), s1, t1) ->
  channel w = true ->
  lastEventId s = Some l ->
  outbound (acts (pollGitHub CONFIG w s)) =
    paced CONFIG
      (admitted w
         (rev (filter (fun e => includes (EVENT_TYPES CONFIG) (type e))
                 (newer l evs))))
      w s1.
Proof.
  intros F C L.
  destruct (fetchEvents_frame w s _ s1 t1 F) as (L1 & _).
  rewrite (found_outbound w s evs s1 t1 F C), dispatch_outbound, L1, L.
  rewrite collect_replay. reflexivity.
Qed.

(** The state after a cycle that found a non-empty feed and the channel:
    when no event that it posts is refused, the id of the newest fetched
    event is assigned, and written when the file system lets it; when one
    is refused, the refusal is logged at the boundary and the last seen
    id and the file stay. *)
Lemma found_cycle_state w s s1 t1 newest older :
  fetchEvents CONFIG w s = (Ret (Some (newest :: older)), s1, t1) ->
  channel w = true ->
  let r := pollGitHub CONFIG w s in
  match breaker w (to_post (lastEventId s)
                     (collect CONFIG (lastEventId s) (newest :: older))) with
  | None =>
      poll_errors (acts r) = [] /\
      lastEventId (final r) = Some (id newest) /\
      match write_result w with
      | None => state_file (final r) = Saved (id newest) /\
                written (acts r) = [id newest]
      | Some e => state_file (final r) = state_file s /\ written (acts r) = []
      end
  | Some err =>
      poll_errors (acts r) = [err] /\
      lastEventId (final r) = lastEventId s /\
      state_file (final r) = state_file s /\
      written (acts r) = []
  end.
Proof.
  intros F C r.
  destruct (fetchEvents_frame w s _ s1 t1 F) as (L1 & F1 & _ & W1 & E1).
  rewrite <- L1.
  set (d := dispatch CONFIG (lastEventId s1)
              (collect CONFIG (lastEventId s1) (newest :: older)) w s1).
  destruct (keeps_id_dispatch CONFIG (lastEventId s1)
              (collect CONFIG (lastEventId s1) (newest :: older)) w s1)
    as (DL & DF & DW & DE). fold d in DL, DF, DW, DE.
  destruct (breaker w _) as [err|] eqn:B; unfold r.
  - rewrite (poll_refused CONFIG w s _ s1 t1 err F C B). fold d.
    cbn [final acts fst snd].
    rewrite !poll_errors_app, !written_app, E1, W1, DE, DW,
      poll_errors_debug_line, written_debug_line.
    repeat split; congruence.
  - rewrite (poll_found CONFIG w s _ s1 t1 F C B). fold d.
    cbn [final acts fst snd].
    pose proof (persist_spec newest older w (final d)) as (PL & _ & PW).
    rewrite !poll_errors_app, !written_app, E1, W1, DE, DW,
      poll_errors_debug_line, written_debug_line. cbn [app].
    split; [|split; [exact PL|]].
    + destruct (write_result w); destruct PW as [_ PA]; rewrite PA; reflexivity.
    + destruct (write_result w); destruct PW as [PF PA]; rewrite PA; split; auto.
      congruence.
Qed.

(** The [try] on an event whose embed the switch finishes: one message is
    handed to the channel, and the log tells how it went. *)
Lemma try_post_sends e em w s m s2 t2 :
  render CONFIG e (short_name e) (repo_url e) em w s = (Ret (Some m), s2, t2) ->
  try_post CONFIG e em w s =
    match send_result w (posts s2) with
    | None =>
        (Ret tt, count_post s2,
          t2 ++ [ASend m; ALog (LPosted (type e) (repo_name e))])
    | Some err =>
        (Ret tt, count_post s2,
          t2 ++ [ASendFailed m err; ALog (LErrorPosting (type e) err)])
    end.
Proof.
  unfold short_name, repo_url. intros R.
  unfold try_post, try_catch, bind. rewrite R.
  unfold channel_send, log, emit.
  destruct (send_result w (posts s2)); cbn; rewrite <- ?app_assoc; reflexivity.
Qed.

(** C1, as amended: in a replay cycle (the stored id is not null) with the
    fetched feed [e5; e4; e3], newest first, the last seen id that of e3,
    the channel found, e4 and e5 of allowed types and neither refused by
    the embed library before its try block, the channel sees exactly the
    post of e4, a sleep of 500 ms, the post of e5, and a sleep of 500 ms:
    the two newer items, oldest first, paced. *)
Theorem replay_oldest_first w s s1 t1 e5 e4 e3 :
  fetchEvents CONFIG w s = (Ret (Some [e5; e4; e3]), s1, t1) ->
  channel w = true ->
  lastEventId s = Some (id e3) ->
  String.eqb (id e5) (id e3) = false ->
  String.eqb (id e4) (id e3) = false ->
  includes (EVENT_TYPES CONFIG) (type e5) = true ->
  includes (EVENT_TYPES CONFIG) (type e4) = true ->
  refused w e4 = None ->
  refused w e5 = None ->
  let p4 := postEvent CONFIG e4 w s1 in
  let p5 := postEvent CONFIG e5 w (final p4) in
  let r := pollGitHub CONFIG w s in
  outbound (acts r) =
    outbound (acts p4) ++ [ASleep 500] ++ outbound (acts p5) ++ [ASleep 500] /\
  (forall m4 m5,
     delivered (acts p4) = [m4] -> delivered (acts p5) = [m5] ->
     delivered (acts r) = [m4; m5]).
Proof.
  intros F C L N5 N4 A5 A4 R4 R5 p4 p5 r.
  assert (R : outbound (acts r) =
    outbound (acts p4) ++ [ASleep 500] ++ outbound (acts p5) ++ [ASleep 500]).
  { unfold r. rewrite (replay_outbound w s s1 t1 _ (id e3) F C L).
    cbn [newer filter]. rewrite N5, N4, String.eqb_refl. cbn [filter].
    rewrite A5, A4. cbn [rev app admitted]. unfold accepted.
    rewrite R4, R5. reflexivity. }
  split; [exact R|].
  intros m4 m5 D4 D5.
  rewrite <- delivered_outbound, R, !delivered_app, !delivered_outbound, D4, D5.
  reflexivity.
Qed.

(** C2, as amended: on a cold start (the stored id is null) with a
    non-empty fetched feed, the channel found, an event of an allowed
    type in the feed, and the embed of the newest such event finished
    (the library accepts it before the try block and the switch returns
    it), exactly that one embed is handed to the channel, and it arrives
    when the channel accepts it; nothing is paced; the id of the newest
    fetched event is assigned, and written when the file system accepts
    the write. *)
Theorem first_run_posts_newest_allowed w s s1 t1 evs newest older first more
    m s2 t2 :
  fetchEvents CONFIG w s = (Ret (Some evs), s1, t1) ->
  evs = newest :: older ->
  channel w = true ->
  lastEventId s = None ->
  filter (fun e => includes (EVENT_TYPES CONFIG) (type e)) evs = first :: more ->
  refused w first = None ->
  render CONFIG first (short_name first) (repo_url first) (base_embed first)
    w s1 = (Ret (Some m), s2, t2) ->
  let r := pollGitHub CONFIG w s in
  attempted (acts r) = [m] /\
  delivered (acts r) =
    match send_result w (posts s2) with None => [m] | Some _ => [] end /\
  sleeps (acts r) = [] /\
  lastEventId (final r) = Some (id newest) /\
  match write_result w with
  | None => state_file (final r) = Saved (id newest) /\
            written (acts r) = [id newest]
  | Some _ => state_file (final r) = state_file s /\ written (acts r) = []
  end.
Proof.
  intros F E C L Hf Rf Rn r. subst evs.
  destruct (fetchEvents_frame w s _ s1 t1 F) as (L1 & _).
  pose proof (quiet_render CONFIG first (short_name first) (repo_url first)
                (base_embed first) w s1) as (_ & _ & Q & _).
  rewrite Rn in Q. cbn [acts snd] in Q.
  assert (O : outbound (acts r) =
              match send_result w (posts s2) with
              | None => [ASend m]
              | Some err => [ASendFailed m err]
              end).
  { unfold r. rewrite (found_outbound w s _ s1 t1 F C), dispatch_outbound.
    rewrite L1, L, collect_cold, Hf.
    rewrite (postEvent_accepted CONFIG first w s1 Rf).
    rewrite (try_post_sends first _ w s1 m s2 t2 Rn).
    destruct (send_result w (posts s2)); cbn [acts snd];
      rewrite outbound_app, Q; reflexivity. }
  pose proof (found_cycle_state w s s1 t1 newest older F C) as S.
  cbv zeta in S. rewrite L, collect_cold, Hf in S.
  cbn [to_post firstn breaker] in S. rewrite Rf in S.
  destruct S as (_ & SL & SW).
  rewrite <- attempted_outbound, <- delivered_outbound, <- sleeps_outbound, O.
  repeat split; try (destruct (send_result w (posts s2)); reflexivity);
    assumption.
Qed.

(** A cycle that fetched a non-empty feed, found the channel and met no
    refusal returns and assigns the id of the newest fetched event. *)
Lemma found_cycle_last_id w s s1 t1 newest older :
  fetchEvents CONFIG w s = (Ret (Some (newest :: older)), s1, t1) ->
  channel w = true ->
  forallb (accepted w)
    (to_post (lastEventId s)
       (collect CONFIG (lastEventId s) (newest :: older))) = true ->
  lastEventId (final (pollGitHub CONFIG w s)) = Some (id newest).
Proof.
  intros F C A. apply breaker_forallb in A.
  pose proof (found_cycle_state w s s1 t1 newest older F C) as S.
  cbv zeta in S. rewrite A in S. apply S.
Qed.

(** No cycle throws: the next one starts as usual. *)
Lemma pollGitHub_returns w s : result (pollGitHub CONFIG w s) = Ret tt.
Proof.
  destruct (fetchEvents CONFIG w s) as [[[[evs|]|e] s1] t1] eqn:F.
  - destruct (channel w) eqn:C.
    + rewrite (poll_found_run CONFIG w s _ s1 t1 F C).
      match goal with
      | |- context [match result ?d with _ => _ end] => destruct (result d)
      end; reflexivity.
    + rewrite (poll_no_channel CONFIG w s _ s1 t1 F C). reflexivity.
  - rewrite (poll_null CONFIG w s s1 t1 F). reflexivity.
  - rewrite (poll_throw CONFIG w s e s1 t1 F). reflexivity.
Qed.


(** An event of an excluded type that is the newest one still advances
    the last seen id, and is not posted. *)
Corollary excluded_newest_advances w s s1 t1 newest :
  fetchEvents CONFIG w s = (Ret (Some [newest]), s1, t1) ->
  channel w = true ->
  includes (EVENT_TYPES CONFIG) (type newest) = false ->
  lastEventId (final (pollGitHub CONFIG w s)) = Some (id newest) /\
  outbound (acts (pollGitHub CONFIG w s)) = [].
Proof.
  intros F C X.
  assert (E : forall last, collect CONFIG last [newest] = []).
  { intros last. simpl. rewrite X. destruct (is_last _ _); reflexivity. }
  split.
  - apply (found_cycle_last_id w s s1 t1 newest [] F C).
    rewrite E. destruct (lastEventId s); reflexivity.
  - rewrite (found_outbound w s _ s1 t1 F C), dispatch_outbound, E.
    destruct (lastEventId s1); reflexivity.
Qed.

(** A cycle whose feed starts with the last seen id sends nothing. *)
Lemma seen_feed_silent w s s1 t1 newest older :
  fetchEvents CONFIG w s = (Ret (Some (newest :: older)), s1, t1) ->
  lastEventId s = Some (id newest) ->
  collect CONFIG (lastEventId s) (newest :: older) = [] /\
  outbound (acts (pollGitHub CONFIG w s)) = [].
Proof.
  intros F L.
  destruct (fetchEvents_frame w s _ s1 t1 F) as (L1 & _ & O1 & _).
  assert (E : collect CONFIG (lastEventId s) (newest :: older) = []).
  { rewrite L. apply collect_seen. reflexivity. }
  split; [exact E|].
  destruct (channel w) eqn:C.
  - rewrite (found_outbound w s _ s1 t1 F C), dispatch_outbound, L1, E, L.
    reflexivity.
  - rewrite (poll_no_channel CONFIG w s _ s1 t1 F C). cbn [acts snd].
    rewrite !outbound_app, O1, outbound_debug_line. reflexivity.
Qed.

(** C4: when a first cycle has advanced the last seen id to the newest id
    of the feed and a second cycle fetches the same feed, the walk of the
    second cycle collects nothing and nothing is sent or paced. *)
Theorem second_run_sends_nothing w1 w2 s s2 t2 newest older :
  let s' := final (pollGitHub CONFIG w1 s) in
  lastEventId s' = Some (id newest) ->
  fetchEvents CONFIG w2 s' = (Ret (Some (newest :: older)), s2, t2) ->
  collect CONFIG (lastEventId s') (newest :: older) = [] /\
  outbound (acts (pollGitHub CONFIG w2 s')) = [] /\
  attempted (acts (pollGitHub CONFIG w2 s')) = [].
Proof.
  intros s' L F.
  destruct (seen_feed_silent w2 s' s2 t2 newest older F L) as [E O].
  split; [exact E|]. split; [exact O|].
  rewrite <- attempted_outbound, O. reflexivity.
Qed.

(** Two cycles over the same feed with the channel found and no refusal:
    the second one sends nothing, whatever the first one started from. *)
Corollary same_feed_twice w1 w2 s s1 t1 s2 t2 newest older :
  fetchEvents CONFIG w1 s = (Ret (Some (newest :: older)), s1, t1) ->
  channel w1 = true ->
  forallb (accepted w1)
    (to_post (lastEventId s)
       (collect CONFIG (lastEventId s) (newest :: older))) = true ->
  fetchEvents CONFIG w2 (final (pollGitHub CONFIG w1 s))
    = (Ret (Some (newest :: older)), s2, t2) ->
  outbound (acts (pollGitHub CONFIG w2 (final (pollGitHub CONFIG w1 s)))) = [].
Proof.
  intros F1 C1 A1 F2.
  pose proof (found_cycle_last_id w1 s s1 t1 newest older F1 C1 A1) as L.
  apply (seen_feed_silent w2 _ s2 t2 newest older F2 L).
Qed.

(** C10: when the activity fetch returns a non-empty feed and the channel
    is not in the cache, the cycle ends with nothing sent or paced and
    with the last seen id, the state file and the rate-limit gate as they
    were; nothing is written. *)
Theorem missing_channel_leaves_state w s s1 t1 newest older :
  fetchEvents CONFIG w s = (Ret (Some (newest :: older)), s1, t1) ->
  channel w = false ->
  let r := pollGitHub CONFIG w s in
  result r = Ret tt /\
  outbound (acts r) = [] /\
  written (acts r) = [] /\
  lastEventId (final r) = lastEventId s /\
  state_file (final r) = state_file s /\
  rateLimitReset (final r) = rateLimitReset s /\
  In (ALog (LChannelNotFound (CHANNEL_ID CONFIG))) (acts r).
Proof.
  intros F C r.
  destruct (fetchEvents_frame w s _ s1 t1 F) as (L1 & F1 & O1 & W1 & _).
  destruct (fetchGitHub_body_gate CONFIG http_events _ w s _ s1 t1 F) as [G _].
  unfold r. rewrite (poll_no_channel CONFIG w s _ s1 t1 F C).
  cbn [result final acts fst snd].
  rewrite !outbound_app, !written_app, O1, W1, outbound_debug_line,
    written_debug_line.
  repeat split; auto.
  apply in_or_app. right. apply in_or_app. right. left. reflexivity.
Qed.

(** One cycle either leaves the last seen id, or it fetched a non-empty
    feed with the channel found and assigns the id of the head of it. *)
Lemma cycle_step w s :
  lastEventId (final (pollGitHub CONFIG w s)) = lastEventId s \/
  exists newest older s1 t1,
    fetchEvents CONFIG w s = (Ret (Some (newest :: older)), s1, t1) /\
    channel w = true /\
    lastEventId (final (pollGitHub CONFIG w s)) = Some (id newest).
Proof.
  destruct (fetchEvents CONFIG w s) as [[[[evs|]|e] s1] t1] eqn:F;
    destruct (fetchEvents_frame w s _ s1 t1 F) as (L1 & _).
  - destruct (channel w) eqn:C.
    + destruct evs as [|newest older].
      * left. rewrite (poll_found CONFIG w s _ s1 t1 F C).
        -- cbn. unfold dispatch. cbn. exact L1.
        -- destruct (lastEventId s1); reflexivity.
      * pose proof (found_cycle_state w s s1 t1 newest older F C) as S.
        cbv zeta in S. destruct (breaker w _).
        -- left. apply S.
        -- right. exists newest, older, s1, t1.
           split; [reflexivity|]. split; [reflexivity|]. apply S.
    + left. rewrite (poll_no_channel CONFIG w s _ s1 t1 F C). exact L1.
  - left. rewrite (poll_null CONFIG w s s1 t1 F). exact L1.
  - left. rewrite (poll_throw CONFIG w s e s1 t1 F). exact L1.
Qed.

Lemma cycles_keep_some ws : forall s,
  lastEventId s <> None -> lastEventId (cycles CONFIG ws s) <> None.
Proof.
  induction ws as [|w ws IH]; intros s H; simpl; [exact H|].
  apply IH.
  destruct (cycle_step w s) as [E|(newest & older & s1 & t1 & _ & _ & E)];
    rewrite E; [exact H|discriminate].
Qed.

(** C8, as amended: once the last seen id is not null, no sequence of
    cycles makes it null again; one cycle leaves it as it is when the
    fetch returned null or threw, the feed was empty, the channel was not
    found or the embed library refused one of the events to post, and
    otherwise assigns it the id of the newest event of the feed fetched in
    that cycle, which stands first in that feed and so, when it is another
    id than the previous one and the previous one occurs in the feed,
    strictly before it. *)
Theorem last_seen_id_follows_feed_head ws w s l :
  lastEventId s = Some l ->
  lastEventId (cycles CONFIG ws s) <> None /\
  (let r := pollGitHub CONFIG w s in
   match result (fetchEvents CONFIG w s) with
   | Ret (Some (newest :: older)) =>
       if channel w
          && forallb (accepted w) (rev (collect CONFIG (Some l) (newest :: older)))
       then lastEventId (final r) = Some (id newest) /\
            position (id newest) (newest :: older) = Some O /\
            (id newest <> l ->
             forall k, position l (newest :: older) = Some k -> (0 < k)%nat)
       else lastEventId (final r) = Some l
   | _ => lastEventId (final r) = Some l
   end).
Proof.
  intros L. split.
  - apply cycles_keep_some. rewrite L. discriminate.
  - cbv zeta.
    destruct (fetchEvents CONFIG w s) as [[[[evs|]|e] s1] t1] eqn:F;
      destruct (fetchEvents_frame w s _ s1 t1 F) as (L1 & _);
      cbn [result fst].
    + destruct evs as [|newest older].
      * destruct (cycle_step w s) as [E|(n & o & s1' & t1' & F' & _)];
          [rewrite E; exact L|].
        rewrite F in F'. discriminate F'.
      * destruct (channel w) eqn:C; cbn [andb].
        -- pose proof (found_cycle_state w s s1 t1 newest older F C) as S.
           cbv zeta in S. rewrite L in S. cbn [to_post] in S.
           destruct (forallb _ _) eqn:A.
           ++ apply breaker_forallb in A. rewrite A in S.
              split; [apply S|]. split.
              ** simpl. rewrite String.eqb_refl. reflexivity.
              ** intros N k. simpl.
                 destruct (String.eqb_spec (id newest) l); [contradiction|].
                 destruct (position l older); simpl; intros [= <-]. lia.
           ++ destruct (breaker w _) eqn:B.
              ** apply S.
              ** apply breaker_forallb in B. congruence.
        -- rewrite (poll_no_channel CONFIG w s _ s1 t1 F C). cbn [final fst snd].
           congruence.
    + rewrite (poll_null CONFIG w s s1 t1 F). cbn [final fst snd]. congruence.
    + rewrite (poll_throw CONFIG w s e s1 t1 F). cbn [final fst snd]. congruence.
Qed.

(** A failed activity fetch: the error is logged at the boundary of the
    cycle and nothing else happens. *)
Lemma activity_failure_aborts w s r :
  suppressed w s = false ->
  http_events w (requests s) = Response r ->
  throttling (status r) = false ->
  ok r = false ->
  pollGitHub CONFIG w s =
    (Ret tt, count_request (tick s),
      (request_line CONFIG (events_url CONFIG) :: remaining_line CONFIG r)
        ++ [ALog (LPollError (GitHubAPIError (status r)))]).
Proof.
  intros H N T O. apply poll_throw. unfold fetchEvents.
  apply (fetchGitHub_failure CONFIG http_events _ w s r H N T O).
Qed.

Lemma outbound_remaining_line {A} (r : response A) :
  outbound (remaining_line CONFIG r) = [].
Proof.
  unfold remaining_line. destruct (JS.truthy _); [apply outbound_debug_line|reflexivity].
Qed.

Lemma written_remaining_line {A} (r : response A) :
  written (remaining_line CONFIG r) = [].
Proof.
  unfold remaining_line. destruct (JS.truthy _); [apply written_debug_line|reflexivity].
Qed.

Lemma poll_errors_remaining_line {A} (r : response A) :
  poll_errors (remaining_line CONFIG r) = [].
Proof.
  unfold remaining_line, debug_line.
  destruct (JS.truthy _); [destruct (DEBUG CONFIG)|]; reflexivity.
Qed.

(** A failed backfill: the error stays inside [postEvent]. *)
Lemma backfill_failure_is_caught e ref w s r :
  type e = "PushEvent"%string ->
  p_ref (ev_payload e) = Some ref ->
  needs_backfill e = true ->
  refused w e = None ->
  suppressed w s = false ->
  http_compare w (requests s) = Response r ->
  throttling (status r) = false ->
  ok r = false ->
  postEvent CONFIG e w s =
    (Ret tt, count_request (tick s),
      (request_line CONFIG
         (compare_url (repo_name e) (JS.show (p_before (ev_payload e)))
            (JS.show (p_head (ev_payload e))))
         :: remaining_line CONFIG r)
        ++ [ALog (LErrorPosting "PushEvent" (GitHubAPIError (status r)))]).
Proof.
  intros Ty Rf B Acc H N T O.
  rewrite (postEvent_accepted CONFIG e w s Acc).
  unfold try_post, render. rewrite Ty, Rf. cbn [String.eqb Ascii.eqb Bool.eqb prop].
  unfold needs_backfill in B. rewrite B.
  unfold fetchCommits.
  pose proof (fetchGitHub_failure CONFIG http_compare
    (compare_url (repo_name e) (JS.show (p_before (ev_payload e)))
       (JS.show (p_head (ev_payload e)))) w s r H N T O) as F.
  unfold compare_url in F.
  unfold try_catch, bind, ret. rewrite F. reflexivity.
Qed.

(** The sleeps of a paced batch: one per event. *)
Lemma paced_sleeps es : forall w s,
  sleeps (paced CONFIG es w s) = repeat 500 (List.length es).
Proof.
  induction es as [|e es IH]; intros w s; [reflexivity|].
  simpl. rewrite sleeps_app, sleeps_outbound.
  destruct (postEvent_spec CONFIG e w s)
    as (_ & _ & [H|[(m & H)|(m & err & H)]]);
    rewrite <- sleeps_outbound, H; simpl; rewrite IH; reflexivity.
Qed.

(** C5, as amended: a status of the activity fetch that is neither
    throttling nor a success is thrown to the boundary of the cycle,
    logged there, and the cycle ends with nothing sent, nothing written
    and the last seen id as it was, without failing itself; the same
    status on the commit backfill of a push that the embed library
    accepted is caught inside the post of that push: it is logged there,
    that push is not sent, nothing reaches the boundary of the cycle, and
    the post returns; and a replay whose events the library accepts
    dispatches every event of the batch in turn, each followed by its
    pause, logs nothing at the boundary and assigns and writes the id of
    the newest fetched event, whatever the backfills are answered. *)
Theorem transport_failure_scope w s r e ref s' r' :
  (suppressed w s = false ->
   http_events w (requests s) = Response r ->
   throttling (status r) = false ->
   ok r = false ->
   let c := pollGitHub CONFIG w s in
   result c = Ret tt /\
   poll_errors (acts c) = [GitHubAPIError (status r)] /\
   outbound (acts c) = [] /\
   written (acts c) = [] /\
   lastEventId (final c) = lastEventId s /\
   state_file (final c) = state_file s /\
   rateLimitReset (final c) = rateLimitReset s) /\
  (type e = "PushEvent"%string ->
   p_ref (ev_payload e) = Some ref ->
   needs_backfill e = true ->
   refused w e = None ->
   suppressed w s' = false ->
   http_compare w (requests s') = Response r' ->
   throttling (status r') = false ->
   ok r' = false ->
   let p := postEvent CONFIG e w s' in
   result p = Ret tt /\
   poll_errors (acts p) = [] /\
   outbound (acts p) = [] /\
   In (ALog (LErrorPosting "PushEvent" (GitHubAPIError (status r')))) (acts p) /\
   lastEventId (final p) = lastEventId s') /\
  (forall newest older s1 t1 l,
     fetchEvents CONFIG w s = (Ret (Some (newest :: older)), s1, t1) ->
     channel w = true ->
     lastEventId s = Some l ->
     let es := rev (collect CONFIG (Some l) (newest :: older)) in
     forallb (accepted w) es = true ->
     let c := pollGitHub CONFIG w s in
     poll_errors (acts c) = [] /\
     outbound (acts c) = paced CONFIG es w s1 /\
     sleeps (acts c) = repeat 500 (List.length es) /\
     lastEventId (final c) = Some (id newest) /\
     match write_result w with
     | None => state_file (final c) = Saved (id newest) /\
               written (acts c) = [id newest]
     | Some _ => state_file (final c) = state_file s /\ written (acts c) = []
     end).
Proof.
  split; [|split].
  - intros H N T O c. unfold c.
    rewrite (activity_failure_aborts w s r H N T O).
    cbn [result final acts fst snd].
    rewrite outbound_app, written_app, poll_errors_app. cbn.
    rewrite outbound_remaining_line, written_remaining_line,
      poll_errors_remaining_line.
    repeat split.
  - intros Ty Rf B Acc H N T O p. unfold p.
    rewrite (backfill_failure_is_caught e ref w s' r' Ty Rf B Acc H N T O).
    cbn [result final acts fst snd].
    rewrite outbound_app, poll_errors_app. cbn.
    rewrite outbound_remaining_line, poll_errors_remaining_line.
    repeat split. right. apply in_or_app. right. left. reflexivity.
  - intros newest older s1 t1 l F C L es A c.
    pose proof (found_cycle_state w s s1 t1 newest older F C) as S.
    cbv zeta in S. rewrite L in S. cbn [to_post] in S. fold es in S.
    pose proof A as B. apply breaker_forallb in B. rewrite B in S.
    destruct S as (E & I & W).
    assert (O : outbound (acts c) = paced CONFIG es w s1).
    { unfold c. rewrite (replay_outbound w s s1 t1 _ l F C L).
      rewrite <- collect_replay. fold es.
      rewrite (breaker_admitted w es B). reflexivity. }
    split; [exact E|]. split; [exact O|]. split; [|split; [exact I|exact W]].
    rewrite <- sleeps_outbound, O. apply paced_sleeps.
Qed.


End Cycle.

(* ================================================================== *)
(** ** Runs on sample feeds *)

(** The renderer on a push with inline commits: short shas, first lines,
    the long subject cut to 50 code units. *)
Example inline_push_embed :
  acts (postEvent sample_CONFIG (inline_push "8") (world 200 [] 200 true)
          (started None)) =
    [ASend
       {| color := Some (Hex 0x238636);
          author := Some octocat;
          timestamp := Some (JS.new_Date "2024-05-01T12:00:00Z");
          footer := Some "octocat/hello"%string;
          title := Some "Pushed 2 commits to hello/main"%string;
          url := Some "https://github.com/octocat/hello/tree/main"%string;
          description :=
            Some ("[`0123456`](https://github.com/octocat/hello/commit/0123456789abcdef) Fix the gate"
                  ++ String LF
                   "[`fedcba9`](https://github.com/octocat/hello/commit/fedcba9876543210) A very long subject line that goes well beyond ...")%string |};
     ALog (LPosted "PushEvent" "octocat/hello")].
Proof. reflexivity. Qed.

(** The renderer on a push without inline commits, with the comparison
    answered without commits: the description falls back to the head. *)
Example bare_push_embed :
  map description
    (delivered (acts (postEvent sample_CONFIG (bare_push "4")
                        (world 200 [] 200 true) (started None)))) =
    [Some "[`2222222`](https://github.com/octocat/hello/commit/2222222bbbb)"%string].
Proof. reflexivity. Qed.

(** Outside the usable hints: a reset header that is not a number makes
    the reset time [NaN], and the log line of the throttled branch throws
    on printing it; the cycle logs the error at its boundary. *)
Example unreadable_hint_throws :
  let a := fetchEvents sample_CONFIG (throttled_world (Some "soon"%string))
             (started None) in
  result a = Throw RangeError /\ rateLimitReset (final a) = JS.NaN /\
  poll_errors (acts (pollGitHub sample_CONFIG
                       (throttled_world (Some "soon"%string)) (started None)))
    = [RangeError].
Proof. repeat split. Qed.

(** An event that the library refuses before the try block of its post
    ends the batch: with the forks 5, 4, 3, the id 2 seen and the fork 4
    without a date, the fork 3 is sent and paced, the refusal of the fork
    4 is logged at the boundary of the cycle, the fork 5 is not posted,
    and the last seen id stays. *)
Example refused_post_ends_the_batch :
  let w := strict_world [fork "5"; undated_fork "4"; fork "3"] in
  let r := pollGitHub sample_CONFIG w (started (Some "2"%string)) in
  outbound (acts r) = [ASend (fork_embed "3"); ASleep 500] /\
  poll_errors (acts r) = [RangeError] /\
  written (acts r) = [] /\
  lastEventId (final r) = Some "2"%string.
Proof. repeat split. Qed.

(** C1 fails as stated: with the feed 5, 4, 3 fetched and the id 3 seen, a
    cycle that does not find the channel sends nothing; with the channel
    found, an item of a kind outside the allow-list (here the deletion 4)
    is not sent, so that only 5 is; and when the library refuses the date
    of the item 4 before the try block of its post, the cycle ends there
    with the error logged at its boundary, and 5 is not sent either. *)
Lemma replay_counterexample :
  (let w := world 200 feed543 200 false in
   result (fetchEvents sample_CONFIG w (started (Some "3"%string)))
     = Ret (Some feed543) /\
   outbound (acts (pollGitHub sample_CONFIG w (started (Some "3"%string)))) = []) /\
  (let w := world 200 [fork "5"; removal "4"; fork "3"] 200 true in
   includes (EVENT_TYPES sample_CONFIG) (type (removal "4")) = false /\
   outbound (acts (pollGitHub sample_CONFIG w (started (Some "3"%string))))
     = [ASend (fork_embed "5"); ASleep 500]) /\
  (let w := strict_world [fork "5"; undated_fork "4"; fork "3"] in
   let r := pollGitHub sample_CONFIG w (started (Some "3"%string)) in
   outbound (acts r) = [] /\ poll_errors (acts r) = [RangeError]).
Proof. cbv zeta. repeat split. Qed.

(** C1, amended, on the feed of the specification: ids 5, 4, 3 with 3
    seen. *)
Lemma replay_oldest_first_witness :
  outbound (acts (pollGitHub sample_CONFIG (world 200 feed543 200 true)
                    (started (Some "3"%string)))) =
    [ASend (fork_embed "4"); ASleep 500; ASend (fork_embed "5"); ASleep 500].
Proof.
  destruct (replay_oldest_first sample_CONFIG (world 200 feed543 200 true)
              (started (Some "3"%string))
              (count_request (tick (started (Some "3"%string))))
              [request_line sample_CONFIG (events_url sample_CONFIG)]
              (fork "5") (fork "4") (fork "3"))
    as [H _]; [reflexivity ..|].
  rewrite H. reflexivity.
Defined.

(** C2 fails as stated, on cold starts with a non-empty feed: when no
    item is of an allowed kind, nothing is sent (and the id advances);
    when the channel is not found, nothing is sent and the id stays null;
    when the newest allowed item is of a kind that the renderer has no
    case for, nothing is sent either; when the file system refuses the
    write, the id is assigned but not persisted; and when the library
    refuses the date of the newest allowed item before the try block of
    its post, nothing is sent and the id stays null. *)
Lemma cold_start_counterexample :
  (let r := pollGitHub sample_CONFIG
              (world 200 [removal "5"; removal "4"] 200 true) (started None) in
   attempted (acts r) = [] /\ lastEventId (final r) = Some "5"%string) /\
  (let r := pollGitHub sample_CONFIG (world 200 feed543 200 false)
              (started None) in
   attempted (acts r) = [] /\ lastEventId (final r) = None /\
   state_file (final r) = Absent) /\
  (let r := pollGitHub wiki_CONFIG (world 200 [wiki "5"; fork "4"] 200 true)
              (started None) in
   includes (EVENT_TYPES wiki_CONFIG) (type (wiki "5")) = true /\
   attempted (acts r) = [] /\ lastEventId (final r) = Some "5"%string) /\
  (let r := pollGitHub sample_CONFIG (hostile_world feed543) (started None) in
   lastEventId (final r) = Some "5"%string /\ state_file (final r) = Absent /\
   written (acts r) = [] /\ delivered (acts r) = []) /\
  (let r := pollGitHub sample_CONFIG
              (strict_world [undated_fork "5"; fork "4"]) (started None) in
   attempted (acts r) = [] /\ lastEventId (final r) = None /\
   poll_errors (acts r) = [RangeError]).
Proof. cbv zeta. repeat split. Qed.

(** C2, amended, on a cold start with a star (excluded by default) on top
    of two forks: the newer fork is the one post, and the id of the star
    is the one stored. *)
Lemma first_run_posts_newest_allowed_witness :
  let r := pollGitHub sample_CONFIG
             (world 200 [star "5"; fork "4"; fork "3"] 200 true) (started None) in
  attempted (acts r) = [fork_embed "4"] /\
  delivered (acts r) = [fork_embed "4"] /\
  lastEventId (final r) = Some "5"%string /\
  state_file (final r) = Saved "5".
Proof.
  destruct (first_run_posts_newest_allowed sample_CONFIG
              (world 200 [star "5"; fork "4"; fork "3"] 200 true) (started None)
              (count_request (tick (started None)))
              [request_line sample_CONFIG (events_url sample_CONFIG)]
              [star "5"; fork "4"; fork "3"] (star "5") [fork "4"; fork "3"]
              (fork "4") [fork "3"] (fork_embed "4")
              (count_request (tick (started None))) [])
    as (A & D & _ & L & S & _); [reflexivity ..|].
  split; [exact A|]. split; [exact D|]. split; [exact L|exact S].
Defined.



(** C4 on two cycles over the same feed, starting cold: the first posts
    the newest fork, the second nothing. *)
Lemma second_run_sends_nothing_witness :
  let w := world 200 feed543 200 true in
  let s' := final (pollGitHub sample_CONFIG w (started None)) in
  delivered (acts (pollGitHub sample_CONFIG w (started None))) = [fork_embed "5"] /\
  outbound (acts (pollGitHub sample_CONFIG w s')) = [] /\
  attempted (acts (pollGitHub sample_CONFIG w s')) = [].
Proof.
  split; [reflexivity|].
  destruct (second_run_sends_nothing sample_CONFIG
              (world 200 feed543 200 true) (world 200 feed543 200 true)
              (started None)
              (count_request (tick
                 (final (pollGitHub sample_CONFIG (world 200 feed543 200 true)
                           (started None)))))
              [request_line sample_CONFIG (events_url sample_CONFIG)]
              (fork "5") [fork "4"; fork "3"])
    as (_ & O & A); [reflexivity ..|].
  split; [exact O|exact A].
Defined.

(** C5 fails as stated: with ids 5, 4, 3, the id 3 seen, and the push 4
    needing a backfill that is answered 500, the failure is logged by the
    post of the push; the fork 5 is still sent after it, the id 5 is
    assigned and written, and nothing is logged at the boundary. *)
Lemma backfill_failure_counterexample :
  let w := world 200 [fork "5"; bare_push "4"; fork "3"] 500 true in
  let r := pollGitHub sample_CONFIG w (started (Some "3"%string)) in
  In (ALog (LErrorPosting "PushEvent" (GitHubAPIError 500))) (acts r) /\
  outbound (acts r) = [ASleep 500; ASend (fork_embed "5"); ASleep 500] /\
  poll_errors (acts r) = [] /\
  lastEventId (final r) = Some "5"%string /\
  state_file (final r) = Saved "5".
Proof.
  cbv zeta. split; [|repeat split].
  vm_compute. do 2 right. left. reflexivity.
Qed.

(** C5, amended, at a feed request answered 500, at a backfill answered
    500, and at the batch around that backfill. *)
Lemma transport_failure_scope_witness :
  let c := pollGitHub sample_CONFIG (world 500 feed543 200 true)
             (started (Some "3"%string)) in
  let w := world 200 [fork "5"; bare_push "4"; fork "3"] 500 true in
  let p := postEvent sample_CONFIG (bare_push "4") w
             (started (Some "3"%string)) in
  let b := pollGitHub sample_CONFIG w (started (Some "3"%string)) in
  (poll_errors (acts c) = [GitHubAPIError 500] /\ outbound (acts c) = [] /\
   lastEventId (final c) = Some "3"%string) /\
  (result p = Ret tt /\ poll_errors (acts p) = [] /\ outbound (acts p) = []) /\
  (poll_errors (acts b) = [] /\ sleeps (acts b) = [500; 500] /\
   lastEventId (final b) = Some "5"%string /\ written (acts b) = ["5"%string]).
Proof.
  destruct (transport_failure_scope sample_CONFIG
              (world 500 feed543 200 true) (started (Some "3"%string))
              {| status := 500; x_ratelimit_remaining := None;
                 x_ratelimit_reset := None; json := Some feed543 |}
              (bare_push "4") "refs/heads/main"%string
              (started (Some "3"%string))
              {| status := 500; x_ratelimit_remaining := None;
                 x_ratelimit_reset := None;
                 json := Some {| commits := None |} |})
    as (HA & _ & _).
  destruct (transport_failure_scope sample_CONFIG
              (world 200 [fork "5"; bare_push "4"; fork "3"] 500 true)
              (started (Some "3"%string))
              {| status := 500; x_ratelimit_remaining := None;
                 x_ratelimit_reset := None; json := Some feed543 |}
              (bare_push "4") "refs/heads/main"%string
              (started (Some "3"%string))
              {| status := 500; x_ratelimit_remaining := None;
                 x_ratelimit_reset := None;
                 json := Some {| commits := None |} |})
    as (_ & HB & HC).
  split; [|split].
  - destruct HA as (_ & E & O & _ & L & _); [reflexivity ..|].
    split; [exact E|]. split; [exact O|exact L].
  - destruct HB as (R & E & O & _); [reflexivity ..|].
    split; [exact R|]. split; [exact E|exact O].
  - destruct (HC (fork "5") [bare_push "4"; fork "3"]
                (count_request (tick (started (Some "3"%string))))
                [request_line sample_CONFIG (events_url sample_CONFIG)]
                "3"%string)
      as (E & _ & Z & L & _ & W); [reflexivity ..|].
    split; [exact E|]. split; [exact Z|]. split; [exact L|exact W].
Defined.

(** C6 against the code: with [EVENT_TYPES] unset the allow-list has seven
    types and [WatchEvent] is not among them, although the renderer has a
    case and a colour for it; a star under the default configuration is
    therefore not posted, while the same star is posted once the list
    names [WatchEvent]. *)
Theorem default_allow_list_omits_stars :
  EVENT_TYPES sample_CONFIG =
    ["PushEvent"; "CreateEvent"; "ForkEvent"; "ReleaseEvent"; "IssuesEvent";
     "IssueCommentEvent"; "PullRequestEvent"]%string /\
  includes (EVENT_TYPES sample_CONFIG) "WatchEvent" = false /\
  lookup "WatchEvent" EVENT_COLORS = Some 0xf0b72f /\
  attempted (acts (pollGitHub sample_CONFIG
                     (world 200 [star "7"; fork "3"] 200 true)
                     (started (Some "3"%string)))) = [] /\
  attempted (acts (pollGitHub starry_CONFIG
                     (world 200 [star "7"; fork "3"] 200 true)
                     (started (Some "3"%string)))) = [star_embed].
Proof. repeat split. Qed.



(** C8 fails as stated.  With the channel not in the cache a cycle sees
    the id 5 and leaves the last seen id at 3.  And when the head of the
    feed falls back (the event 5 is gone from the source on the second
    request), the second cycle assigns 4, an older id than the 5 of the
    first cycle, and posts the events 4 and 3 again. *)
Lemma last_seen_id_counterexample :
  (let w := world 200 feed543 200 false in
   result (fetchEvents sample_CONFIG w (started (Some "3"%string)))
     = Ret (Some feed543) /\
   position "5" feed543 = Some 0%nat /\ position "3" feed543 = Some 2%nat /\
   lastEventId (final (pollGitHub sample_CONFIG w (started (Some "3"%string))))
     = Some "3"%string) /\
  (let w1 := world 200 feed543 200 true in
   let w2 := world 200 [fork "4"; fork "3"] 200 true in
   let s1 := final (pollGitHub sample_CONFIG w1 (started (Some "3"%string))) in
   lastEventId s1 = Some "5"%string /\
   lastEventId (cycles sample_CONFIG [w1; w2] (started (Some "3"%string)))
     = Some "4"%string /\
   position "5" feed543 = Some 0%nat /\ position "4" feed543 = Some 1%nat /\
   delivered (acts (pollGitHub sample_CONFIG w2 s1))
     = [fork_embed "3"; fork_embed "4"]).
Proof. cbv zeta. repeat split. Qed.

(** C8, amended, along the same two cycles: the first assigns the id 5,
    which stands before the id 3 in its feed. *)
Lemma last_seen_id_follows_feed_head_witness :
  let w1 := world 200 feed543 200 true in
  let w2 := world 200 [fork "4"; fork "3"] 200 true in
  lastEventId (cycles sample_CONFIG [w1; w2] (started (Some "3"%string))) <> None /\
  lastEventId (final (pollGitHub sample_CONFIG w1 (started (Some "3"%string))))
    = Some "5"%string /\
  position "5" feed543 = Some 0%nat /\
  ("5"%string <> "3"%string ->
   forall k, position "3" feed543 = Some k -> (0 < k)%nat).
Proof.
  exact (last_seen_id_follows_feed_head sample_CONFIG
           [world 200 feed543 200 true;
            world 200 [fork "4"; fork "3"] 200 true]
           (world 200 feed543 200 true)
           (started (Some "3"%string)) "3"%string eq_refl).
Defined.

(** C10 on the feed 5, 4, 3 with 3 seen and no channel. *)
Lemma missing_channel_leaves_state_witness :
  let r := pollGitHub sample_CONFIG (world 200 feed543 200 false)
             (started (Some "3"%string)) in
  outbound (acts r) = [] /\
  lastEventId (final r) = Some "3"%string /\
  state_file (final r) = Saved "3".
Proof.
  destruct (missing_channel_leaves_state sample_CONFIG
              (world 200 feed543 200 false) (started (Some "3"%string))
              (count_request (tick (started (Some "3"%string))))
              [request_line sample_CONFIG (events_url sample_CONFIG)]
              (fork "5") [fork "4"; fork "3"])
    as (_ & O & _ & L & S & _); [reflexivity ..|].
  split; [exact O|]. split; [exact L|exact S].
Defined.

(* ================================================================== *)
(** ** Further properties: strings and configuration *)

(** X1: the result of truncate(str, len) is never longer than len, or than
    the three code units of the marker when len is below 3, and truncating
    a second time with the same limit changes nothing. *)
Theorem truncate_bounded_idempotent (o : option string) (n : Z) :
  JS.length (truncate o n) <= Z.max n 3 /\
  truncate (Some (truncate o n)) n = truncate o n.
Proof.
  destruct o as [s|]; [|split; [cbn; lia|reflexivity]].
  destruct (String.eqb_spec s "") as [->|Hs]; [split; [cbn; lia|reflexivity]|].
  destruct (Z.le_gt_cases (JS.length s) n) as [Hle|Hgt].
  - assert (E : truncate (Some s) n = s).
    { unfold truncate. rewrite (truthy_nonempty s Hs). simpl.
      destruct (Z.leb_spec (JS.length s) n); [reflexivity|lia]. }
    rewrite E. split; [lia|exact E].
  - assert (Hn : n < JS.length s) by lia.
    rewrite (truncate_long s n Hs Hn).
    set (k := Z.to_nat (n - 3)).
    assert (L : String.length (JS.take k s ++ "...")%string
                = (Nat.min k (String.length s) + 3)%nat).
    { rewrite length_append, length_take. reflexivity. }
    unfold JS.length in *. split; [rewrite L; unfold k; lia|].
    destruct (Z.le_gt_cases 3 n) as [H3|H3].
    + unfold truncate.
      assert (Hne : (JS.take k s ++ "...")%string <> ""%string).
      { intros E. apply (f_equal String.length) in E. rewrite L in E.
        simpl in E. lia. }
      rewrite (truthy_nonempty _ Hne). simpl. unfold JS.length. rewrite L.
      destruct (Z.leb_spec (Z.of_nat (Nat.min k (String.length s) + 3)) n);
        [reflexivity|unfold k in *; lia].
    + assert (K : k = O) by (unfold k; lia). rewrite K. simpl JS.take.
      simpl append. unfold truncate. simpl JS.truthy. simpl negb.
      cbv iota. unfold JS.length. simpl String.length.
      destruct (Z.leb_spec (Z.of_nat 3) n); [lia|].
      rewrite substring_from_0.
      replace (Z.to_nat (n - 3)) with O by lia. reflexivity.
Qed.

Lemma upper_idempotent c : JS.upper (JS.upper c) = JS.upper c.
Proof.
  destruct c as [[] [] [] [] [] [] [] []]; reflexivity.
Qed.

Lemma upper_ascii c :
  (N_of_ascii c <? 128)%N = true -> (N_of_ascii (JS.upper c) <? 128)%N = true.
Proof.
  destruct c as [[] [] [] [] [] [] [] []]; intros H; try reflexivity;
    discriminate H.
Qed.

(** X2: on a string that is empty or starts with an ASCII code unit,
    capitalize keeps the length and every code unit after the first, gives
    a string of the same kind, and capitalizing twice is capitalizing
    once. *)
Theorem capitalize_touches_first_only (s : string) :
  starts_ascii s = true ->
  JS.length (capitalize s) = JS.length s /\
  JS.drop 1 (capitalize s) = JS.drop 1 s /\
  starts_ascii (capitalize s) = true /\
  capitalize (capitalize s) = capitalize s.
Proof.
  destruct s as [|c r]; intros H; [repeat split|].
  simpl in *. repeat split.
  - apply upper_ascii, H.
  - rewrite upper_idempotent. reflexivity.
Qed.

(** X2 on the actions of an issue and of a pull request. *)
Lemma capitalize_touches_first_only_witness :
  capitalize "opened" = "Opened"%string /\
  JS.drop 1 (capitalize "closed") = "losed"%string /\
  capitalize (capitalize "reopened") = capitalize "reopened".
Proof.
  destruct (capitalize_touches_first_only "closed" eq_refl) as (_ & D & _).
  destruct (capitalize_touches_first_only "reopened" eq_refl) as (_ & _ & _ & I).
  split; [reflexivity|]. split; [exact D|exact I].
Defined.

Lemma split_not_nil sep s : JS.split sep s <> [].
Proof.
  destruct s as [|c s]; simpl; [discriminate|].
  destruct (Ascii.eqb c sep); [discriminate|].
  destruct (JS.split sep s); discriminate.
Qed.

(** Joining the pieces of a split gives the string back. *)
Lemma join_split sep s :
  JS.join (String sep "") (JS.split sep s) = s.
Proof.
  unfold JS.join. induction s as [|c s IH]; [reflexivity|]. simpl JS.split.
  destruct (Ascii.eqb_spec c sep) as [->|Hc].
  - pose proof (split_not_nil sep s) as N.
    destruct (JS.split sep s) as [|w ws] eqn:E; [contradiction|].
    cbn [String.concat]. cbn [String.concat] in IH. rewrite IH. reflexivity.
  - pose proof (split_not_nil sep s) as N.
    destruct (JS.split sep s) as [|w ws] eqn:E; [contradiction|].
    cbn [String.concat] in *. destruct ws as [|w' ws].
    + rewrite IH. reflexivity.
    + simpl. rewrite <- IH. reflexivity.
Qed.

(** No piece of a split contains the separator. *)
Lemma split_pieces_free sep s :
  forallb (fun t => negb (has_char sep t)) (JS.split sep s) = true.
Proof.
  induction s as [|c s IH]; [reflexivity|]. simpl JS.split.
  destruct (Ascii.eqb c sep) eqn:Hc.
  - simpl. exact IH.
  - destruct (JS.split sep s) as [|w ws]; simpl in *.
    + rewrite Hc. reflexivity.
    + rewrite Hc. exact IH.
Qed.

Lemma split_free sep s : has_char sep s = false -> JS.split sep s = [s].
Proof.
  induction s as [|c s IH]; [reflexivity|]. simpl.
  intros H. apply orb_false_iff in H as [Hc Hs].
  rewrite Hc, (IH Hs). reflexivity.
Qed.

Lemma split_free_app sep s t :
  has_char sep s = false ->
  JS.split sep (s ++ String sep t)%string = s :: JS.split sep t.
Proof.
  induction s as [|c s IH]; simpl.
  - intros _. rewrite Ascii.eqb_refl. reflexivity.
  - intros H. apply orb_false_iff in H as [Hc Hs].
    rewrite Hc, (IH Hs). reflexivity.
Qed.

(** Splitting the join of separator-free pieces gives the pieces back. *)
Lemma split_join sep l :
  l <> [] ->
  forallb (fun t => negb (has_char sep t)) l = true ->
  JS.split sep (JS.join (String sep "") l) = l.
Proof.
  unfold JS.join. induction l as [|x l IH]; [contradiction|]. intros _ H.
  simpl in H. apply andb_true_iff in H as [Hx Hl].
  apply negb_true_iff in Hx.
  destruct l as [|y l].
  - simpl. apply split_free, Hx.
  - change (String.concat (String sep "") (x :: y :: l))
      with (x ++ String sep (String.concat (String sep "") (y :: l)))%string.
    rewrite (split_free_app sep x _ Hx). f_equal.
    apply IH; [discriminate|exact Hl].
Qed.

(** X3: when EVENT_TYPES is set to a non-empty string, the allow-list is
    exactly the pieces between its commas, untrimmed: joining the list
    with commas gives the variable back and no entry contains a comma;
    and a variable that is the comma-join of comma-free kinds gives
    exactly those kinds. *)
Theorem EVENT_TYPES_round_trip (getenv : string -> option string)
    (v : string) (l : list string) :
  getenv "EVENT_TYPES"%string = Some v ->
  v <> ""%string ->
  JS.join "," (EVENT_TYPES (CONFIG_of getenv)) = v /\
  forallb (fun t => negb (has_char "," t)) (EVENT_TYPES (CONFIG_of getenv)) = true /\
  (l <> [] -> forallb (fun t => negb (has_char "," t)) l = true ->
   v = JS.join "," l -> EVENT_TYPES (CONFIG_of getenv) = l).
Proof.
  intros G Hv.
  assert (E : EVENT_TYPES (CONFIG_of getenv) = JS.split "," v).
  { unfold CONFIG_of. cbn [EVENT_TYPES]. rewrite G. unfold str_or.
    destruct (String.eqb_spec v ""); [contradiction|reflexivity]. }
  rewrite E. split; [apply join_split|]. split; [apply split_pieces_free|].
  intros Hl Hf ->. apply split_join; assumption.
Qed.

(** X3 on a list written with a space after the comma: the space stays in
    the entry, so that [WatchEvent] is not in the list. *)
Lemma EVENT_TYPES_round_trip_witness :
  let getenv := fun k : string =>
    if String.eqb k "EVENT_TYPES" then Some "PushEvent, WatchEvent"%string
    else None in
  EVENT_TYPES (CONFIG_of getenv) = ["PushEvent"; " WatchEvent"]%string /\
  includes (EVENT_TYPES (CONFIG_of getenv)) "WatchEvent" = false.
Proof.
  cbv zeta.
  destruct (EVENT_TYPES_round_trip
              (fun k : string =>
                 if String.eqb k "EVENT_TYPES"
                 then Some "PushEvent, WatchEvent"%string else None)
              "PushEvent, WatchEvent"%string
              ["PushEvent"; " WatchEvent"]%string eq_refl)
    as (_ & _ & H); [discriminate|].
  rewrite H; [split; reflexivity|discriminate|reflexivity|reflexivity].
Defined.

(** X4: validateConfig ends the process with code 1 exactly when
    DISCORD_TOKEN, CHANNEL_ID or GITHUB_USERNAME is unset or empty, and
    then names the missing ones, in that order, in one error line; a
    missing GITHUB_TOKEN never ends the process and is warned about only
    when the three are there. *)
Theorem validateConfig_exits_iff_missing (getenv : string -> option string) :
  let v := validateConfig getenv in
  (exit_code v = Some 1 <->
     JS.truthy (getenv "DISCORD_TOKEN"%string) = false \/
     JS.truthy (getenv "CHANNEL_ID"%string) = false \/
     JS.truthy (getenv "GITHUB_USERNAME"%string) = false) /\
  (exit_code v = Some 1 ->
     console v = [CError ("Missing required config: "
                            ++ JS.join ", " (missing getenv))%string]) /\
  (exit_code v <> Some 1 ->
     exit_code v = None /\
     console v =
       if JS.truthy (getenv "GITHUB_TOKEN"%string) then []
       else [CWarn "No GITHUB_TOKEN set - rate limited to 60 requests/hour"]) /\
  missing getenv =
    (if JS.truthy (getenv "DISCORD_TOKEN"%string) then [] else ["DISCORD_TOKEN"%string])
    ++ (if JS.truthy (getenv "CHANNEL_ID"%string) then [] else ["CHANNEL_ID"%string])
    ++ (if JS.truthy (getenv "GITHUB_USERNAME"%string) then []
        else ["GITHUB_USERNAME"%string]).
Proof.
  assert (M : missing getenv =
    (if JS.truthy (getenv "DISCORD_TOKEN"%string) then [] else ["DISCORD_TOKEN"%string])
    ++ (if JS.truthy (getenv "CHANNEL_ID"%string) then [] else ["CHANNEL_ID"%string])
    ++ (if JS.truthy (getenv "GITHUB_USERNAME"%string) then []
        else ["GITHUB_USERNAME"%string])).
  { unfold missing, required, CONFIG_key, CONFIG_of.
    cbn [filter String.eqb Ascii.eqb Bool.eqb CHANNEL_ID GITHUB_USERNAME].
    destruct (JS.truthy (getenv "DISCORD_TOKEN"%string));
      destruct (JS.truthy (getenv "CHANNEL_ID"%string));
      destruct (JS.truthy (getenv "GITHUB_USERNAME"%string)); reflexivity. }
  cbv zeta. unfold validateConfig.
  assert (T : GITHUB_TOKEN (CONFIG_of getenv) = getenv "GITHUB_TOKEN"%string)
    by reflexivity.
  rewrite T. clear T. revert M.
  generalize (missing getenv) as ms. intros ms ->.
  destruct (JS.truthy (getenv "DISCORD_TOKEN"%string));
    destruct (JS.truthy (getenv "CHANNEL_ID"%string));
    destruct (JS.truthy (getenv "GITHUB_USERNAME"%string));
    cbn [app List.length Z.of_nat Z.ltb Z.compare Pos.of_succ_nat Pos.succ];
    cbv iota; cbn [exit_code console];
    try (split; [split; [intros _; auto | reflexivity]
                |split; [reflexivity
                        |split; [intros H; exfalso; apply H; reflexivity
                                |reflexivity]]]).
  destruct (JS.truthy (getenv "GITHUB_TOKEN"%string)); cbn [negb exit_code console];
    (split; [split; [discriminate | intros [H|[H|H]]; discriminate H]
            |split; [discriminate|split; [split; reflexivity|reflexivity]]]).
Qed.

(* ================================================================== *)
(** ** Further properties: the state file and restarts *)

(** X5: saving an id and loading it again gives that id when the file
    system accepts the write; when it refuses, the failure is logged, the
    file is as before and loading gives what it gave before; the last seen
    id in memory is not touched either way. *)
Theorem save_then_load (CONFIG : config) (i : string) (w : env) (s : state) :
  let r := bind (saveLastEventId CONFIG i) (fun _ => loadLastEventId) w s in
  lastEventId (final r) = lastEventId s /\
  match write_result w with
  | None => result r = Ret (Some i) /\ state_file (final r) = Saved i
  | Some e =>
      result r = result (loadLastEventId w s) /\
      state_file (final r) = state_file s /\
      In (ALog (LFailedSave e)) (acts r)
  end.
Proof.
  unfold saveLastEventId, loadLastEventId, bind, asks, gets, modify, emit, log.
  cbn. destruct (write_result w) as [e|]; cbn.
  - destruct (state_file s) eqn:E; cbn; repeat split; auto.
  - repeat split.
Qed.

Section Restart.

Variable CONFIG : config.

(** What a cycle shows to the channel: nothing, unless it found the feed
    and the channel, and then what its dispatch shows. *)
Lemma cycle_outbound w s :
  outbound (acts (pollGitHub CONFIG w s)) = [] \/
  exists evs s1 t1,
    fetchEvents CONFIG w s = (Ret (Some evs), s1, t1) /\
    lastEventId s1 = lastEventId s /\
    outbound (acts (pollGitHub CONFIG w s)) =
      outbound (acts (dispatch CONFIG (lastEventId s1)
                        (collect CONFIG (lastEventId s1) evs) w s1)).
Proof.
  destruct (fetchEvents CONFIG w s) as [[[[evs|]|e] s1] t1] eqn:F;
    destruct (fetchEvents_frame CONFIG w s _ s1 t1 F) as (L1 & _ & O1 & _).
  - destruct (channel w) eqn:C.
    + right. exists evs, s1, t1. split; [reflexivity|]. split; [exact L1|].
      apply (found_outbound CONFIG w s evs s1 t1 F C).
    + left. rewrite (poll_no_channel CONFIG w s _ s1 t1 F C). cbn [acts snd].
      rewrite !outbound_app, O1, outbound_debug_line. reflexivity.
  - left. rewrite (poll_null CONFIG w s s1 t1 F). exact O1.
  - left. rewrite (poll_throw CONFIG w s e s1 t1 F). cbn [acts snd].
    rewrite outbound_app, O1. reflexivity.
Qed.

(** A cold cycle tries the channel at most once and never sleeps. *)
Lemma cold_cycle_bound w s :
  lastEventId s = None ->
  (List.length (attempted (acts (pollGitHub CONFIG w s))) <= 1)%nat /\
  sleeps (acts (pollGitHub CONFIG w s)) = [].
Proof.
  intros L. rewrite <- attempted_outbound, <- sleeps_outbound.
  destruct (cycle_outbound w s) as [O|(evs & s1 & t1 & _ & L1 & O)]; rewrite O.
  - split; [simpl; lia|reflexivity].
  - rewrite dispatch_outbound, L1, L.
    destruct (collect CONFIG None evs) as [|first rest];
      [split; [simpl; lia|reflexivity]|].
    destruct (postEvent_spec CONFIG first w s1)
      as (_ & _ & [H|[(m & H)|(m & e & H)]]); rewrite H;
      split; simpl; auto.
Qed.

(** A cycle that fetched a non-empty feed, found the channel, met no
    refusal and could write leaves the newest id in the state file. *)
Lemma found_cycle_file w s s1 t1 newest older :
  fetchEvents CONFIG w s = (Ret (Some (newest :: older)), s1, t1) ->
  channel w = true ->
  forallb (accepted w)
    (to_post (lastEventId s)
       (collect CONFIG (lastEventId s) (newest :: older))) = true ->
  write_result w = None ->
  state_file (final (pollGitHub CONFIG w s)) = Saved (id newest).
Proof.
  intros F C A W. apply breaker_forallb in A.
  pose proof (found_cycle_state CONFIG w s s1 t1 newest older F C) as S.
  cbv zeta in S. rewrite A, W in S. apply S.
Qed.

(** What [clientReady] does: the three lines, the id loaded (an
    unreadable file is logged), and the first cycle. *)
Lemma clientReady_run w s :
  let i := match state_file s with Saved i => Some i | _ => None end in
  let p := pollGitHub CONFIG w (set_lastEventId i s) in
  clientReady CONFIG w s =
    (result p, final p,
      startup_lines CONFIG w
        ++ match state_file s with
           | Corrupt e => [ALog (LFailedLoad e)]
           | _ => []
           end
        ++ acts p).
Proof.
  unfold clientReady, loadLastEventId, startup_lines, bind, asks, gets, modify,
    log, emit.
  destruct (state_file s); cbn;
    match goal with
    | |- context [pollGitHub CONFIG w ?x] =>
        destruct (pollGitHub CONFIG w x) as [[o s2] t2]
    end; reflexivity.
Qed.

(** X6: a process that restarts after a cycle that wrote the newest id
    (the channel found, no event refused by the embed library, the write
    accepted) starts with an empty memory, loads that id, and, when its
    first feed request is answered with the same feed, sends nothing: no
    event is posted a second time, and the last seen id is the newest id
    again. *)
Theorem restart_posts_no_duplicates w1 w2 s s1 t1 newest older r2 :
  fetchEvents CONFIG w1 s = (Ret (Some (newest :: older)), s1, t1) ->
  channel w1 = true ->
  forallb (accepted w1)
    (to_post (lastEventId s)
       (collect CONFIG (lastEventId s) (newest :: older))) = true ->
  write_result w1 = None ->
  let s' := restart (final (pollGitHub CONFIG w1 s)) in
  0 <= now w2 (ticks s') ->
  http_events w2 (requests s') = Response r2 ->
  ok r2 = true ->
  json r2 = Some (newest :: older) ->
  let c := clientReady CONFIG w2 s' in
  lastEventId s' = None /\
  outbound (acts c) = [] /\
  attempted (acts c) = [] /\
  lastEventId (final c) = Some (id newest).
Proof.
  intros F C A W s' T N O J c.
  assert (SF : state_file s' = Saved (id newest)).
  { unfold s', restart. cbn [state_file].
    apply (found_cycle_file w1 s s1 t1 newest older F C A W). }
  split; [reflexivity|].
  set (s2 := set_lastEventId (Some (id newest)) s').
  assert (H : suppressed w2 s2 = false).
  { unfold suppressed, s2, s', restart, set_lastEventId. cbn.
    apply Z.ltb_ge. exact T. }
  assert (F2 : fetchEvents CONFIG w2 s2 =
                 (Ret (Some (newest :: older)), count_request (tick s2),
                  request_line CONFIG (events_url CONFIG)
                    :: remaining_line CONFIG r2)).
  { unfold fetchEvents.
    apply (fetchGitHub_success CONFIG http_events _ w2 s2 r2 _ H N O J). }
  destruct (seen_feed_silent CONFIG w2 s2 _ _ newest older F2 eq_refl) as [E Out].
  assert (Out' : outbound (acts c) = []).
  { unfold c. rewrite clientReady_run, SF. fold s2. cbn [acts snd].
    rewrite !outbound_app, Out. reflexivity. }
  split; [exact Out'|]. split; [apply silent_outbound, Out'|].
  unfold c. rewrite clientReady_run, SF. fold s2. cbn [final fst snd].
  destruct (channel w2) eqn:C2.
  - apply (found_cycle_last_id CONFIG w2 s2 _ _ newest older F2 C2).
    rewrite E. reflexivity.
  - rewrite (poll_no_channel CONFIG w2 s2 _ _ _ F2 C2). reflexivity.
Qed.

(** X7: over a state file that is absent or cannot be read, the first
    cycle of a process is a cold start: the process does not fail; after
    its three start-up lines it logs the unreadable file, if there is one,
    and then runs a cycle from a null id, in which at most one message is
    tried, without any pacing sleep, whatever the feed holds. *)
Theorem unreadable_state_is_cold_start w s :
  (state_file s = Absent \/ exists e, state_file s = Corrupt e) ->
  let c := clientReady CONFIG w s in
  let p := pollGitHub CONFIG w (set_lastEventId None s) in
  result c = Ret tt /\
  (List.length (attempted (acts c)) <= 1)%nat /\
  sleeps (acts c) = [] /\
  (state_file s = Absent -> acts c = startup_lines CONFIG w ++ acts p) /\
  (forall e, state_file s = Corrupt e ->
     acts c = startup_lines CONFIG w ++ ALog (LFailedLoad e) :: acts p).
Proof.
  intros H c p.
  pose proof (pollGitHub_returns CONFIG w (set_lastEventId None s)) as R.
  destruct (cold_cycle_bound w (set_lastEventId None s) eq_refl) as [B S].
  fold p in R, B, S.
  unfold c. rewrite clientReady_run.
  destruct H as [E|[e E]]; rewrite E; fold p; cbn [result final acts fst snd];
    rewrite !attempted_app, !sleeps_app; cbn [startup_lines attempted sleeps app];
    repeat split; auto; try discriminate.
  intros e' [= <-]. reflexivity.
Qed.

End Restart.

(* ================================================================== *)
(** ** Further properties: the fetcher and its gate *)

Section Gate.

Variable CONFIG : config.

Lemma fetches_debug_line l : fetches (debug_line CONFIG l) = [].
Proof. unfold debug_line. destruct (DEBUG CONFIG); reflexivity. Qed.

Lemma fetches_remaining_line {A} (r : response A) :
  fetches (remaining_line CONFIG r) = [].
Proof.
  unfold remaining_line. destruct (JS.truthy _); [apply fetches_debug_line|reflexivity].
Qed.

(** The run of a call whose request is rejected. *)
Lemma fetchGitHub_rejected {A} (net : env -> nat -> transport A) u w s e :
  suppressed w s = false ->
  net w (requests s) = Rejected _ e ->
  fetchGitHub CONFIG net u w s =
    (Throw e, count_request (tick s), [request_line CONFIG u]).
Proof.
  unfold suppressed. intros H N.
  unfold fetchGitHub, bind, Date_now, gets, fetch, request_line.
  cbn -[JS.lt debug JS.truthy]. rewrite H.
  cbn -[JS.lt debug JS.truthy]. rewrite N. reflexivity.
Qed.

(** The run of a call answered 2xx with a body that does not parse. *)
Lemma fetchGitHub_garbled {A} (net : env -> nat -> transport A) u w s r :
  suppressed w s = false ->
  net w (requests s) = Response r ->
  ok r = true ->
  json r = None ->
  fetchGitHub CONFIG net u w s =
    (Throw SyntaxError, count_request (tick s),
      request_line CONFIG u :: remaining_line CONFIG r).
Proof.
  intros H N O J. rewrite (fetchGitHub_answered CONFIG net u w s r H N).
  assert (T : (status r =? 403) || (status r =? 429) = false).
  { unfold ok in O. apply andb_true_iff in O as [O1 O2].
    apply Z.leb_le in O1, O2. apply orb_false_iff.
    split; apply Z.eqb_neq; lia. }
  unfold bind. rewrite T, O, J. cbn. rewrite app_nil_r. reflexivity.
Qed.

(** X8: one call of fetchGitHub makes no request when the gate suppresses
    it and exactly one otherwise, for the url it was given and with the
    token as bearer when one is configured, whether the call then returns
    a body, returns null or throws. *)
Theorem fetchGitHub_requests_once {A} (net : env -> nat -> transport A)
    (u : string) (w : env) (s : state) :
  fetches (acts (fetchGitHub CONFIG net u w s)) =
    if suppressed w s then []
    else [AFetch u (if JS.truthy (GITHUB_TOKEN CONFIG)
                    then GITHUB_TOKEN CONFIG else None)].
Proof.
  destruct (suppressed w s) eqn:H.
  - rewrite (fetchGitHub_suppressed CONFIG net u w s H). apply fetches_debug_line.
  - destruct (net w (requests s)) as [e|r] eqn:N.
    + rewrite (fetchGitHub_rejected net u w s e H N). reflexivity.
    + rewrite (fetchGitHub_answered CONFIG net u w s r H N).
      unfold bind. cbn [fst snd].
      assert (Tail : forall o s2 t2,
        (if (status r =? 403) || (status r =? 429)
         then
          v <- (if JS.truthy (x_ratelimit_reset r)
                then ret (JS.times (JS.parseInt (x_ratelimit_reset r)) 1000)
                else t' <- Date_now;; ret (JS.Num (t' + 60000)));;
          modify (set_rateLimitReset v);;
          match JS.valid_time v with
          | Some ms => log (LRateLimitedUntil ms);; ret None
          | None => throw RangeError
          end
         else
          if negb (ok r) then throw (GitHubAPIError (status r))
          else match json r with
               | Some body => ret (Some body)
               | None => throw SyntaxError
               end) w (count_request (tick s)) = (o, s2, t2) ->
        fetches t2 = []).
      { intros o s2 t2. unfold bind.
        destruct ((status r =? 403) || (status r =? 429)).
        - destruct (JS.truthy (x_ratelimit_reset r));
            cbn -[JS.valid_time JS.times JS.parseInt Z.add];
            match goal with |- context [JS.valid_time ?v] =>
              destruct (JS.valid_time v) end; cbn; intros [= _ _ <-]; reflexivity.
        - destruct (negb (ok r)); cbn; [intros [= _ _ <-]; reflexivity|].
          destruct (json r); cbn; intros [= _ _ <-]; reflexivity. }
      match goal with |- context [match ?m w (count_request (tick s)) with _ => _ end] =>
        destruct (m w (count_request (tick s))) as [[o s2] t2] eqn:E end.
      apply Tail in E. cbn [acts snd].
      change (request_line CONFIG u :: remaining_line CONFIG r)
        with ([request_line CONFIG u] ++ remaining_line CONFIG r).
      rewrite !fetches_app, fetches_remaining_line, E. reflexivity.
Qed.

(** X9: a call of fetchGitHub leaves the gate where it is unless its
    request was answered with status 403 or 429: a suppressed call, a
    rejected request, a success and any other failure do not move it. *)
Theorem gate_moves_only_on_throttling {A} (net : env -> nat -> transport A)
    (u : string) (w : env) (s : state) :
  (suppressed w s = true \/
   forall r, net w (requests s) = Response r -> throttling (status r) = false) ->
  rateLimitReset (final (fetchGitHub CONFIG net u w s)) = rateLimitReset s.
Proof.
  intros H. destruct (suppressed w s) eqn:S.
  - rewrite (fetchGitHub_suppressed CONFIG net u w s S). reflexivity.
  - destruct H as [H|H]; [discriminate|].
    destruct (net w (requests s)) as [e|r] eqn:N.
    + rewrite (fetchGitHub_rejected net u w s e S N). reflexivity.
    + specialize (H r eq_refl). destruct (ok r) eqn:O.
      * destruct (json r) as [b|] eqn:J.
        -- rewrite (fetchGitHub_success CONFIG net u w s r b S N O J). reflexivity.
        -- rewrite (fetchGitHub_garbled net u w s r S N O J). reflexivity.
      * rewrite (fetchGitHub_failure CONFIG net u w s r S N H O). reflexivity.
Qed.

(** The run of a cycle that the gate suppresses. *)
Lemma suppressed_cycle_run w s :
  suppressed w s = true ->
  pollGitHub CONFIG w s =
    (Ret tt, tick (tick s),
      debug_line CONFIG
        (LRateWait (wait_seconds (rateLimitReset s) (now w (S (ticks s)))))).
Proof.
  intros H. apply poll_null. unfold fetchEvents.
  apply (fetchGitHub_suppressed CONFIG http_events _ w s H).
Qed.

(** X10: while the clock is before rateLimitReset a cycle is idle: it
    requests nothing, sends nothing, writes nothing, logs no error, and
    leaves the last seen id, the state file and the gate as they are. *)
Theorem closed_gate_cycle_is_idle w s :
  suppressed w s = true ->
  let r := pollGitHub CONFIG w s in
  result r = Ret tt /\
  fetches (acts r) = [] /\
  outbound (acts r) = [] /\
  written (acts r) = [] /\
  poll_errors (acts r) = [] /\
  lastEventId (final r) = lastEventId s /\
  state_file (final r) = state_file s /\
  rateLimitReset (final r) = rateLimitReset s.
Proof.
  intros H r. unfold r. rewrite (suppressed_cycle_run w s H).
  cbn [result final acts fst snd].
  rewrite fetches_debug_line, outbound_debug_line, written_debug_line.
  unfold debug_line. destruct (DEBUG CONFIG); repeat split.
Qed.

(** X11: a cycle whose feed request is answered 403 or 429 closes the
    gate until the time T of the reset hint (or the clock plus a minute),
    sends nothing and logs no error; every later cycle that starts before
    T is idle and leaves the gate at T, and from T on the gate is open. *)
Theorem throttled_cycle_closes_gate w s r T :
  suppressed w s = false ->
  http_events w (requests s) = Response r ->
  throttling (status r) = true ->
  hinted_reset (x_ratelimit_reset r) (now w (S (ticks s))) T ->
  printable T ->
  let c := pollGitHub CONFIG w s in
  result c = Ret tt /\
  rateLimitReset (final c) = JS.Num T /\
  lastEventId (final c) = lastEventId s /\
  outbound (acts c) = [] /\
  poll_errors (acts c) = [] /\
  forall w2,
    (now w2 (ticks (final c)) < T ->
       fetches (acts (pollGitHub CONFIG w2 (final c))) = [] /\
       outbound (acts (pollGitHub CONFIG w2 (final c))) = [] /\
       rateLimitReset (final (pollGitHub CONFIG w2 (final c))) = JS.Num T) /\
    (T <= now w2 (ticks (final c)) -> suppressed w2 (final c) = false).
Proof.
  intros H N Th Hint P c.
  assert (F : exists s1 t1,
    fetchEvents CONFIG w s = (Ret None, s1, t1) /\
    rateLimitReset s1 = JS.Num T /\ lastEventId s1 = lastEventId s).
  { unfold hinted_reset in Hint. unfold fetchEvents.
    destruct (x_ratelimit_reset r) as [h|] eqn:X.
    - destruct (String.eqb_spec h "") as [->|Hh].
      + subst T. eexists _, _. split.
        * apply (fetchGitHub_throttled_no_hint CONFIG http_events _ w s r H N Th);
            [rewrite X; reflexivity|exact P].
        * split; reflexivity.
      + destruct Hint as (secs & Ps & ->). eexists _, _. split.
        * apply (fetchGitHub_throttled_hint CONFIG http_events _ w s r h secs
                   H N Th X Hh Ps P).
        * split; reflexivity.
    - subst T. eexists _, _. split.
      + apply (fetchGitHub_throttled_no_hint CONFIG http_events _ w s r H N Th);
          [rewrite X; reflexivity|exact P].
      + split; reflexivity. }
  destruct F as (s1 & t1 & F & G & L).
  destruct (fetchEvents_frame CONFIG w s _ s1 t1 F) as (_ & _ & O1 & _ & E1).
  assert (R : c = (Ret tt, s1, t1)) by apply (poll_null CONFIG w s s1 t1 F).
  rewrite R. cbn [result final acts fst snd].
  repeat (split; [assumption || reflexivity|]).
  intros w2. split.
  - intros Lt.
    assert (S2 : suppressed w2 s1 = true).
    { unfold suppressed. rewrite G. apply Z.ltb_lt, Lt. }
    rewrite (suppressed_cycle_run w2 s1 S2). cbn [final acts fst snd].
    rewrite fetches_debug_line, outbound_debug_line. repeat split. exact G.
  - intros Ge. unfold suppressed. rewrite G. apply Z.ltb_ge, Ge.
Qed.

(** X12: when the feed request is rejected by the network, or answered
    2xx with a body that does not parse, the cycle logs that error at its
    boundary and ends: apart from the request, the quota line and that log
    line nothing is done, and only the positions in the clock and in the
    requests move in the state. *)
Theorem activity_transport_errors_are_logged w s :
  suppressed w s = false ->
  (forall e, http_events w (requests s) = Rejected _ e ->
     pollGitHub CONFIG w s =
       (Ret tt, count_request (tick s),
         [request_line CONFIG (events_url CONFIG); ALog (LPollError e)])) /\
  (forall r, http_events w (requests s) = Response r ->
     ok r = true -> json r = None ->
     pollGitHub CONFIG w s =
       (Ret tt, count_request (tick s),
         (request_line CONFIG (events_url CONFIG) :: remaining_line CONFIG r)
           ++ [ALog (LPollError SyntaxError)])).
Proof.
  intros H. split.
  - intros e N. apply (poll_throw CONFIG w s e _ [request_line CONFIG (events_url CONFIG)]).
    unfold fetchEvents.
    apply (fetchGitHub_rejected http_events _ w s e H N).
  - intros r N O J. apply poll_throw. unfold fetchEvents.
    apply (fetchGitHub_garbled http_events _ w s r H N O J).
Qed.


End Gate.

(* ================================================================== *)
(** ** Further properties: the cycle *)

Section Dispatcher.

Variable CONFIG : config.

Lemma persist_poll_errors evs w s :
  poll_errors (acts (persist CONFIG evs w s)) = [].
Proof.
  destruct evs as [|newest older]; [reflexivity|].
  pose proof (persist_spec CONFIG newest older w s) as (_ & _ & PW).
  destruct (write_result w); destruct PW as [_ PA]; rewrite PA; reflexivity.
Qed.

(** What a cycle that found the channel logs at its boundary: nothing,
    unless an event that it posts is refused; then the refusal is the
    last action of the cycle, and nothing was written. *)
Lemma found_cycle_log w s evs s1 t1 :
  fetchEvents CONFIG w s = (Ret (Some evs), s1, t1) ->
  channel w = true ->
  let r := pollGitHub CONFIG w s in
  match breaker w (to_post (lastEventId s) (collect CONFIG (lastEventId s) evs)) with
  | None => poll_errors (acts r) = []
  | Some err =>
      poll_errors (acts r) = [err] /\
      written (acts r) = [] /\
      lastEventId (final r) = lastEventId s /\
      state_file (final r) = state_file s /\
      exists t, acts r = t ++ [ALog (LPollError err)]
  end.
Proof.
  intros F C r.
  destruct (fetchEvents_frame CONFIG w s _ s1 t1 F) as (L1 & F1 & _ & W1 & E1).
  rewrite <- L1.
  set (d := dispatch CONFIG (lastEventId s1)
              (collect CONFIG (lastEventId s1) evs) w s1).
  destruct (keeps_id_dispatch CONFIG (lastEventId s1)
              (collect CONFIG (lastEventId s1) evs) w s1)
    as (DL & DF & DW & DE). fold d in DL, DF, DW, DE.
  destruct (breaker w _) as [err|] eqn:B; unfold r.
  - rewrite (poll_refused CONFIG w s _ s1 t1 err F C B). fold d.
    cbn [final acts fst snd].
    rewrite !poll_errors_app, !written_app, E1, W1, DE, DW,
      poll_errors_debug_line, written_debug_line.
    repeat split; try congruence.
    exists (t1 ++ debug_line CONFIG (LFetched (Z.of_nat (List.length evs)))
              ++ acts d).
    rewrite <- !app_assoc. reflexivity.
  - rewrite (poll_found CONFIG w s _ s1 t1 F C B). fold d.
    cbn [final acts fst snd].
    rewrite !poll_errors_app, E1, DE, poll_errors_debug_line,
      persist_poll_errors. reflexivity.
Qed.

(** A cycle that found the channel keeps the state file or writes the id
    it assigns. *)
Lemma found_cycle_written w s evs s1 t1 :
  fetchEvents CONFIG w s = (Ret (Some evs), s1, t1) ->
  channel w = true ->
  let r := pollGitHub CONFIG w s in
  (written (acts r) = [] /\ state_file (final r) = state_file s /\
   (evs = [] -> lastEventId (final r) = lastEventId s)) \/
  (exists i, written (acts r) = [i] /\ lastEventId (final r) = Some i /\
             state_file (final r) = Saved i).
Proof.
  intros F C r.
  destruct evs as [|newest older].
  - left.
    destruct (fetchEvents_frame CONFIG w s _ s1 t1 F) as (L1 & F1 & _ & W1 & _).
    unfold r. rewrite (poll_found CONFIG w s _ s1 t1 F C).
    + cbn [final acts fst snd]. unfold dispatch, persist, ret.
      cbn [collect List.length Z.of_nat Z.ltb Z.compare final acts fst snd].
      rewrite !written_app, W1, written_debug_line.
      split; [reflexivity|]. split; [assumption|intros _; assumption].
    + destruct (lastEventId s1); reflexivity.
  - pose proof (found_cycle_state CONFIG w s s1 t1 newest older F C) as S.
    cbv zeta in S. fold r in S.
    destruct (breaker w _).
    + left. destruct S as (_ & _ & S1 & S2). repeat split; auto. discriminate.
    + destruct S as (_ & L & S). destruct (write_result w).
      * left. destruct S as [S1 S2]. repeat split; auto. discriminate.
      * right. exists (id newest). destruct S as [S1 S2]. repeat split; auto.
Qed.

(** X14: a cycle never throws, whatever the network, the channel, the
    file system and the embed library do; it logs at most one error at
    its boundary, and when it does, that line is its last action, nothing
    was written and the last seen id and the state file are as before. *)
Theorem cycle_never_throws w s :
  let r := pollGitHub CONFIG w s in
  result r = Ret tt /\
  (List.length (poll_errors (acts r)) <= 1)%nat /\
  (forall e, In e (poll_errors (acts r)) ->
     written (acts r) = [] /\
     lastEventId (final r) = lastEventId s /\
     state_file (final r) = state_file s /\
     exists t, acts r = t ++ [ALog (LPollError e)]).
Proof.
  cbv zeta. split; [apply pollGitHub_returns|].
  destruct (fetchEvents CONFIG w s) as [[[[evs|]|e] s1] t1] eqn:F;
    destruct (fetchEvents_frame CONFIG w s _ s1 t1 F) as (L1 & F1 & O1 & W1 & E1).
  - destruct (channel w) eqn:C.
    + pose proof (found_cycle_log w s evs s1 t1 F C) as G. cbv zeta in G.
      destruct (breaker w _) as [err|].
      * destruct G as (G1 & G2 & G3 & G4 & G5). rewrite G1.
        split; [simpl; lia|]. intros e [<-|[]]. repeat split; assumption.
      * rewrite G. split; [simpl; lia|intros e []].
    + rewrite (poll_no_channel CONFIG w s _ s1 t1 F C).
      cbn [result final acts fst snd].
      rewrite !poll_errors_app, E1, poll_errors_debug_line.
      split; [simpl; lia|intros e []].
  - rewrite (poll_null CONFIG w s s1 t1 F). cbn [result final acts fst snd].
    rewrite E1. split; [simpl; lia|intros e []].
  - rewrite (poll_throw CONFIG w s e s1 t1 F). cbn [result final acts fst snd].
    rewrite poll_errors_app, written_app, E1, W1.
    split; [simpl; lia|]. intros e' [<-|[]]. repeat split; try assumption.
    exists t1. reflexivity.
Qed.

(** X15: a cycle that fetches an empty feed sends nothing, writes nothing
    and leaves the last seen id, the state file and the gate as they are,
    with or without the channel. *)
Theorem empty_feed_changes_nothing w s s1 t1 :
  fetchEvents CONFIG w s = (Ret (Some []), s1, t1) ->
  let r := pollGitHub CONFIG w s in
  outbound (acts r) = [] /\
  written (acts r) = [] /\
  poll_errors (acts r) = [] /\
  lastEventId (final r) = lastEventId s /\
  state_file (final r) = state_file s /\
  rateLimitReset (final r) = rateLimitReset s.
Proof.
  intros F r.
  destruct (fetchEvents_frame CONFIG w s _ s1 t1 F) as (L1 & F1 & O1 & W1 & E1).
  destruct (fetchGitHub_body_gate CONFIG http_events _ w s _ s1 t1 F) as [G _].
  assert (R : r = (Ret tt, s1,
                   t1 ++ debug_line CONFIG (LFetched 0)
                      ++ (if channel w then []
                          else [ALog (LChannelNotFound (CHANNEL_ID CONFIG))]))).
  { unfold r. destruct (channel w) eqn:C.
    - rewrite (poll_found CONFIG w s _ s1 t1 F C);
        [|destruct (lastEventId s1); reflexivity].
      unfold dispatch. cbn. rewrite !app_nil_r. reflexivity.
    - rewrite (poll_no_channel CONFIG w s _ s1 t1 F C). reflexivity. }
  rewrite R. cbn [final acts fst snd].
  rewrite !outbound_app, !written_app, !poll_errors_app, O1, W1, E1,
    outbound_debug_line, written_debug_line.
  unfold debug_line.
  destruct (channel w); destruct (DEBUG CONFIG); repeat split; assumption.
Qed.

(** What the paced loop shows: one sleep of 500 ms for each event, and at
    most one try of the channel for each. *)
Lemma paced_counts es : forall w s,
  sleeps (paced CONFIG es w s) = repeat 500 (List.length es) /\
  (List.length (attempted (paced CONFIG es w s)) <= List.length es)%nat.
Proof.
  induction es as [|e es IH]; intros w s; [split; [reflexivity|simpl; lia]|].
  simpl paced. destruct (IH w (final (postEvent CONFIG e w s))) as [IS IA].
  rewrite sleeps_app, attempted_app. simpl sleeps. simpl attempted.
  rewrite IS.
  destruct (postEvent_spec CONFIG e w s)
    as (_ & _ & [H|[(m & H)|(m & err & H)]]); rewrite H; simpl; split;
    try reflexivity; lia.
Qed.


Lemma admitted_all w es : admitted w es = es <-> breaker w es = None.
Proof.
  split; [|apply breaker_admitted].
  intros H. rewrite <- H. apply breaker_of_admitted.
Qed.

(** X16: in every replay cycle (the last seen id is not null, the feed is
    fetched, the channel is found) the channel sees exactly the posts of
    the events of an allowed type that come before the last seen id in the
    feed, oldest first, up to the first one that the embed library refuses
    before its try block, each followed by one sleep of 500 ms and each
    trying the channel at most once, whatever the single posts do; the
    cycle logs no error at its boundary exactly when none is refused, and
    then all of them are posted. *)
Theorem replay_posts_newer_allowed_oldest_first w s s1 t1 evs l :
  fetchEvents CONFIG w s = (Ret (Some evs), s1, t1) ->
  channel w = true ->
  lastEventId s = Some l ->
  let es := rev (filter (allowed CONFIG) (newer l evs)) in
  let r := pollGitHub CONFIG w s in
  outbound (acts r) = paced CONFIG (admitted w es) w s1 /\
  sleeps (acts r) = repeat 500 (List.length (admitted w es)) /\
  (List.length (attempted (acts r)) <= List.length (admitted w es))%nat /\
  (poll_errors (acts r) = [] <-> admitted w es = es) /\
  (forall e, In e es ->
     allowed CONFIG e = true /\
     exists j, nth_error evs j = Some e /\
               forall k, position l evs = Some k -> (j < k)%nat).
Proof.
  intros F C L es r.
  assert (O : outbound (acts r) = paced CONFIG (admitted w es) w s1)
    by apply (replay_outbound CONFIG w s s1 t1 evs l F C L).
  destruct (paced_counts (admitted w es) w s1) as [PS PA].
  split; [exact O|].
  split; [rewrite <- sleeps_outbound, O; exact PS|].
  split; [rewrite <- attempted_outbound, O; exact PA|].
  split.
  - pose proof (found_cycle_log w s evs s1 t1 F C) as G. cbv zeta in G.
    rewrite L, collect_replay in G. cbn [to_post] in G. fold (allowed CONFIG) in G.
    fold es in G. fold r in G. rewrite admitted_all.
    destruct (breaker w es).
    + destruct G as [G _]. rewrite G. split; discriminate.
    + tauto.
  - intros e He. apply in_rev in He. split.
    + apply filter_In in He. apply He.
    + apply (collect_newer CONFIG l evs e). rewrite collect_replay. exact He.
Qed.


(** X18: without the channel in the cache a cycle never sends, sleeps or
    writes, and the last seen id and the state file stay as they are,
    whatever the fetch returns or throws. *)
Theorem no_channel_no_effect w s :
  channel w = false ->
  let r := pollGitHub CONFIG w s in
  outbound (acts r) = [] /\
  written (acts r) = [] /\
  lastEventId (final r) = lastEventId s /\
  state_file (final r) = state_file s.
Proof.
  intros C r. unfold r.
  destruct (fetchEvents CONFIG w s) as [[[[evs|]|e] s1] t1] eqn:F;
    destruct (fetchEvents_frame CONFIG w s _ s1 t1 F) as (L1 & F1 & O1 & W1 & E1).
  - rewrite (poll_no_channel CONFIG w s _ s1 t1 F C). cbn [final acts fst snd].
    rewrite !outbound_app, !written_app, O1, W1, outbound_debug_line,
      written_debug_line. repeat split; assumption.
  - rewrite (poll_null CONFIG w s s1 t1 F). repeat split; assumption.
  - rewrite (poll_throw CONFIG w s e s1 t1 F). cbn [final acts fst snd].
    rewrite outbound_app, written_app, O1, W1. repeat split; assumption.
Qed.

(** X19: a cycle writes the state file at most once, and what it writes is
    the id it has just assigned to the last seen id: after a write the
    memory and the file hold the same id. *)
Theorem cycle_writes_what_it_assigns w s :
  let r := pollGitHub CONFIG w s in
  (written (acts r) = [] /\ state_file (final r) = state_file s) \/
  (exists i, written (acts r) = [i] /\ lastEventId (final r) = Some i /\
             state_file (final r) = Saved i).
Proof.
  cbv zeta.
  destruct (fetchEvents CONFIG w s) as [[[[evs|]|e] s1] t1] eqn:F;
    destruct (fetchEvents_frame CONFIG w s _ s1 t1 F) as (L1 & F1 & O1 & W1 & E1).
  - destruct (channel w) eqn:C.
    + destruct (found_cycle_written w s evs s1 t1 F C) as [(A & B & _)|H];
        [left; split; assumption|right; exact H].
    + left. rewrite (poll_no_channel CONFIG w s _ s1 t1 F C).
      cbn [final acts fst snd].
      rewrite !written_app, W1, written_debug_line.
      split; [reflexivity|assumption].
  - left. rewrite (poll_null CONFIG w s s1 t1 F). split; assumption.
  - left. rewrite (poll_throw CONFIG w s e s1 t1 F). cbn [final acts fst snd].
    rewrite written_app, W1. split; [reflexivity|assumption].
Qed.

(** One cycle with a working file system keeps memory and file in step. *)
Lemma cycle_keeps_sync w s :
  write_result w = None -> in_sync s -> in_sync (final (pollGitHub CONFIG w s)).
Proof.
  intros W I. unfold in_sync in *.
  destruct (fetchEvents CONFIG w s) as [[[[evs|]|e] s1] t1] eqn:F;
    destruct (fetchEvents_frame CONFIG w s _ s1 t1 F) as (L1 & F1 & _).
  - destruct (channel w) eqn:C.
    + destruct evs as [|newest older].
      * destruct (found_cycle_written w s [] s1 t1 F C)
          as [(_ & B & D)|(i & A & _)].
        -- rewrite (D eq_refl), B. exact I.
        -- exfalso. revert A.
           rewrite (poll_found CONFIG w s _ s1 t1 F C);
             [|destruct (lastEventId s1); reflexivity].
           cbn [acts snd]. unfold dispatch. cbn.
           destruct (fetchEvents_frame CONFIG w s _ s1 t1 F) as (_ & _ & _ & W1 & _).
           rewrite !written_app, W1, written_debug_line. discriminate.
      * pose proof (found_cycle_state CONFIG w s s1 t1 newest older F C) as S.
        cbv zeta in S. destruct (breaker w _).
        -- destruct S as (_ & S1 & S2 & _). rewrite S1, S2. exact I.
        -- destruct S as (_ & S1 & S2). rewrite W in S2. rewrite S1. apply S2.
    + rewrite (poll_no_channel CONFIG w s _ s1 t1 F C). cbn [final fst snd].
      rewrite L1, F1. exact I.
  - rewrite (poll_null CONFIG w s s1 t1 F). cbn [final fst snd].
    rewrite L1, F1. exact I.
  - rewrite (poll_throw CONFIG w s e s1 t1 F). cbn [final fst snd].
    rewrite L1, F1. exact I.
Qed.

(** X20: as long as the file system accepts the writes, the last seen id
    in memory and the id in the state file stay the same one through any
    sequence of cycles: what a restart would load is what the process
    holds. *)
Theorem file_follows_memory ws : forall s,
  Forall (fun w => write_result w = None) ws ->
  in_sync s ->
  in_sync (cycles CONFIG ws s).
Proof.
  induction ws as [|w ws IH]; intros s Hw I; [exact I|].
  simpl. inversion Hw as [|? ? W Hws]; subst.
  apply IH; [exact Hws|]. apply cycle_keeps_sync; assumption.
Qed.


End Dispatcher.

(* ================================================================== *)
(** ** Further properties: the renderer *)

#[export] Instance plumbing_frame : Frame plumbing.
Proof.
  split.
  - intros s. reflexivity.
  - intros s1 s2 s3 t1 t2 H1 H2. unfold plumbing in *.
    rewrite forallb_app, H1, H2. reflexivity.
Qed.

Lemma plumbing_silent t :
  forallb is_plumbing t = true ->
  attempted t = [] /\ delivered t = [] /\
  (forall ty rp, ~ In (ALog (LPosted ty rp)) t) /\
  (forall ty err, ~ In (ALog (LErrorPosting ty err)) t) /\
  (forall m, ~ In (ASend m) t) /\
  (forall m err, ~ In (ASendFailed m err) t).
Proof.
  induction t as [|a t IH]; [repeat split; intros; intros []|].
  simpl. intros H. apply andb_true_iff in H as [Ha Ht].
  destruct (IH Ht) as (A & D & P & E & S1 & S2).
  destruct a as [u b|m|m err|ms|l|l|f i]; try discriminate Ha;
    try (destruct l; try discriminate Ha);
    (repeat split; [exact A|exact D|..]); intros; intros [X|X];
    try discriminate X;
    first [eapply P; exact X | eapply E; exact X | eapply S1; exact X
          | eapply S2; exact X].
Qed.

Section Yields.

Context {A : Type} (Q : A -> Prop).

Lemma yields_ret a : Q a -> yields Q (ret a).
Proof. intros H w s. exact H. Qed.

Lemma yields_bind {B} (m : M B) (f : B -> M A) :
  (forall b, yields Q (f b)) -> yields Q (bind m f).
Proof.
  intros H w s. unfold bind.
  destruct (m w s) as [[[b|e] s1] t1]; [|exact I].
  specialize (H b w s1). destruct (f b w s1) as [[o s2] t2]. exact H.
Qed.

(** The same when what the first part returns matters. *)
Lemma yields_bind_with {B} (P : B -> Prop) (m : M B) (f : B -> M A) :
  yields P m -> (forall b, P b -> yields Q (f b)) -> yields Q (bind m f).
Proof.
  intros Hm H w s. specialize (Hm w s). unfold bind.
  destruct (m w s) as [[[b|e] s1] t1]; [|exact I].
  specialize (H b Hm w s1). destruct (f b w s1) as [[o s2] t2]. exact H.
Qed.

End Yields.

(** A setter returns the builder with its argument recorded. *)
Lemma yields_setter c em : yields (fun em' => em' = record c em) (setter c em).
Proof.
  intros w s. unfold setter. destruct (setter_throws w c); reflexivity.
Qed.

Lemma yields_ret_eq {A} (a : A) : yields (fun x => x = a) (ret a).
Proof. intros w s. reflexivity. Qed.

Section Renderer.

Variable CONFIG : config.

Lemma plumbing_debug l : respects plumbing (debug CONFIG l).
Proof. intros w s. unfold debug. destruct (DEBUG CONFIG); reflexivity. Qed.

Lemma plumbing_Date_now : respects plumbing Date_now.
Proof. intros w s. reflexivity. Qed.

Lemma plumbing_set_rateLimitReset v :
  respects plumbing (modify (set_rateLimitReset v)).
Proof. intros w s. reflexivity. Qed.

Lemma plumbing_fetch {A} (net : env -> nat -> transport A) u :
  respects plumbing (fetch CONFIG net u).
Proof. intros w s. unfold fetch. destruct (net w (requests s)); reflexivity. Qed.

Lemma plumbing_log_until ms : respects plumbing (log (LRateLimitedUntil ms)).
Proof. intros w s. reflexivity. Qed.

Lemma plumbing_render e rn ru em : respects plumbing (render CONFIG e rn ru em).
Proof.
  unfold render, push_embed, fetchCommits, fetchGitHub. unfold_setters.
  repeat first [ apply plumbing_debug | apply plumbing_Date_now
               | apply plumbing_set_rateLimitReset | apply plumbing_fetch
               | apply plumbing_log_until | respects_step ].
Qed.

(** The run of the [try] of [postEvent], read off the run of its
    [switch]. *)
Lemma try_post_shape e em w s :
  let r := render CONFIG e (short_name e) (repo_url e) em w s in
  forallb is_plumbing (acts r) = true /\
  try_post CONFIG e em w s =
    match result r with
    | Ret None => (Ret tt, final r, acts r)
    | Ret (Some m) =>
        match send_result w (posts (final r)) with
        | None =>
            (Ret tt, count_post (final r),
              acts r ++ [ASend m; ALog (LPosted (type e) (repo_name e))])
        | Some err =>
            (Ret tt, count_post (final r),
              acts r ++ [ASendFailed m err; ALog (LErrorPosting (type e) err)])
        end
    | Throw err =>
        (Ret tt, final r, acts r ++ [ALog (LErrorPosting (type e) err)])
    end.
Proof.
  intros r. split.
  - apply (plumbing_render e _ _ _ w s).
  - unfold try_post. fold (short_name e). fold (repo_url e).
    unfold try_catch, bind. fold r.
    destruct r as [[[[m|]|err] s1] t1]; cbn [result final acts fst snd].
    + unfold channel_send, log, emit.
      destruct (send_result w (posts s1)) as [err|]; cbn [fst snd];
        rewrite ?app_nil_r, <- ?app_assoc; reflexivity.
    + unfold ret. rewrite app_nil_r. reflexivity.
    + reflexivity.
Qed.

(** The run of [postEvent]: nothing when the event is refused, and the
    run of the [try] on its builder otherwise. *)
Lemma postEvent_shape e w s :
  postEvent CONFIG e w s =
    match refused w e with
    | Some err => (Throw err, s, [])
    | None => try_post CONFIG e (base_embed e) w s
    end.
Proof.
  destruct (refused w e) as [err|] eqn:H.
  - apply (postEvent_refused CONFIG e w s err H).
  - apply (postEvent_accepted CONFIG e w s H).
Qed.

(** The [switch] returns without an embed only for a type it has no case
    for. *)
Lemma render_skips_only_unknown e rn ru em :
  (exists c, lookup (type e) EVENT_COLORS = Some c) ->
  yields (fun r => r <> None) (render CONFIG e rn ru em).
Proof.
  intros [c H]. unfold render.
  repeat match goal with
         | |- yields _ (if String.eqb ?a ?b then _ else _) =>
             destruct (String.eqb a b) eqn:?
         end.
  all: try (repeat (apply yields_bind; intro); apply yields_ret; discriminate).
  exfalso. revert H. unfold lookup, EVENT_COLORS.
  repeat match goal with
         | E : String.eqb ?a ?b = false |- _ => rewrite E; clear E
         end.
  discriminate.
Qed.

(** ... and for such a type it does nothing at all. *)
Lemma render_unknown e rn ru em w s :
  lookup (type e) EVENT_COLORS = None ->
  render CONFIG e rn ru em w s = (Ret None, s, []).
Proof.
  unfold lookup, EVENT_COLORS. intros H. unfold render.
  repeat match type of H with
         | context [String.eqb ?a ?b] =>
             destruct (String.eqb a b) eqn:?; [discriminate H|]
         end.
  reflexivity.
Qed.

(** X22: an event whose type has no entry in EVENT_COLORS has no case in
    postEvent either and leaves no trace: nothing is sent, requested or
    logged and the state is untouched; the call returns, unless the embed
    library refuses the colour, the author, the timestamp or the footer,
    which rejects it.  An accepted event whose type has an entry always
    ends in a log line, Posted or Error posting. *)
Theorem unknown_type_is_dropped_silently e w s :
  (lookup (type e) EVENT_COLORS = None ->
     postEvent CONFIG e w s =
       (match refused w e with
        | None => Ret tt
        | Some err => Throw err
        end, s, [])) /\
  (forall c, lookup (type e) EVENT_COLORS = Some c ->
     refused w e = None ->
     exists t l,
       acts (postEvent CONFIG e w s) = t ++ [ALog l] /\
       (l = LPosted (type e) (repo_name e) \/
        exists err, l = LErrorPosting (type e) err)).
Proof.
  split.
  - intros H. rewrite postEvent_shape.
    destruct (refused w e); [reflexivity|].
    destruct (try_post_shape e (base_embed e) w s) as [_ Sh]. cbv zeta in Sh.
    rewrite Sh, (render_unknown e _ _ _ w s H). reflexivity.
  - intros c H Acc. rewrite postEvent_shape, Acc.
    destruct (try_post_shape e (base_embed e) w s) as [_ Sh]. cbv zeta in Sh.
    pose proof (render_skips_only_unknown e (short_name e) (repo_url e)
                  (base_embed e) (ex_intro _ c H) w s) as Y.
    rewrite Sh.
    destruct (result (render CONFIG e (short_name e) _ (base_embed e) w s))
      as [[m|]|err].
    + destruct (send_result w _) as [err|]; cbn [acts snd].
      * eexists (_ ++ [_]), _. split; [rewrite <- app_assoc; reflexivity|].
        right. eexists. reflexivity.
      * eexists (_ ++ [_]), _. split; [rewrite <- app_assoc; reflexivity|].
        left. reflexivity.
    + exfalso. apply Y. reflexivity.
    + cbn [acts snd]. eexists _, _. split; [reflexivity|].
      right. eexists. reflexivity.
Qed.

Lemma yields_setter_with (Q : embed -> Prop) c em :
  Q (record c em) -> yields Q (setter c em).
Proof.
  intros H w s. unfold setter. destruct (setter_throws w c); [exact I|exact H].
Qed.

(** One step along the setters of a case of the [switch]. *)
Ltac setter_step :=
  match goal with
  | |- yields _ (bind (if ?b then _ else _) _) => destruct b
  | |- yields _ (bind (setter ?c ?em) _) =>
      apply (yields_bind_with _ _ _ _ (yields_setter c em)); intros ? ->
  | |- yields _ (bind (ret ?a) _) =>
      apply (yields_bind_with _ _ _ _ (yields_ret_eq a)); intros ? ->
  | |- yields _ (bind _ _) => apply yields_bind; intro
  | |- yields _ (setter _ _) => apply yields_setter_with
  | |- yields _ (ret _) => apply yields_ret
  end.

Ltac dressed_now :=
  unfold dressed, base_embed;
  cbn [record color author timestamp footer title url];
  repeat split; eauto.

(** The embed of a push is dressed. *)
Lemma push_embed_dresses e rn branch cs :
  yields (dressed e) (push_embed e rn branch cs (base_embed e)).
Proof.
  unfold push_embed. unfold_setters. cbv zeta.
  repeat setter_step; dressed_now.
Qed.

(** Every embed that the [switch] returns is dressed. *)
Lemma render_dresses e :
  yields (fun r => match r with Some m => dressed e m | None => True end)
    (render CONFIG e (short_name e) (repo_url e) (base_embed e)).
Proof.
  unfold render. unfold_setters. cbv zeta.
  repeat match goal with
         | |- yields _ (if String.eqb ?a ?b then _ else _) =>
             destruct (String.eqb a b) eqn:?
         end.
  all: repeat match goal with
         | |- yields _ (bind (push_embed ?e ?rn ?br ?cs _) _) =>
             apply (yields_bind_with _ _ _ _ (push_embed_dresses e rn br cs));
             intros ? ?
         | _ => setter_step
         end.
  all: try exact I; try assumption.
  all: dressed_now.
Qed.

(** X23: every embed that postEvent tries to send for an event carries the
    colour of the event's type, the actor as author with avatar and
    profile link, the date made from the creation time, the repository as
    footer, and has a title and a link set; and postEvent tries at most
    one. *)
Theorem sent_embeds_are_dressed e w s m :
  In m (attempted (acts (postEvent CONFIG e w s))) ->
  dressed e m /\ attempted (acts (postEvent CONFIG e w s)) = [m].
Proof.
  rewrite postEvent_shape. destruct (refused w e); [intros []|].
  destruct (try_post_shape e (base_embed e) w s) as [Pl Sh]. cbv zeta in Pl, Sh.
  pose proof (render_dresses e w s) as Y.
  destruct (plumbing_silent _ Pl) as (A0 & _).
  rewrite Sh.
  destruct (result (render CONFIG e (short_name e) _ (base_embed e) w s))
    as [[m'|]|err].
  - destruct (send_result w _) as [err|]; cbn [acts snd];
      rewrite attempted_app, A0; cbn; intros [<-|[]]; split; auto.
  - cbn [acts snd]. rewrite A0. intros [].
  - cbn [acts snd]. rewrite attempted_app, A0. intros [].
Qed.

(** X24: an event that the embed library accepts and whose payload lacks
    a value that the case of its type reads before it calls a setter (the
    ref of a push, the forkee, the release, the action or the issue, the
    pull request) is not sent: the TypeError is caught inside postEvent
    and logged for that event, no request is made, and the state is
    untouched, so that the batch goes on. *)
Theorem incomplete_payload_is_logged e q w s :
  missing_property e = Some q ->
  refused w e = None ->
  postEvent CONFIG e w s =
    (Ret tt, s, [ALog (LErrorPosting (type e) (TypeError q))]).
Proof.
  unfold missing_property. cbv zeta. intros H Acc.
  rewrite (postEvent_accepted CONFIG e w s Acc).
  unfold try_post, render, try_catch, bind, prop, throw, ret, log, emit.
  cbv zeta.
  repeat match type of H with
         | context [String.eqb ?a ?b] =>
             destruct (String.eqb a b) eqn:?
         end;
    try discriminate H;
    match goal with
    | E : String.eqb _ _ = true |- _ => apply String.eqb_eq in E; rewrite E
    end;
    repeat match type of H with
           | context [match ?o with _ => _ end] => destruct o
           end;
    try discriminate H; injection H as <-; reflexivity.
Qed.

(** X25: the log lines of postEvent tell what happened to the message:
    Posted is logged exactly when the message was delivered, and a
    rejected send is logged as Error posting with the error of the
    channel, without a Posted line. *)
Theorem posted_line_iff_delivered e w s :
  let p := postEvent CONFIG e w s in
  (In (ALog (LPosted (type e) (repo_name e))) (acts p) <->
     exists m, delivered (acts p) = [m]) /\
  (forall m err, In (ASendFailed m err) (acts p) ->
     In (ALog (LErrorPosting (type e) err)) (acts p) /\
     delivered (acts p) = [] /\
     forall ty rp, ~ In (ALog (LPosted ty rp)) (acts p)).
Proof.
  cbv zeta. rewrite postEvent_shape.
  destruct (refused w e).
  { cbn [acts snd]. split; [split; [intros []|intros [m H]; discriminate H]|].
    intros m err []. }
  destruct (try_post_shape e (base_embed e) w s) as [Pl Sh]. cbv zeta in Pl, Sh.
  destruct (plumbing_silent _ Pl) as (_ & D0 & P0 & E0 & S0 & F0).
  rewrite Sh.
  destruct (result (render CONFIG e (short_name e) _ (base_embed e) w s))
    as [[m'|]|err].
  - destruct (send_result w _) as [err|]; cbn [acts snd].
    + split.
      * split.
        -- intros H. apply in_app_or in H as [H|[H|[H|[]]]];
             [exfalso; eapply P0; exact H|discriminate H|discriminate H].
        -- intros [m H]. rewrite delivered_app, D0 in H. discriminate H.
      * intros m err' H. apply in_app_or in H as [H|[H|[H|[]]]];
          [exfalso; eapply F0; exact H| |discriminate H].
        injection H as <- <-. split; [|split].
        -- apply in_or_app. right. right. left. reflexivity.
        -- rewrite delivered_app, D0. reflexivity.
        -- intros ty rp X. apply in_app_or in X as [X|[X|[X|[]]]];
             [eapply P0; exact X|discriminate X|discriminate X].
    + split.
      * split.
        -- intros _. exists m'. rewrite delivered_app, D0. reflexivity.
        -- intros _. apply in_or_app. right. right. left. reflexivity.
      * intros m err' H. exfalso. apply in_app_or in H as [H|[H|[H|[]]]];
          [eapply F0; exact H|discriminate H|discriminate H].
  - cbn [acts snd]. split.
    + split.
      * intros H. exfalso. eapply P0. exact H.
      * intros [m H]. rewrite D0 in H. discriminate H.
    + intros m err' H. exfalso. eapply F0. exact H.
  - cbn [acts snd]. split.
    + split.
      * intros H. apply in_app_or in H as [H|[H|[]]];
          [exfalso; eapply P0; exact H|discriminate H].
      * intros [m H]. rewrite delivered_app, D0 in H. discriminate H.
    + intros m err' H. exfalso. apply in_app_or in H as [H|[H|[]]];
        [eapply F0; exact H|discriminate H].
Qed.

End Renderer.

(* ================================================================== *)
(** ** Further runs on sample feeds *)

(** X6 on the feed 5, 4, 3: a process starts cold, posts the fork 5 and
    writes the id; the next process posts nothing. *)
Lemma restart_posts_no_duplicates_witness :
  let w := world 200 feed543 200 true in
  let s' := restart (final (pollGitHub sample_CONFIG w (started None))) in
  delivered (acts (pollGitHub sample_CONFIG w (started None))) = [fork_embed "5"] /\
  lastEventId s' = None /\
  attempted (acts (clientReady sample_CONFIG w s')) = [] /\
  lastEventId (final (clientReady sample_CONFIG w s')) = Some "5"%string.
Proof.
  cbv zeta. split; [reflexivity|].
  destruct (restart_posts_no_duplicates sample_CONFIG
              (world 200 feed543 200 true) (world 200 feed543 200 true)
              (started None)
              (count_request (tick (started None)))
              [request_line sample_CONFIG (events_url sample_CONFIG)]
              (fork "5") [fork "4"; fork "3"]
              {| status := 200; x_ratelimit_remaining := None;
                 x_ratelimit_reset := None; json := Some feed543 |})
    as (L & _ & A & N);
    [reflexivity | reflexivity | reflexivity | reflexivity
    | vm_compute; discriminate | reflexivity | reflexivity | reflexivity |].
  split; [exact L|]. split; [exact A|exact N].
Defined.

(** X7 on a process that finds a state file it cannot parse and a feed of
    three forks: the failure to load is the fourth line of the log, after
    the three lines of the start. *)
Lemma unreadable_state_is_cold_start_witness :
  let s := set_state_file (Corrupt SyntaxError) (started None) in
  let c := clientReady sample_CONFIG (world 200 feed543 200 true) s in
  result c = Ret tt /\
  (List.length (attempted (acts c)) <= 1)%nat /\
  sleeps (acts c) = [] /\
  firstn 4 (acts c) =
    [ALog (LLoggedIn "gitbot#0001");
     ALog (LPolling (Some "octocat"%string) 60000);
     ALog (LEventTypes (EVENT_TYPES sample_CONFIG));
     ALog (LFailedLoad SyntaxError)].
Proof.
  destruct (unreadable_state_is_cold_start sample_CONFIG
              (world 200 feed543 200 true)
              (set_state_file (Corrupt SyntaxError) (started None))
              (or_intror (ex_intro _ SyntaxError eq_refl)))
    as (R & B & S & _ & C).
  split; [exact R|]. split; [exact B|]. split; [exact S|].
  rewrite (C SyntaxError eq_refl). reflexivity.
Defined.

(** X9 on a feed request answered 500: the gate stays at 0. *)
Lemma gate_moves_only_on_throttling_witness :
  rateLimitReset
    (final (fetchGitHub sample_CONFIG http_events (events_url sample_CONFIG)
              (world 500 feed543 200 true) (started None))) = JS.Num 0.
Proof.
  apply (gate_moves_only_on_throttling sample_CONFIG http_events
           (events_url sample_CONFIG) (world 500 feed543 200 true) (started None)).
  right. intros r [= <-]. reflexivity.
Defined.

(** X10 on a gate closed for another minute. *)
Lemma closed_gate_cycle_is_idle_witness :
  let r := pollGitHub sample_CONFIG (world 200 feed543 200 true)
             (cooling (Some "3"%string) 1714564860000) in
  fetches (acts r) = [] /\ outbound (acts r) = [] /\
  lastEventId (final r) = Some "3"%string.
Proof.
  destruct (closed_gate_cycle_is_idle sample_CONFIG (world 200 feed543 200 true)
              (cooling (Some "3"%string) 1714564860000) eq_refl)
    as (_ & F & O & _ & _ & L & _).
  split; [exact F|]. split; [exact O|exact L].
Defined.

(** X11 on a feed request answered 429 without a hint: the gate closes for
    a minute from the second clock read, and the next cycle is idle. *)
Lemma throttled_cycle_closes_gate_witness :
  let w := throttled_world None in
  let c := pollGitHub sample_CONFIG w (started (Some "3"%string)) in
  rateLimitReset (final c) = JS.Num 1714564860001 /\
  outbound (acts c) = [] /\
  fetches (acts (pollGitHub sample_CONFIG w (final c))) = [].
Proof.
  assert (P : printable 1714564860001) by (split; discriminate).
  destruct (throttled_cycle_closes_gate sample_CONFIG (throttled_world None)
              (started (Some "3"%string))
              {| status := 429; x_ratelimit_remaining := None;
                 x_ratelimit_reset := None; json := Some [] |}
              1714564860001 eq_refl eq_refl eq_refl eq_refl P)
    as (_ & G & _ & O & _ & Next).
  split; [exact G|]. split; [exact O|].
  destruct (Next (throttled_world None)) as [Idle _].
  apply Idle. reflexivity.
Defined.

(** X12 without network, and with a feed body that does not parse. *)
Lemma activity_transport_errors_are_logged_witness :
  poll_errors (acts (pollGitHub sample_CONFIG offline_world
                       (started (Some "3"%string))))
    = [NetworkError "fetch failed"] /\
  poll_errors (acts (pollGitHub sample_CONFIG garbled_world
                       (started (Some "3"%string))))
    = [SyntaxError] /\
  lastEventId (final (pollGitHub sample_CONFIG garbled_world
                        (started (Some "3"%string)))) = Some "3"%string.
Proof.
  destruct (activity_transport_errors_are_logged sample_CONFIG offline_world
              (started (Some "3"%string)) eq_refl) as [Off _].
  destruct (activity_transport_errors_are_logged sample_CONFIG garbled_world
              (started (Some "3"%string)) eq_refl) as [_ Gar].
  rewrite (Off (NetworkError "fetch failed") eq_refl).
  rewrite (Gar {| status := 200; x_ratelimit_remaining := None;
                  x_ratelimit_reset := None; json := None |}
             eq_refl eq_refl eq_refl).
  repeat split.
Defined.


(** X15 on an empty feed. *)
Lemma empty_feed_changes_nothing_witness :
  let r := pollGitHub sample_CONFIG (world 200 [] 200 true)
             (started (Some "3"%string)) in
  outbound (acts r) = [] /\ written (acts r) = [] /\
  lastEventId (final r) = Some "3"%string /\ state_file (final r) = Saved "3".
Proof.
  destruct (empty_feed_changes_nothing sample_CONFIG (world 200 [] 200 true)
              (started (Some "3"%string))
              (count_request (tick (started (Some "3"%string))))
              [request_line sample_CONFIG (events_url sample_CONFIG)] eq_refl)
    as (O & W & _ & L & S & _).
  split; [exact O|]. split; [exact W|]. split; [exact L|exact S].
Defined.

(** X16 on a feed with a star under the fork 6, a fork 5 whose date the
    library refuses, and the id 3 seen: the fork 4 goes out and is paced,
    the cycle ends at the refused fork 5 with a logged error, and neither
    the star nor the fork 6 is posted. *)
Lemma replay_posts_newer_allowed_oldest_first_witness :
  let evs := [fork "6"; star "56"; undated_fork "5"; fork "4"; fork "3"] in
  let r := pollGitHub sample_CONFIG (strict_world evs) (started (Some "3"%string)) in
  outbound (acts r) = [ASend (fork_embed "4"); ASleep 500] /\
  sleeps (acts r) = [500] /\
  poll_errors (acts r) <> [].
Proof.
  cbv zeta.
  destruct (replay_posts_newer_allowed_oldest_first sample_CONFIG
              (strict_world
                 [fork "6"; star "56"; undated_fork "5"; fork "4"; fork "3"])
              (started (Some "3"%string))
              (count_request (tick (started (Some "3"%string))))
              [request_line sample_CONFIG (events_url sample_CONFIG)]
              [fork "6"; star "56"; undated_fork "5"; fork "4"; fork "3"]
              "3"%string eq_refl eq_refl eq_refl)
    as (O & S & _ & E & _).
  split; [rewrite O; reflexivity|].
  split; [rewrite S; reflexivity|].
  intros N. apply E in N. discriminate N.
Defined.


(** X18 without the channel and without network. *)
Lemma no_channel_no_effect_witness :
  let r := pollGitHub sample_CONFIG (world 200 feed543 200 false)
             (started (Some "3"%string)) in
  outbound (acts r) = [] /\ written (acts r) = [] /\
  lastEventId (final r) = Some "3"%string.
Proof.
  destruct (no_channel_no_effect sample_CONFIG (world 200 feed543 200 false)
              (started (Some "3"%string)) eq_refl) as (O & W & L & _).
  split; [exact O|]. split; [exact W|exact L].
Defined.

(** X20 along a cold cycle, a cycle on a longer feed and an idle one. *)
Lemma file_follows_memory_witness :
  let ws := [world 200 feed543 200 true;
             world 200 (fork "6" :: feed543) 200 true;
             world 200 (fork "6" :: feed543) 200 false] in
  in_sync (cycles sample_CONFIG ws (started None)) /\
  lastEventId (cycles sample_CONFIG ws (started None)) = Some "6"%string.
Proof.
  split; [|reflexivity].
  apply (file_follows_memory sample_CONFIG
           [world 200 feed543 200 true;
            world 200 (fork "6" :: feed543) 200 true;
            world 200 (fork "6" :: feed543) 200 false] (started None)).
  - repeat constructor.
  - exact I.
Defined.


(** X23 on the embed of the sample fork. *)
Lemma sent_embeds_are_dressed_witness :
  dressed (fork "5") (fork_embed "5") /\
  attempted (acts (postEvent sample_CONFIG (fork "5")
                     (world 200 feed543 200 true) (started None)))
    = [fork_embed "5"].
Proof.
  apply (sent_embeds_are_dressed sample_CONFIG (fork "5")
           (world 200 feed543 200 true) (started None) (fork_embed "5")).
  left. reflexivity.
Defined.

(** X24 on a fork without its forkee, alone and in a batch: the fork 4
    after it is still posted. *)
Lemma incomplete_payload_is_logged_witness :
  postEvent sample_CONFIG (broken_fork "6") (world 200 feed543 200 true)
    (started None)
    = (Ret tt, started None,
       [ALog (LErrorPosting "ForkEvent" (TypeError "full_name"))]) /\
  delivered (acts (pollGitHub sample_CONFIG
                     (world 200 [fork "7"; broken_fork "6"; fork "3"] 200 true)
                     (started (Some "3"%string)))) = [fork_embed "7"].
Proof.
  split; [|reflexivity].
  apply (incomplete_payload_is_logged sample_CONFIG (broken_fork "6")
           "full_name"%string (world 200 feed543 200 true) (started None));
    reflexivity.
Defined.

(* ================================================================== *)
(** ** Further properties: numbers read from strings *)

From Stdlib Require DecimalPos.

Lemma digits_acc d : forall acc,
  JS.digits 10 (Some (Zpos acc)) (NilEmpty.string_of_uint d)
    = Some (Zpos (Pos.of_uint_acc d acc)).
Proof.
  induction d as [|d IH|d IH|d IH|d IH|d IH|d IH|d IH|d IH|d IH|d IH];
    intros acc; [reflexivity|..];
    cbn [NilEmpty.string_of_uint JS.digits];
    match goal with
    | |- context [JS.digit_of 10 ?c] =>
        let v := eval vm_compute in (JS.digit_of 10 c) in
        change (JS.digit_of 10 c) with v
    end;
    cbv iota; cbn [Pos.of_uint_acc];
    match goal with
    | |- JS.digits 10 (Some ?a) _ = Some (Zpos (Pos.of_uint_acc _ ?b)) =>
        replace a with (Zpos b) by lia
    end;
    apply IH.
Qed.

Lemma digits_zero d :
  JS.digits 10 (Some 0) (NilEmpty.string_of_uint d)
    = Some (Z.of_N (Pos.of_uint d)).
Proof.
  induction d as [|d IH|d IH|d IH|d IH|d IH|d IH|d IH|d IH|d IH|d IH];
    [reflexivity|exact IH|..];
    cbn [NilEmpty.string_of_uint JS.digits];
    match goal with
    | |- context [JS.digit_of 10 ?c] =>
        let v := eval vm_compute in (JS.digit_of 10 c) in
        change (JS.digit_of 10 c) with v
    end;
    cbv iota; cbn [Pos.of_uint Z.of_N Z.mul Z.add]; apply digits_acc.
Qed.

Lemma digits_none d :
  d <> Decimal.Nil ->
  JS.digits 10 None (NilEmpty.string_of_uint d) = Some (Z.of_N (Pos.of_uint d)).
Proof.
  destruct d; intros H; [contradiction|..];
    cbn [NilEmpty.string_of_uint JS.digits];
    match goal with
    | |- context [JS.digit_of 10 ?c] =>
        let v := eval vm_compute in (JS.digit_of 10 c) in
        change (JS.digit_of 10 c) with v
    end;
    cbv iota; cbn [Pos.of_uint Z.of_N];
    first [apply digits_zero | apply digits_acc].
Qed.

(** parseInt on decimal digits reads their value, with or without a minus
    sign in front, and rounds it to a double. *)
Lemma parseInt_uint d :
  d <> Decimal.Nil ->
  JS.parseInt_string (NilEmpty.string_of_uint d)
    = JS.Num (JS.to_double (Z.of_uint d)) /\
  JS.parseInt_string (String "-" (NilEmpty.string_of_uint d))
    = JS.Num (JS.to_double (- Z.of_uint d)).
Proof.
  intros H. pose proof (digits_none d H) as D. unfold Z.of_uint.
  destruct d as [|l|l|l|l|l|l|l|l|l|l]; [contradiction|destruct l|..];
    unfold JS.parseInt_string;
    cbn [NilEmpty.string_of_uint JS.skip_spaces] in D |- *;
    repeat match goal with
           | |- context [JS.is_space ?c] =>
               let v := eval vm_compute in (JS.is_space c) in
               change (JS.is_space c) with v
           end;
    cbv beta iota zeta;
    rewrite D; split; f_equal; f_equal; lia.
Qed.

Lemma nilzero_nonnil d :
  d <> Decimal.Nil -> NilZero.string_of_uint d = NilEmpty.string_of_uint d.
Proof. destruct d; intros H; [contradiction|reflexivity..]. Qed.

(** Reading back the decimal text of an integer gives the double nearest
    to the integer. *)
Lemma parseInt_show_int z :
  JS.parseInt_string (JS.show_int z) = JS.Num (JS.to_double z).
Proof.
  unfold JS.show_int, NilZero.string_of_int, Z.to_int.
  destruct z as [|p|p]; [reflexivity|..];
    pose proof (DecimalPos.Unsigned.to_uint_nonnil p) as N;
    rewrite (nilzero_nonnil _ N);
    destruct (parseInt_uint _ N) as [P M];
    [rewrite P|rewrite M]; unfold Z.of_uint;
    rewrite DecimalPos.Unsigned.of_to; reflexivity.
Qed.

Lemma show_int_nonempty z : JS.show_int z <> ""%string.
Proof.
  unfold JS.show_int, NilZero.string_of_int, Z.to_int.
  destruct z as [|p|p]; [discriminate| |discriminate].
  pose proof (DecimalPos.Unsigned.to_uint_nonnil p) as N.
  destruct (Pos.to_uint p); [contradiction|discriminate..].
Qed.

(** Reading back the decimal text of a safe integer gives the integer. *)
Lemma parseInt_show_safe z :
  Z.abs z < 2 ^ 53 -> JS.parseInt_string (JS.show_int z) = JS.Num z.
Proof.
  intros H. rewrite parseInt_show_int, (to_double_safe z H). reflexivity.
Qed.

(** X26: the poll interval is never 0: it is 60000 when POLL_INTERVAL is
    unset; when the variable is the decimal text of an integer n of at
    most 20 digits it is the double nearest to n, or 60000 when that is 0;
    so it is n itself for every n other than 0 below 2^53 in absolute
    value. *)
Theorem POLL_INTERVAL_parsed (getenv : string -> option string) :
  (getenv "POLL_INTERVAL"%string = None ->
     POLL_INTERVAL (CONFIG_of getenv) = 60000) /\
  (forall n, getenv "POLL_INTERVAL"%string = Some (JS.show_int n) ->
     Z.abs n < 10 ^ 20 ->
     POLL_INTERVAL (CONFIG_of getenv)
       = if JS.to_double n =? 0 then 60000 else JS.to_double n) /\
  (forall n, getenv "POLL_INTERVAL"%string = Some (JS.show_int n) ->
     Z.abs n < 2 ^ 53 ->
     POLL_INTERVAL (CONFIG_of getenv) = if n =? 0 then 60000 else n) /\
  (POLL_INTERVAL (CONFIG_of getenv) =? 0) = false.
Proof.
  unfold CONFIG_of. cbn [POLL_INTERVAL]. split; [|split; [|split]].
  - intros ->. reflexivity.
  - intros n -> _. cbn [JS.parseInt]. rewrite parseInt_show_int. reflexivity.
  - intros n -> S. cbn [JS.parseInt]. rewrite (parseInt_show_safe n S).
    reflexivity.
  - unfold JS.or_else. destruct (JS.parseInt _) as [z|]; [|reflexivity].
    destruct (Z.eqb_spec z 0); [reflexivity|]. apply Z.eqb_neq. assumption.
Qed.

Section Readings.

Variable CONFIG : config.

(** X27: when a request is answered 403 or 429 with an x-ratelimit-reset
    header that is the decimal text of secs (epoch seconds whose
    milliseconds Date can print), fetchGitHub returns null, sets
    rateLimitReset to secs * 1000 and logs that time. *)
Theorem decimal_hint_sets_gate {A} (net : env -> nat -> transport A)
    (u : string) (w : env) (s : state) (r : response A) (secs : Z) :
  suppressed w s = false ->
  net w (requests s) = Response r ->
  throttling (status r) = true ->
  x_ratelimit_reset r = Some (JS.show_int secs) ->
  printable (secs * 1000) ->
  let a := fetchGitHub CONFIG net u w s in
  result a = Ret None /\
  rateLimitReset (final a) = JS.Num (secs * 1000) /\
  In (ALog (LRateLimitedUntil (secs * 1000))) (acts a) /\
  lastEventId (final a) = lastEventId s.
Proof.
  intros H N T X P a. unfold a.
  assert (S : Z.abs secs < 2 ^ 53)
    by (destruct P as [Lo Hi]; unfold JS.max_time in *; lia).
  rewrite (fetchGitHub_throttled_hint CONFIG net u w s r (JS.show_int secs) secs
             H N T X (show_int_nonempty secs) (parseInt_show_safe secs S) P).
  cbn [result final acts fst snd]. repeat split.
  apply in_or_app. right. left. reflexivity.
Qed.

Hypothesis debug_off : DEBUG CONFIG = false.

#[local] Instance hushed_frame : Frame hushed.
Proof.
  split.
  - intros s. reflexivity.
  - intros s1 s2 s3 t1 t2 H1 H2. unfold hushed, debugs in *.
    rewrite filter_app, H1, H2. reflexivity.
Qed.

Lemma hushed_debug l : respects hushed (debug CONFIG l).
Proof. intros w s. unfold debug. rewrite debug_off. reflexivity. Qed.

Lemma hushed_log l : respects hushed (log l).
Proof. intros w s. reflexivity. Qed.

Lemma hushed_modify f : respects hushed (modify f).
Proof. intros w s. reflexivity. Qed.

Lemma hushed_Date_now : respects hushed Date_now.
Proof. intros w s. reflexivity. Qed.

Lemma hushed_sleep ms : respects hushed (sleep ms).
Proof. intros w s. reflexivity. Qed.

Lemma hushed_emit_write f i : respects hushed (emit (AWrite f i)).
Proof. intros w s. reflexivity. Qed.

Lemma hushed_fetch {A} (net : env -> nat -> transport A) u :
  respects hushed (fetch CONFIG net u).
Proof. intros w s. unfold fetch. destruct (net w (requests s)); reflexivity. Qed.

Lemma hushed_channel_send m : respects hushed (channel_send m).
Proof.
  intros w s. unfold channel_send. destruct (send_result w (posts s)); reflexivity.
Qed.

Ltac hushed_auto :=
  repeat first [ apply hushed_debug | apply hushed_log | apply hushed_modify
               | apply hushed_Date_now | apply hushed_sleep
               | apply hushed_emit_write | apply hushed_fetch
               | apply hushed_channel_send | respects_step ].

Lemma hushed_postEvent e : respects hushed (postEvent CONFIG e).
Proof.
  unfold postEvent, new_embed, render, push_embed, fetchCommits, fetchGitHub.
  unfold_setters. cbv zeta. hushed_auto.
Qed.

Lemma hushed_pollGitHub : respects hushed (pollGitHub CONFIG).
Proof.
  unfold pollGitHub, fetchEvents, fetchGitHub, saveLastEventId.
  repeat first [ apply hushed_postEvent | hushed_auto ].
Qed.

(** X28: with DEBUG off (the default) a cycle, and the start of the
    process with its first cycle, emit no debug line, whatever the
    surroundings do; what is logged is logged by log. *)
Theorem debug_off_is_silent w s :
  debugs (acts (pollGitHub CONFIG w s)) = [] /\
  debugs (acts (clientReady CONFIG w s)) = [].
Proof.
  split; [apply hushed_pollGitHub|].
  assert (R : respects hushed (clientReady CONFIG)).
  { unfold clientReady, loadLastEventId.
    repeat first [ apply hushed_pollGitHub | hushed_auto ]. }
  apply R.
Qed.

End Readings.

(** X26 on POLL_INTERVAL=9007199254740993, which is 2^53 + 1: the interval
    is the even neighbour 2^53. *)
Lemma POLL_INTERVAL_parsed_witness :
  POLL_INTERVAL
    (CONFIG_of (fun k =>
       if String.eqb k "POLL_INTERVAL" then Some "9007199254740993"%string
       else sample_getenv k))
    = 9007199254740992.
Proof.
  destruct (POLL_INTERVAL_parsed (fun k =>
              if String.eqb k "POLL_INTERVAL" then Some "9007199254740993"%string
              else sample_getenv k)) as (_ & R & _).
  rewrite (R 9007199254740993 eq_refl); [reflexivity|]. vm_compute. reflexivity.
Defined.

(** X27 on a request answered 429 with the header 1714568400. *)
Lemma decimal_hint_sets_gate_witness :
  let a := fetchGitHub sample_CONFIG http_events (events_url sample_CONFIG)
             (throttled_world (Some "1714568400"%string)) (started None) in
  result a = Ret None /\ rateLimitReset (final a) = JS.Num 1714568400000.
Proof.
  assert (P : printable (1714568400 * 1000)) by (split; discriminate).
  destruct (decimal_hint_sets_gate sample_CONFIG http_events
              (events_url sample_CONFIG)
              (throttled_world (Some "1714568400"%string)) (started None)
              {| status := 429; x_ratelimit_remaining := None;
                 x_ratelimit_reset := Some "1714568400"%string; json := Some [] |}
              1714568400 eq_refl eq_refl eq_refl eq_refl P)
    as (R & G & _).
  split; [exact R|exact G].
Defined.

(** X28 on a replay over the sample feed under the default configuration. *)
Lemma debug_off_is_silent_witness :
  debugs (acts (pollGitHub sample_CONFIG (world 200 feed543 200 true)
                  (started (Some "3"%string)))) = [] /\
  debugs (acts (clientReady sample_CONFIG (world 200 feed543 200 true)
                  (started None))) = [].
Proof.
  split.
  - apply (debug_off_is_silent sample_CONFIG eq_refl
             (world 200 feed543 200 true) (started (Some "3"%string))).
  - apply (debug_off_is_silent sample_CONFIG eq_refl
             (world 200 feed543 200 true) (started None)).
Defined.
